(** * OverlayX: a shallow embedding of the plugin pipeline

    The development follows the Python sources: [overlayx.py] (the
    [PluginManager]) and the plugin classes under [plugins/].

    Conventions of the embedding.
    - A Python value coming from the YAML/JSON configuration is a [value].
      A float is the rational it denotes ([Q]); comparisons and [int] of
      a float are exact on it, while a product with a float, which the
      machine rounds, is asked of the environment. Strings are byte strings
      ([string]), with ASCII case mapping for [str.upper]/[str.lower].
    - A Python dict with string keys used only for lookups (a plugin's
      option mapping) is a [gmap string value]; the manager's registry,
      whose iteration order is the processing order, is an association
      list in insertion order.
    - [print] is an append to an event log; exceptions are the [Raise]
      outcome of [result].
    - Images are objects in a store ([list Image], an object identity is an
      index); drawing calls of the imaging library are recorded on the
      image they hit. *)

From Stdlib Require Import Ascii String QArith Qround Lqa.
From stdpp Require Import base option list strings gmap pretty.

Local Set Warnings "-register-all".

Local Open Scope Z_scope.
Local Open Scope string_scope.
Local Open Scope list_scope.

(** ** Python values and exceptions *)

Inductive value : Type :=
| VNone
| VBool (b : bool)
| VInt (n : Z)
| VFloat (q : Q)
| VStr (s : string)
| VList (l : list value)
| VDict (d : list (string * value)).

Inductive exn : Type :=
| TypeError
| ValueError
| AttributeError
| KeyError
| IndexError
| FileNotFoundError
| OSError
| OtherError.

Inductive result (A : Type) : Type :=
| Ok (a : A)
| Raise (e : exn).
Arguments Ok {A} a.
Arguments Raise {A} e.

(** [except OSError] also catches its subclass [FileNotFoundError]. *)
Definition is_OSError (e : exn) : bool :=
  match e with
  | OSError | FileNotFoundError => true
  | _ => false
  end.

Definition is_FileNotFoundError (e : exn) : bool :=
  match e with
  | FileNotFoundError => true
  | _ => false
  end.

(** Python truthiness ([if v], [not v], [v or d]). *)
Definition truthy (v : value) : bool :=
  match v with
  | VNone => false
  | VBool b => b
  | VInt n => negb (Z.eqb n 0)
  | VFloat q => negb (Qeq_bool q 0)
  | VStr s => negb (String.eqb s EmptyString)
  | VList l => match l with [] => false | _ => true end
  | VDict d => match d with [] => false | _ => true end
  end.

(** [dict.get] of an option mapping. *)
Definition get (cfg : gmap string value) (k : string) (d : value) : value :=
  default d (cfg !! k).

(** [k in cfg]. *)
Definition has_key (cfg : gmap string value) (k : string) : bool :=
  bool_decide (is_Some (cfg !! k)).

(** [v.get(k, d)] on an arbitrary value: only a dict has [get]; a dict
    literal with a repeated key keeps the last one, which the parsed
    configuration never has. *)
Fixpoint assoc_get (d : list (string * value)) (k : string) : option value :=
  match d with
  | [] => None
  | (k', v) :: d' => if String.eqb k' k then Some v else assoc_get d' k
  end.

Definition value_get (v : value) (k : string) (d : value) : result value :=
  match v with
  | VDict m => Ok (default d (assoc_get m k))
  | _ => Raise AttributeError
  end.

(** [tuple(v)]: the items of an iterable. A string iterates over its
    characters and a dict over its keys. *)
Fixpoint chars (s : string) : list value :=
  match s with
  | EmptyString => []
  | String a s' => VStr (String a EmptyString) :: chars s'
  end.

Definition iter (v : value) : result (list value) :=
  match v with
  | VStr s => Ok (chars s)
  | VList l => Ok l
  | VDict d => Ok (map (fun kv => VStr (fst kv)) d)
  | VNone | VBool _ | VInt _ | VFloat _ => Raise TypeError
  end.

Definition tuple (v : value) : result (list value) := iter v.

(** ASCII case mapping, as [str.upper] and [str.lower] act on ASCII text. *)
Definition upper_ascii (a : ascii) : ascii :=
  let n := nat_of_ascii a in
  if ((97 <=? n)%nat && (n <=? 122)%nat)%bool then ascii_of_nat (n - 32) else a.

Definition lower_ascii (a : ascii) : ascii :=
  let n := nat_of_ascii a in
  if ((65 <=? n)%nat && (n <=? 90)%nat)%bool then ascii_of_nat (n + 32) else a.

Fixpoint upper (s : string) : string :=
  match s with
  | EmptyString => EmptyString
  | String a s' => String (upper_ascii a) (upper s')
  end.

Fixpoint lower (s : string) : string :=
  match s with
  | EmptyString => EmptyString
  | String a s' => String (lower_ascii a) (lower s')
  end.

(** [sub in s] for strings. *)
Fixpoint is_prefix (p s : string) : bool :=
  match p, s with
  | EmptyString, _ => true
  | String a p', String b s' => (Ascii.eqb a b && is_prefix p' s')%bool
  | String _ _, EmptyString => false
  end.

Fixpoint contains (sub s : string) : bool :=
  (is_prefix sub s ||
   match s with
   | EmptyString => false
   | String _ s' => contains sub s'
   end)%bool.

(** ** Output of [print] *)

Inductive event : Type :=
| PluginRegistered (name : string) (id : string)
| WarnUnknownType (ty : string)
| ErrInitialize (ty : string) (id : option string) (e : exn)
| ErrInitializeLegacy (id : string) (e : exn)
| WarnOverlayFileNotFound (file : value)
| WarnTimezoneUnknown (tz : string)
| WarnTlpLevel (level : value).

(** ** The common part of every plugin ([plugins/base.py]) *)

Record Plugin : Type := mkPlugin {
  name : string;
  config : gmap string value;
  enabled : value;
  shortcuts : value
}.

(** [Plugin.__init__(name, config)]. The option mapping is a dict, so
    [config or {}] is [config] itself and [config.get] exists; an empty
    dict is falsy and takes the defaults. The attribute [app_config],
    which [initialize] stores and nothing reads, is left out. *)
Definition Plugin_init (nm : string) (cfg : gmap string value) : Plugin :=
  let nonempty := negb (Nat.eqb (size cfg) 0) in
  {| name := nm;
     config := cfg;
     enabled := if nonempty then get cfg "show_by_default" (VBool true) else VBool true;
     shortcuts := if nonempty then get cfg "shortcuts" (VDict []) else VDict [] |}.

Definition set_enabled (v : value) (p : Plugin) : Plugin :=
  {| name := name p; config := config p; enabled := v; shortcuts := shortcuts p |}.

Definition set_shortcuts (v : value) (p : Plugin) : Plugin :=
  {| name := name p; config := config p; enabled := enabled p; shortcuts := v |}.

(** ** Numbers and comparisons on values *)

(** The numeric reading of a value: [bool] is a subclass of [int]. *)
Inductive num : Type :=
| NInt (n : Z)
| NFloat (q : Q).

Definition num_of (v : value) : option num :=
  match v with
  | VBool b => Some (NInt (if b then 1 else 0))
  | VInt n => Some (NInt n)
  | VFloat q => Some (NFloat q)
  | _ => None
  end.

Definition Q_of_num (n : num) : Q :=
  match n with
  | NInt z => inject_Z z
  | NFloat q => q
  end.

(** [a - b] and [a + b] where one operand is a number: any other operand
    type is a [TypeError]. *)
Definition num_binop (fz : Z -> Z -> Z) (fq : Q -> Q -> Q) (a b : value) : result value :=
  match num_of a, num_of b with
  | Some (NInt x), Some (NInt y) => Ok (VInt (fz x y))
  | Some x, Some y => Ok (VFloat (fq (Q_of_num x) (Q_of_num y)))
  | _, _ => Raise TypeError
  end.

Definition py_sub : value -> value -> result value := num_binop Z.sub Qminus.
Definition py_add : value -> value -> result value := num_binop Z.add Qplus.

(** [a < b] between numbers. *)
Definition py_lt (a b : value) : result bool :=
  match num_of a, num_of b with
  | Some x, Some y =>
      Ok (negb (Qle_bool (Q_of_num y) (Q_of_num x)))
  | _, _ => Raise TypeError
  end.

(** [a == b]: numbers compare by value, containers element-wise, and
    values of unrelated types are unequal. *)
Fixpoint py_eq (a b : value) {struct a} : bool :=
  match a, b with
  | VNone, VNone => true
  | VStr s, VStr t => String.eqb s t
  | VList l, VList m =>
      (fix go (l m : list value) {struct l} : bool :=
         match l, m with
         | [], [] => true
         | x :: l', y :: m' => (py_eq x y && go l' m')%bool
         | _, _ => false
         end) l m
  | VDict d, VDict e =>
      (Nat.eqb (length d) (length e) &&
       (fix go (d : list (string * value)) {struct d} : bool :=
          match d with
          | [] => true
          | kv :: d' =>
              (match assoc_get e (fst kv) with
               | Some w => py_eq (snd kv) w
               | None => false
               end && go d')%bool
          end) d)%bool
  | _, _ =>
      match num_of a, num_of b with
      | Some x, Some y => Qeq_bool (Q_of_num x) (Q_of_num y)
      | _, _ => false
      end
  end.

(** [t[i]] on a tuple. *)
Definition item (t : list value) (i : nat) : result value :=
  match t !! i with
  | Some v => Ok v
  | None => Raise IndexError
  end.

(** ** The imaging library *)

Inductive Font : Type :=
| TrueType (path : value) (size : value)
| DefaultFont.

(** What is drawn is text built by the plugin: a literal, the formatted
    time, or the classification label. *)
Inductive DateTime : Type :=
| NaiveLocal
| AwareLocal
| AwareUTC
| AwareZone (key : string).

Inductive Text : Type :=
| Literal (s : string)
| Strftime (now : DateTime) (fmt : string).

(** An image is its size and the calls that produced its pixels. *)
Inductive Image : Type :=
| mkImage (w h : Z) (ops : list Op)
with Op : Type :=
| Captured (tag : nat)
| Opened (file : value)
| Fit (w h : Z)
| Resize (w h : Z)
| Rectangle (box : list value) (fill : list Z)
| DrawText (pos : list value) (text : Text) (font : option Font) (fill : list Z)
| Paste (src : Image) (pos : value) (scale_alpha : option value).

Definition im_w (i : Image) : Z := match i with mkImage w _ _ => w end.
Definition im_h (i : Image) : Z := match i with mkImage _ h _ => h end.
Definition im_ops (i : Image) : list Op := match i with mkImage _ _ ops => ops end.

Definition im_size (i : Image) : Z * Z := (im_w i, im_h i).

(** A call that changes pixels in place. *)
Definition im_draw (op : Op) (i : Image) : Image :=
  mkImage (im_w i) (im_h i) (im_ops i ++ [op]).

(** [image.resize(size, LANCZOS)] and [ImageOps.fit(image, size, LANCZOS)]
    return a new image of the requested size; the library wants integer
    sizes, and [resize] refuses a width or height that is not positive
    with a [ValueError]. [fit] is taken on the sizes it accepts. *)
Definition im_resize (i : Image) (w h : Z) : result Image :=
  if ((0 <? w)%Z && (0 <? h)%Z)%bool then Ok (mkImage w h (im_ops i ++ [Resize w h]))
  else Raise ValueError.

Definition im_fit (i : Image) (w h : Z) : Image :=
  mkImage w h (im_ops i ++ [Fit w h]).

Definition int_size (w h : value) : result (Z * Z) :=
  match w, h with
  | VInt w, VInt h => Ok (w, h)
  | _, _ => Raise TypeError
  end.

(** ** The world outside the program

    What the operating system and the libraries answer: whether a font
    file loads, whether a path exists, what an image file holds, the
    bounding box of a text, the zones the zone database knows, the
    readings of the clocks and of the load meter. Two answers of the
    interpreter are taken from here too, since floats are held as the
    rationals they denote: [float_product n x] is [int(n * x)] for a
    float [x], the product rounded as the machine rounds it, and
    [int_of_str s] is [int(s)] for a string. *)
Inductive File : Type :=
| Missing
| Present (st_size : Z) (st_mtime : Q) (readlines : result (list string)).

Record Env : Type := mkEnv {
  files : string -> File;
  truetype_error : value -> value -> option exn;
  path_exists : value -> result bool;
  image_open : value -> result Image;
  textbbox : list value -> Text -> option Font -> result (Z * Z * Z * Z);
  zoneinfo_error : string -> option exn;
  platform : string;
  time_time : Q;
  time_time_after : Q;
  cpu_percent : Q;
  float_product : Z -> Q -> result Z;
  int_of_str : string -> result Z
}.

Definition truetype (env : Env) (path size : value) : result Font :=
  match truetype_error env path size with
  | Some e => Raise e
  | None => Ok (TrueType path size)
  end.

(** Access to the world by [process_frame], as a caller could observe it. *)
Inductive access : Type :=
| ReadClock
| ReadTime
| ReadCpu
| ReadZoneInfo.

(** ** Application configuration ([AppConfig]) *)

Record Descriptor : Type := mkDescriptor {
  d_type : string;
  d_id : option string;
  d_enabled : bool;
  d_config : gmap string value
}.

Record AppConfig : Type := mkAppConfig {
  width : value;
  height : value;
  assets : value;
  plugin_instances : list Descriptor;
  plugins : value
}.

(** ** Statements with state, output and exceptions

    A method body runs on [self] and the output so far; it ends with a
    value or an exception, and in both cases the assignments made before
    stay. *)
Definition Py (S A : Type) : Type := S -> list event -> result A * S * list event.

Definition ret {S A} (a : A) : Py S A := fun s out => (Ok a, s, out).

Definition bind {S A B} (c : Py S A) (k : A -> Py S B) : Py S B :=
  fun s out =>
    match c s out with
    | (Ok a, s', out') => k a s' out'
    | (Raise e, s', out') => (Raise e, s', out')
    end.

Definition raise {S A} (e : exn) : Py S A := fun s out => (Raise e, s, out).

Definition lift {S A} (r : result A) : Py S A := fun s out => (r, s, out).

Definition print {S} (e : event) : Py S unit := fun s out => (Ok tt, s, out ++ [e]).

Definition gets {S A} (f : S -> A) : Py S A := fun s out => (Ok (f s), s, out).

Definition modify {S} (f : S -> S) : Py S unit := fun s out => (Ok tt, f s, out).

(** [try: c except <handles> as e: h e]. *)
Definition try_except {S A} (c : Py S A) (handles : exn -> bool) (h : exn -> Py S A)
  : Py S A :=
  fun s out =>
    match c s out with
    | (Raise e, s', out') => if handles e then h e s' out' else (Raise e, s', out')
    | r => r
    end.

Definition when {S} (b : bool) (c : Py S unit) : Py S unit :=
  if b then c else ret tt.

Declare Scope py_scope.
Delimit Scope py_scope with py.
Notation "x <- c ;; k" := (bind c (fun x => k))
  (at level 100, c at next level, right associativity) : py_scope.
Notation "c ;;; k" := (bind c (fun _ => k))
  (at level 100, right associativity) : py_scope.
Local Open Scope py_scope.

(** A bare [except:] catches everything. *)
Definition any_exn (_ : exn) : bool := true.

(** [int(x)] of a float truncates towards zero. *)
Definition Qtrunc (q : Q) : Z :=
  if Qle_bool 0 q then Qfloor q else Qceiling q.

(** [needle in v] for a string needle: substring of a string, member of a
    list, key of a dict. *)
Definition py_in (needle : string) (v : value) : result bool :=
  match v with
  | VStr s => Ok (contains needle s)
  | VList l => Ok (existsb (py_eq (VStr needle)) l)
  | VDict d => Ok (existsb (fun kv => String.eqb (fst kv) needle) d)
  | VNone | VBool _ | VInt _ | VFloat _ => Raise TypeError
  end.

(** ** Image objects

    [process_frame] receives references: the frame, and the drawing
    context bound to the image it was created on. [images] is the object
    store; [accesses] records what a call asked of the outside world. *)
Record World : Type := mkWorld {
  images : list Image;
  accesses : list access
}.

Definition touch {S} (a : access) : Py (S * World) unit :=
  modify (fun sw =>
    (fst sw, {| images := images (snd sw); accesses := accesses (snd sw) ++ [a] |})).

(** A drawing call on the image at [ref]. *)
Definition draw_on {S} (ref : nat) (op : Op) : Py (S * World) unit :=
  modify (fun sw =>
    (fst sw, {| images := alter (im_draw op) ref (images (snd sw));
                accesses := accesses (snd sw) |})).

(** A new image object; its reference is returned. *)
Definition alloc {S} (i : Image) : Py (S * World) nat :=
  fun sw out =>
    (Ok (length (images (snd sw))),
     (fst sw, {| images := images (snd sw) ++ [i]; accesses := accesses (snd sw) |}),
     out).

Definition deref {S} (ref : nat) : Py (S * World) Image :=
  fun sw out =>
    match images (snd sw) !! ref with
    | Some i => (Ok i, sw, out)
    | None => (Raise OtherError, sw, out)
    end.

Definition self_ {S A} (f : S -> A) : Py (S * World) A := gets (fun sw => f (fst sw)).

Definition set_self {S} (f : S -> S) : Py (S * World) unit :=
  modify (fun sw => (f (fst sw), snd sw)).

(** The drawing context is [None] when the manager calls the crop step. *)
Definition the_draw {S} (draw : option nat) : Py S nat :=
  match draw with
  | Some r => ret r
  | None => raise AttributeError
  end.

(** ** Font lookup shared by the plugins

    Every [_load_font] first tries the [font_path] option and then the
    fonts named in the assets; the classes differ in which exceptions of
    the font loader they swallow. *)
Definition try_truetype (env : Env) (handles : exn -> bool) (path size : value)
  : result (option Font) :=
  match truetype env path size with
  | Ok f => Ok (Some f)
  | Raise e => if handles e then Ok None else Raise e
  end.

(** [for f in fonts_list: if f.get('name') == font_name: try: return
    truetype(f.get('path'), size) except ...: pass]. *)
Fixpoint search_assets (env : Env) (handles : exn -> bool) (font_name size : value)
    (fonts : list value) : result (option Font) :=
  match fonts with
  | [] => Ok None
  | f :: rest =>
      match value_get f "name" VNone with
      | Raise e => Raise e
      | Ok nm =>
          if py_eq nm font_name then
            match value_get f "path" VNone with
            | Raise e => if handles e then search_assets env handles font_name size rest
                         else Raise e
            | Ok path =>
                match try_truetype env handles path size with
                | Ok (Some font) => Ok (Some font)
                | Ok None => search_assets env handles font_name size rest
                | Raise e => Raise e
                end
            end
          else search_assets env handles font_name size rest
      end
  end.

(** Steps 1 and 2 of [_load_font]: [Ok (Some font)] is an early [return]. *)
Definition font_from_config (env : Env) (h1 h2 : exn -> bool) (cfg : gmap string value)
    (size : value) (app_config : AppConfig) : result (option Font) :=
  match
    (if has_key cfg "font_path"
     then try_truetype env h1 (get cfg "font_path" VNone) size
     else Ok None)
  with
  | Raise e => Raise e
  | Ok (Some font) => Ok (Some font)
  | Ok None =>
      if has_key cfg "font" then
        match value_get (assets app_config) "fonts" (VList []) with
        | Raise e => Raise e
        | Ok fonts_list =>
            match iter fonts_list with
            | Raise e => Raise e
            | Ok fonts => search_assets env h2 (get cfg "font" VNone) size fonts
            end
        end
      else Ok None
  end.

Definition SFNS : value := VStr "/System/Library/Fonts/SFNS.ttf".
Definition Menlo : value := VStr "/System/Library/Fonts/Menlo.ttc".

(** ** [plugins/clock.py] *)
Module ClockPlugin.

Record t : Type := mk {
  base : Plugin;
  format_str : value;
  font : option Font;
  position : list value;
  font_size : value;
  show : value;
  timezone : value
}.

Definition set_format_str v s := mk (base s) v (font s) (position s) (font_size s) (show s) (timezone s).
Definition set_font v s := mk (base s) (format_str s) v (position s) (font_size s) (show s) (timezone s).
Definition set_position v s := mk (base s) (format_str s) (font s) v (font_size s) (show s) (timezone s).
Definition set_font_size v s := mk (base s) (format_str s) (font s) (position s) v (show s) (timezone s).
Definition set_show v s := mk (base s) (format_str s) (font s) (position s) (font_size s) v (timezone s).
Definition set_timezone v s := mk (base s) (format_str s) (font s) (position s) (font_size s) (show s) v.
Definition set_base v s := mk v (format_str s) (font s) (position s) (font_size s) (show s) (timezone s).

(** [__init__] *)
Definition init (cfg : gmap string value) : t :=
  {| base := Plugin_init "clock" cfg;
     format_str := VStr "%H:%M:%S";
     font := None;
     position := [VInt 1080; VInt 20];
     font_size := VInt 35;
     show := VBool true;
     timezone := VNone |}.

(** [_load_font]: every exception of the font loader is swallowed. *)
Definition _load_font (env : Env) (app_config : AppConfig) (self : t) : result Font :=
  match font_from_config env any_exn any_exn (config (base self)) (font_size self) app_config with
  | Raise e => Raise e
  | Ok (Some font) => Ok font
  | Ok None =>
      match truetype env SFNS (font_size self) with
      | Ok font => Ok font
      | Raise _ =>
          match truetype env Menlo (font_size self) with
          | Ok font => Ok font
          | Raise _ => Ok DefaultFont
          end
      end
  end.

(** [initialize]. [AppConfig] declares none of the legacy attributes
    ([clock_position], [clock_font_size], [show_clock]), so the
    [hasattr] branches are never taken. *)
Definition initialize (env : Env) (app_config : AppConfig) : Py t bool :=
  cfg <- gets (fun s => config (base s)) ;;
  old_format <- gets format_str ;;
  modify (set_format_str (get cfg "format" old_format)) ;;;
  modify (set_timezone (get cfg "timezone" VNone)) ;;;
  (if has_key cfg "position"
   then p <- lift (tuple (get cfg "position" VNone)) ;; modify (set_position p)
   else ret tt) ;;;
  when (has_key cfg "font_size") (modify (set_font_size (get cfg "font_size" VNone))) ;;;
  (if has_key cfg "show" then modify (set_show (get cfg "show" VNone))
   else if has_key cfg "show_by_default" then modify (set_show (get cfg "show_by_default" VNone))
   else modify (set_show (VBool true))) ;;;
  self <- gets id ;;
  f <- lift (_load_font env app_config self) ;;
  modify (set_font (Some f)) ;;;
  ret true.

(** [_get_current_time]. Each [datetime.now] reads the clock; the result
    says which zone, if any, the reading carries. *)
Definition _get_current_time (env : Env) : Py (t * World) DateTime :=
  fmt <- self_ format_str ;;
  has_z <- lift (py_in "%z" fmt) ;;
  needs_tz <- (if has_z then ret true else lift (py_in "%Z" fmt)) ;;
  tz <- self_ timezone ;;
  match tz with
  | VNone =>
      if (needs_tz : bool) then
        touch ReadClock ;;; touch ReadClock ;;; ret AwareLocal
      else
        touch ReadClock ;;; ret NaiveLocal
  | VStr name =>
      if String.eqb (lower name) "local" then
        touch ReadClock ;;; touch ReadClock ;;; ret AwareLocal
      else if negb needs_tz then
        touch ReadClock ;;; ret NaiveLocal
      else if String.eqb (upper name) "UTC" then
        touch ReadClock ;;; ret AwareUTC
      else
        touch ReadZoneInfo ;;;
        match zoneinfo_error env name with
        | None => touch ReadClock ;;; ret (AwareZone name)
        | Some KeyError =>
            print (WarnTimezoneUnknown name) ;;;
            touch ReadClock ;;; ret NaiveLocal
        | Some e => raise e
        end
  | _ => raise AttributeError
  end.

(** [process_frame] *)
Definition process_frame (env : Env) (frame : nat) (draw : option nat)
  : Py (t * World) nat :=
  sh <- self_ show ;;
  if negb (truthy sh) then ret frame
  else
    now <- _get_current_time env ;;
    fmt <- self_ format_str ;;
    hora_str <- (match fmt with
                 | VStr f => ret (Strftime now f)
                 | _ => raise TypeError
                 end) ;;
    d <- the_draw draw ;;
    pos <- self_ position ;;
    fnt <- self_ font ;;
    bbox <- lift (textbbox env pos hora_str fnt) ;;
    let '(b0, b1, b2, b3) := bbox in
    let padding := 5 in
    draw_on d (Rectangle [VInt (b0 - padding); VInt (b1 - padding);
                          VInt (b2 + padding); VInt (b3 + padding)]
                         [0; 0; 0; 100]) ;;;
    draw_on d (DrawText pos hora_str fnt [255; 255; 255; 255]) ;;;
    ret frame.

End ClockPlugin.

(** ** [plugins/cpu.py] *)
Module CPUPlugin.

Record t : Type := mk {
  base : Plugin;
  cpu_usage : string;
  last_check : Q;
  update_interval : value;
  show : value;
  font : option Font;
  position : list value;
  font_size : value;
  show_system : option value
}.

Definition set_cpu_usage v s := mk (base s) v (last_check s) (update_interval s) (show s) (font s) (position s) (font_size s) (show_system s).
Definition set_last_check v s := mk (base s) (cpu_usage s) v (update_interval s) (show s) (font s) (position s) (font_size s) (show_system s).
Definition set_update_interval v s := mk (base s) (cpu_usage s) (last_check s) v (show s) (font s) (position s) (font_size s) (show_system s).
Definition set_show v s := mk (base s) (cpu_usage s) (last_check s) (update_interval s) v (font s) (position s) (font_size s) (show_system s).
Definition set_font v s := mk (base s) (cpu_usage s) (last_check s) (update_interval s) (show s) v (position s) (font_size s) (show_system s).
Definition set_position v s := mk (base s) (cpu_usage s) (last_check s) (update_interval s) (show s) (font s) v (font_size s) (show_system s).
Definition set_font_size v s := mk (base s) (cpu_usage s) (last_check s) (update_interval s) (show s) (font s) (position s) v (show_system s).
Definition set_show_system v s := mk (base s) (cpu_usage s) (last_check s) (update_interval s) (show s) (font s) (position s) (font_size s) v.
Definition set_base v s := mk v (cpu_usage s) (last_check s) (update_interval s) (show s) (font s) (position s) (font_size s) (show_system s).

Definition init (cfg : gmap string value) : t :=
  {| base := Plugin_init "cpu" cfg;
     cpu_usage := "CPU: 0%";
     last_check := 0;
     update_interval := VFloat 2;
     show := VBool true;
     font := None;
     position := [VInt 40; VInt 35];
     font_size := VInt 18;
     show_system := None |}.

Definition _load_font (env : Env) (app_config : AppConfig) (self : t) : result Font :=
  match font_from_config env any_exn any_exn (config (base self)) (font_size self) app_config with
  | Raise e => Raise e
  | Ok (Some font) => Ok font
  | Ok None =>
      match truetype env Menlo (font_size self) with
      | Ok font => Ok font
      | Raise _ =>
          match truetype env SFNS (font_size self) with
          | Ok font => Ok font
          | Raise _ => Ok DefaultFont
          end
      end
  end.

Definition initialize (env : Env) (app_config : AppConfig) : Py t bool :=
  cfg <- gets (fun s => config (base s)) ;;
  modify (set_update_interval (get cfg "update_interval" (VFloat 2))) ;;;
  (if has_key cfg "position"
   then p <- lift (tuple (get cfg "position" VNone)) ;; modify (set_position p)
   else ret tt) ;;;
  when (has_key cfg "font_size") (modify (set_font_size (get cfg "font_size" VNone))) ;;;
  (if has_key cfg "show" then modify (set_show (get cfg "show" VNone))
   else if has_key cfg "show_by_default" then modify (set_show (get cfg "show_by_default" VNone))
   else modify (set_show (VBool true))) ;;;
  modify (set_show_system (Some (get cfg "show_system" (VBool true)))) ;;;
  self <- gets id ;;
  f <- lift (_load_font env app_config self) ;;
  modify (set_font (Some f)) ;;;
  ret true.

(** [process_frame]: the load is sampled when more than
    [update_interval] passed since [last_check]. *)
Definition process_frame (env : Env) (frame : nat) (draw : option nat)
  : Py (t * World) nat :=
  sh <- self_ show ;;
  if negb (truthy sh) then ret frame
  else
    touch ReadTime ;;;
    last <- self_ last_check ;;
    interval <- self_ update_interval ;;
    due <- lift (py_lt interval (VFloat (time_time env - last))) ;;
    (if (due : bool) then
       touch ReadCpu ;;;
       set_self (set_cpu_usage ("CPU: " +:+ pretty (Qtrunc (cpu_percent env)) +:+ "%")) ;;;
       touch ReadTime ;;;
       set_self (set_last_check (time_time_after env))
     else ret tt) ;;;
    d <- the_draw draw ;;
    pos <- self_ position ;;
    usage <- self_ cpu_usage ;;
    fnt <- self_ font ;;
    draw_on d (DrawText pos (Literal usage) fnt [0; 255; 0; 200]) ;;;
    ret frame.

End CPUPlugin.

(** ** [plugins/crop.py] *)
Module CropPlugin.

Record t : Type := mk {
  base : Plugin;
  target_size : value * value
}.

Definition set_target_size v s := mk (base s) v.
Definition set_base v s := mk v (target_size s).

Definition init (cfg : gmap string value) : t :=
  {| base := Plugin_init "crop" cfg;
     target_size := (VInt 1280, VInt 720) |}.

Definition initialize (env : Env) (app_config : AppConfig) : Py t bool :=
  modify (set_target_size (width app_config, height app_config)) ;;;
  ret true.

(** [process_frame]: no test of [enabled]; the fitted image is a new
    object. *)
Definition process_frame (env : Env) (frame : nat) (draw : option nat)
  : Py (t * World) nat :=
  size <- self_ target_size ;;
  wh <- lift (int_size (fst size) (snd size)) ;;
  img <- deref frame ;;
  alloc (im_fit img (fst wh) (snd wh)).

End CropPlugin.

(** ** [plugins/overlay.py] *)
Module OverlayPlugin.

Record t : Type := mk {
  base : Plugin;
  overlay_image : option Image;
  file : value;
  opacity : value;
  position : value;
  fit : value;
  resize : value
}.

Definition set_base v s := mk v (overlay_image s) (file s) (opacity s) (position s) (fit s) (resize s).
Definition set_overlay_image v s := mk (base s) v (file s) (opacity s) (position s) (fit s) (resize s).
Definition set_file v s := mk (base s) (overlay_image s) v (opacity s) (position s) (fit s) (resize s).
Definition set_opacity v s := mk (base s) (overlay_image s) (file s) v (position s) (fit s) (resize s).
Definition set_position v s := mk (base s) (overlay_image s) (file s) (opacity s) v (fit s) (resize s).
Definition set_fit v s := mk (base s) (overlay_image s) (file s) (opacity s) (position s) v (resize s).
Definition set_resize v s := mk (base s) (overlay_image s) (file s) (opacity s) (position s) (fit s) v.

(** [__init__]: [self.enabled = True] replaces what the base class
    took from [show_by_default]. *)
Definition init (cfg : gmap string value) : t :=
  {| base := set_enabled (VBool true) (Plugin_init "overlay" cfg);
     overlay_image := None;
     file := VStr "moldura.png";
     opacity := VFloat 1;
     position := VList [VInt 0; VInt 0];
     fit := VBool false;
     resize := VFloat 1 |}.

(** [n * s] for a string: [s] repeated [n] times, nothing for a count
    that is not positive. *)
Fixpoint repeated (s : string) (n : nat) : string :=
  match n with
  | O => EmptyString
  | S n' => s +:+ repeated s n'
  end.

(** [int(image.width * self.resize)]. The product is exact for an
    integer factor ([bool] included) and the machine's for a float; a
    string is repeated and then read as a number; a list is repeated,
    and [int] of a list is a [TypeError], as is the product with [None]
    or a dict. *)
Definition scaled (env : Env) (dim : Z) (factor : value) : result Z :=
  match factor with
  | VBool b => Ok (dim * (if b then 1 else 0))
  | VInt n => Ok (dim * n)
  | VFloat q => float_product env dim q
  | VStr s => int_of_str env (repeated s (Z.to_nat dim))
  | VNone | VList _ | VDict _ => Raise TypeError
  end.

(** [_apply_resize] *)
Definition _apply_resize (env : Env) (image : Image) (app_config : AppConfig) (self : t)
  : result Image :=
  if truthy (fit self) then
    let w := width app_config in
    let h := height app_config in
    if negb (py_eq (VList [VInt (im_w image); VInt (im_h image)]) (VList [w; h])) then
      match int_size w h with
      | Ok (w, h) => im_resize image w h
      | Raise e => Raise e
      end
    else Ok image
  else if negb (py_eq (resize self) (VFloat 1)) then
    match scaled env (im_w image) (resize self) with
    | Raise e => Raise e
    | Ok new_width =>
        match scaled env (im_h image) (resize self) with
        | Raise e => Raise e
        | Ok new_height =>
            if negb ((new_width =? im_w image)%Z && (new_height =? im_h image)%Z)
            then im_resize image new_width new_height
            else Ok image
        end
    end
  else Ok image.

(** [initialize]. [AppConfig] has no [overlay_enabled] attribute; a
    position given as a list becomes a tuple, which [VList] stands for
    as well. *)
Definition initialize (env : Env) (app_config : AppConfig) : Py t bool :=
  cfg <- gets (fun s => config (base s)) ;;
  modify (set_file (get cfg "file" (VStr "moldura.png"))) ;;;
  (if has_key cfg "enabled"
   then modify (fun s => set_base (set_enabled (get cfg "enabled" VNone) (base s)) s)
   else if has_key cfg "show_by_default"
   then modify (fun s => set_base (set_enabled (get cfg "show_by_default" VNone) (base s)) s)
   else modify (fun s => set_base (set_enabled (VBool true) (base s)) s)) ;;;
  modify (set_opacity (get cfg "opacity" (VFloat 1))) ;;;
  modify (set_position (get cfg "position" (VList [VInt 0; VInt 0]))) ;;;
  modify (set_fit (get cfg "fit" (VBool false))) ;;;
  modify (set_resize (get cfg "resize" (VFloat 1))) ;;;
  f <- gets file ;;
  ex <- lift (path_exists env f) ;;
  (if (ex : bool) then
     img <- lift (image_open env f) ;;
     self <- gets id ;;
     img' <- lift (_apply_resize env img app_config self) ;;
     modify (set_overlay_image (Some img'))
   else print (WarnOverlayFileNotFound f)) ;;;
  ret true.

(** [process_frame]: pastes on the frame itself, not through the
    drawing context. *)
Definition process_frame (env : Env) (frame : nat) (draw : option nat)
  : Py (t * World) nat :=
  en <- self_ (fun s => enabled (base s)) ;;
  img <- self_ overlay_image ;;
  if (negb (truthy en) || negb (bool_decide (is_Some img)))%bool then ret frame
  else
    match img with
    | None => ret frame
    | Some overlay =>
        op <- self_ opacity ;;
        pos <- self_ position ;;
        faded <- lift (py_lt op (VFloat 1)) ;;
        (if (faded : bool)
         then draw_on frame (Paste overlay pos (Some op))
         else draw_on frame (Paste overlay pos None)) ;;;
        ret frame
    end.

End OverlayPlugin.

(** ** [plugins/tlp.py] *)
Module TLPPlugin.

Definition TLP_RED : string := "RED".
Definition TLP_AMBER : string := "AMBER".
Definition TLP_GREEN : string := "GREEN".
Definition TLP_CLEAR : string := "CLEAR".

(** [TLP_COLORS.get(level, TLP_COLORS[TLP_CLEAR])]: text colour and
    background colour. *)
Definition TLP_COLORS (level : string) : list Z * list Z :=
  if String.eqb level TLP_RED then ([255; 43; 43], [0; 0; 0])
  else if String.eqb level TLP_AMBER then ([255; 192; 0], [0; 0; 0])
  else if String.eqb level TLP_GREEN then ([51; 255; 0], [0; 0; 0])
  else ([255; 255; 255], [0; 0; 0]).

Definition TLP_SHORTCUTS : value :=
  VDict [("red", VStr "r"); ("amber", VStr "a"); ("green", VStr "g"); ("clear", VStr "l")].

Record t : Type := mk {
  base : Plugin;
  tlp_level : string;
  font : option Font;
  position : list value;
  font_size : value;
  show : value;
  padding : value
}.

Definition set_base v s := mk v (tlp_level s) (font s) (position s) (font_size s) (show s) (padding s).
Definition set_tlp_level_field v s := mk (base s) v (font s) (position s) (font_size s) (show s) (padding s).
Definition set_font v s := mk (base s) (tlp_level s) v (position s) (font_size s) (show s) (padding s).
Definition set_position v s := mk (base s) (tlp_level s) (font s) v (font_size s) (show s) (padding s).
Definition set_font_size v s := mk (base s) (tlp_level s) (font s) (position s) v (show s) (padding s).
Definition set_show v s := mk (base s) (tlp_level s) (font s) (position s) (font_size s) v (padding s).
Definition set_padding v s := mk (base s) (tlp_level s) (font s) (position s) (font_size s) (show s) v.

Definition init (cfg : gmap string value) : t :=
  {| base := Plugin_init "tlp" cfg;
     tlp_level := TLP_CLEAR;
     font := None;
     position := [VInt 20; VInt 20];
     font_size := VInt 18;
     show := VBool true;
     padding := VInt 8 |}.

Definition valid_levels : list string := [TLP_RED; TLP_AMBER; TLP_GREEN; TLP_CLEAR].

(** [_validate_tlp_level] *)
Definition _validate_tlp_level {S} (level : value) : Py S string :=
  let level_upper := match level with
                     | VStr s => upper s
                     | _ => TLP_CLEAR
                     end in
  if bool_decide (level_upper ∈ valid_levels) then ret level_upper
  else
    print (WarnTlpLevel level) ;;;
    ret TLP_CLEAR.

(** [_load_font]: the font loader's [FileNotFoundError] is swallowed
    for [font_path], that and [OSError] for the assets; the fallback
    chain lets any other exception through. *)
Definition _load_font (env : Env) (app_config : AppConfig) (self : t) : result Font :=
  match font_from_config env is_FileNotFoundError is_OSError
          (config (base self)) (font_size self) app_config with
  | Raise e => Raise e
  | Ok (Some font) => Ok font
  | Ok None =>
      match truetype env Menlo (font_size self) with
      | Ok font => Ok font
      | Raise FileNotFoundError =>
          match truetype env SFNS (font_size self) with
          | Ok font => Ok font
          | Raise e => if is_OSError e then Ok DefaultFont else Raise e
          end
      | Raise OSError => Ok DefaultFont
      | Raise e => Raise e
      end
  end.

(** [initialize]. [AppConfig] has no [show_tlp] attribute. *)
Definition initialize (env : Env) (app_config : AppConfig) : Py t bool :=
  cfg <- gets (fun s => config (base s)) ;;
  level <- _validate_tlp_level (get cfg "default_tlp" (VStr TLP_CLEAR)) ;;
  modify (set_tlp_level_field level) ;;;
  (if has_key cfg "position"
   then p <- lift (tuple (get cfg "position" VNone)) ;; modify (set_position p)
   else ret tt) ;;;
  when (has_key cfg "font_size") (modify (set_font_size (get cfg "font_size" VNone))) ;;;
  modify (set_padding (get cfg "padding" (VInt 8))) ;;;
  (if has_key cfg "show" then modify (set_show (get cfg "show" VNone))
   else if has_key cfg "show_by_default" then modify (set_show (get cfg "show_by_default" VNone))
   else modify (set_show (VBool true))) ;;;
  self <- gets id ;;
  f <- lift (_load_font env app_config self) ;;
  modify (set_font (Some f)) ;;;
  sc <- gets (fun s => shortcuts (base s)) ;;
  when (negb (truthy sc))
       (modify (fun s => set_base (set_shortcuts TLP_SHORTCUTS (base s)) s)) ;;;
  ret true.

(** [process_frame] *)
Definition process_frame (env : Env) (frame : nat) (draw : option nat)
  : Py (t * World) nat :=
  sh <- self_ show ;;
  if negb (truthy sh) then ret frame
  else
    level <- self_ tlp_level ;;
    let tlp_text := Literal ("TLP:" +:+ level) in
    let '(text_color, bg_color) := TLP_COLORS level in
    d <- the_draw draw ;;
    pos <- self_ position ;;
    fnt <- self_ font ;;
    pad <- self_ padding ;;
    bbox <- lift (textbbox env pos tlp_text fnt) ;;
    let '(b0, b1, b2, b3) := bbox in
    let text_width := b2 - b0 in
    let text_height := b3 - b1 in
    p0 <- lift (item pos 0) ;;
    x1 <- lift (py_sub p0 pad) ;;
    p1 <- lift (item pos 1) ;;
    y1 <- lift (py_sub p1 pad) ;;
    x2' <- lift (py_add p0 (VInt text_width)) ;;
    x2 <- lift (py_add x2' pad) ;;
    y2' <- lift (py_add p1 (VInt text_height)) ;;
    y2 <- lift (py_add y2' pad) ;;
    draw_on d (Rectangle [x1; y1; x2; y2] bg_color) ;;;
    draw_on d (DrawText pos tlp_text fnt text_color) ;;;
    ret frame.

(** [set_tlp_level]: [True] when the level changed. *)
Definition set_tlp_level (level : value) : Py t bool :=
  new_level <- _validate_tlp_level level ;;
  old <- gets tlp_level ;;
  if negb (String.eqb new_level old) then
    modify (set_tlp_level_field new_level) ;;; ret true
  else ret false.

Definition get_tlp_level (self : t) : string := tlp_level self.

End TLPPlugin.

(** ** [plugins/tail.py]: reading the watched file *)
Module TailPlugin.

(** What [_content] holds: a line of the file, or one of the two
    placeholders. *)
Inductive line : Type :=
| FileLine (s : string)
| FileNotFound (path : string)
| ReadError (e : exn).

Record t : Type := mk {
  file_path : string;
  lines : value;
  update_interval : value;
  following : bool;
  _last_file_size : Z;
  _last_mtime : Q;
  _content : list line;
  _last_update : Q
}.

Definition set_last_file_size v s := mk (file_path s) (lines s) (update_interval s) (following s) v (_last_mtime s) (_content s) (_last_update s).
Definition set_last_mtime v s := mk (file_path s) (lines s) (update_interval s) (following s) (_last_file_size s) v (_content s) (_last_update s).
Definition set_content v s := mk (file_path s) (lines s) (update_interval s) (following s) (_last_file_size s) (_last_mtime s) v (_last_update s).
Definition set_last_update v s := mk (file_path s) (lines s) (update_interval s) (following s) (_last_file_size s) (_last_mtime s) (_content s) v.

(** Python slices: a negative index counts from the end, and indices
    are clipped to the list. *)
Definition slice_index (len : nat) (i : Z) : nat :=
  if (i <? 0)%Z then Z.to_nat (Z.max 0 (Z.of_nat len + i))
  else Nat.min (Z.to_nat i) len.

Definition slice_from {A} (l : list A) (i : Z) : list A :=
  drop (slice_index (length l) i) l.

Definition slice_to {A} (l : list A) (i : Z) : list A :=
  take (slice_index (length l) i) l.

Definition is_newline (a : ascii) : bool :=
  (Ascii.eqb a (ascii_of_nat 10) || Ascii.eqb a (ascii_of_nat 13))%bool.

(** [line.rstrip('\n\r')] *)
Fixpoint rstrip (s : string) : string :=
  match s with
  | EmptyString => EmptyString
  | String a s' =>
      match rstrip s' with
      | EmptyString => if is_newline a then EmptyString else String a EmptyString
      | r => String a r
      end
  end.

(** The lines kept: [all_lines[-lines:]] or [all_lines[:lines]] when
    there are more than [lines] of them. Comparing with or slicing by
    something that is not an integer raises. *)
Definition select (following : bool) (n : value) (all_lines : list string)
  : result (list string) :=
  match num_of n with
  | Some (NInt k) =>
      if (k <? Z.of_nat (length all_lines))%Z then
        Ok (if following then slice_from all_lines (- k) else slice_to all_lines k)
      else Ok all_lines
  | Some (NFloat q) =>
      if negb (Qle_bool (inject_Z (Z.of_nat (length all_lines))) q)
      then Raise TypeError
      else Ok all_lines
  | None => Raise TypeError
  end.

(** [_read_file]. [os.path.exists] and [os.stat] see the same file;
    [except Exception as e] keeps the exception for the placeholder. *)
Definition _read_file (env : Env) : Py t unit :=
  path <- gets file_path ;;
  match files env path with
  | Missing => modify (set_content [FileNotFound path])
  | Present file_size mtime contents =>
      try_except
        (last_size <- gets _last_file_size ;;
         last_mtime <- gets _last_mtime ;;
         if ((file_size =? last_size)%Z && Qeq_bool mtime last_mtime)%bool then ret tt
         else
           modify (set_last_file_size file_size) ;;;
           modify (set_last_mtime mtime) ;;;
           all_lines <- lift contents ;;
           fol <- gets following ;;
           n <- gets lines ;;
           kept <- lift (select fol n all_lines) ;;
           modify (set_content (map FileLine kept)) ;;;
           modify (set_content (map (fun l => FileLine (rstrip l)) kept)))
        any_exn
        (fun e => modify (set_content [ReadError e]))
  end.

(** [a >= b] between numbers; anything else is a [TypeError]. *)
Definition py_ge (a b : value) : result bool :=
  match num_of a, num_of b with
  | Some x, Some y => Ok (Qle_bool (Q_of_num y) (Q_of_num x))
  | _, _ => Raise TypeError
  end.

(** [update]: [time.time()] is [time_time env]. [update_interval] is
    what the configuration gave, a number or not; the comparison is made
    outside any [try]. *)
Definition update (env : Env) : Py t unit :=
  let current_time := time_time env in
  last <- gets _last_update ;;
  interval <- gets update_interval ;;
  due <- lift (py_ge (VFloat (current_time - last)) interval) ;;
  if (due : bool) then
    _read_file env ;;;
    modify (set_last_update current_time)
  else ret tt.

End TailPlugin.

(** ** [overlayx.py]: the plugin manager *)

(** An instance of one of the classes the manager can build. *)
Inductive plugin : Type :=
| Clock (p : ClockPlugin.t)
| Cpu (p : CPUPlugin.t)
| Overlay (p : OverlayPlugin.t)
| Crop (p : CropPlugin.t)
| Tlp (p : TLPPlugin.t).

Definition plugin_base (p : plugin) : Plugin :=
  match p with
  | Clock c => ClockPlugin.base c
  | Cpu c => CPUPlugin.base c
  | Overlay c => OverlayPlugin.base c
  | Crop c => CropPlugin.base c
  | Tlp c => TLPPlugin.base c
  end.

Definition plugin_name (p : plugin) : string := name (plugin_base p).
Definition plugin_enabled (p : plugin) : value := enabled (plugin_base p).

(** [plugin.enabled = v] *)
Definition plugin_set_enabled (v : value) (p : plugin) : plugin :=
  match p with
  | Clock c => Clock (ClockPlugin.set_base (set_enabled v (ClockPlugin.base c)) c)
  | Cpu c => Cpu (CPUPlugin.set_base (set_enabled v (CPUPlugin.base c)) c)
  | Overlay c => Overlay (OverlayPlugin.set_base (set_enabled v (OverlayPlugin.base c)) c)
  | Crop c => Crop (CropPlugin.set_base (set_enabled v (CropPlugin.base c)) c)
  | Tlp c => Tlp (TLPPlugin.set_base (set_enabled v (TLPPlugin.base c)) c)
  end.

(** A method of a class run on an instance held as a [plugin]. *)
Definition on_instance {S A} (wrap : S -> plugin) (c : Py S A) (s : S) : Py plugin A :=
  fun _ out =>
    match c s out with
    | (r, s', out') => (r, wrap s', out')
    end.

(** [plugin.initialize(app_config)] *)
Definition plugin_initialize (env : Env) (app_config : AppConfig) : Py plugin bool :=
  fun p =>
    match p with
    | Clock c => on_instance Clock (ClockPlugin.initialize env app_config) c p
    | Cpu c => on_instance Cpu (CPUPlugin.initialize env app_config) c p
    | Overlay c => on_instance Overlay (OverlayPlugin.initialize env app_config) c p
    | Crop c => on_instance Crop (CropPlugin.initialize env app_config) c p
    | Tlp c => on_instance Tlp (TLPPlugin.initialize env app_config) c p
    end.

Definition on_instance_world {S A} (wrap : S -> plugin) (c : Py (S * World) A) (s : S)
  : Py (plugin * World) A :=
  fun pw out =>
    match c (s, snd pw) out with
    | (r, (s', w'), out') => (r, (wrap s', w'), out')
    end.

(** [plugin.process_frame(frame, draw)] *)
Definition plugin_process_frame (env : Env) (frame : nat) (draw : option nat)
  : Py (plugin * World) nat :=
  fun pw =>
    match fst pw with
    | Clock c => on_instance_world Clock (ClockPlugin.process_frame env frame draw) c pw
    | Cpu c => on_instance_world Cpu (CPUPlugin.process_frame env frame draw) c pw
    | Overlay c => on_instance_world Overlay (OverlayPlugin.process_frame env frame draw) c pw
    | Crop c => on_instance_world Crop (CropPlugin.process_frame env frame draw) c pw
    | Tlp c => on_instance_world Tlp (TLPPlugin.process_frame env frame draw) c pw
    end.

(** [PLUGIN_CLASSES]: type name to class. *)
Definition PLUGIN_CLASSES : list (string * (gmap string value -> plugin)) :=
  [ ("clock", fun cfg => Clock (ClockPlugin.init cfg));
    ("cpu", fun cfg => Cpu (CPUPlugin.init cfg));
    ("overlay", fun cfg => Overlay (OverlayPlugin.init cfg));
    ("crop", fun cfg => Crop (CropPlugin.init cfg));
    ("tlp", fun cfg => Tlp (TLPPlugin.init cfg)) ].

Fixpoint lookup_class (classes : list (string * (gmap string value -> plugin)))
    (ty : string) : option (gmap string value -> plugin) :=
  match classes with
  | [] => None
  | (k, c) :: rest => if String.eqb k ty then Some c else lookup_class rest ty
  end.

(** [__all__] of the [plugins] package. *)
Definition plugins_all : list string :=
  ["Plugin"; "ClockPlugin"; "CPUPlugin"; "OverlayPlugin"; "CropPlugin"; "TLPPlugin";
   "TailPlugin"].

(** The manager: [plugins] is the dict in insertion order. The filter
    list and index, which only the keyboard handling uses, are left out. *)
Record PluginManager : Type := mkManager {
  app_config : AppConfig;
  registry : list (string * plugin)
}.

Definition set_registry (r : list (string * plugin)) (m : PluginManager) : PluginManager :=
  {| app_config := app_config m; registry := r |}.

(** [instance_id in self.plugins] *)
Definition registered (id : string) (reg : list (string * plugin)) : bool :=
  bool_decide (id ∈ reg.*1).

(** The [while instance_id in self.plugins] loop of [register_plugin];
    [fuel] bounds the number of iterations. *)
Fixpoint unique_id (fuel : nat) (reg : list (string * plugin)) (original_id : string)
    (instance_id : string) (counter : nat) : option string :=
  if registered instance_id reg then
    match fuel with
    | O => None
    | S fuel' =>
        unique_id fuel' reg original_id (original_id +:+ "_" +:+ pretty counter) (S counter)
    end
  else Some instance_id.

(** [register_plugin(plugin, instance_id)]. The loop is run with one more
    step than there are registered plugins. *)
Definition register_plugin (p : plugin) (instance_id : option string)
  : Py PluginManager unit :=
  let instance_id := default (plugin_name p) instance_id in
  reg <- gets registry ;;
  match unique_id (S (length reg)) reg instance_id instance_id 1 with
  | None => raise OtherError
  | Some id =>
      modify (set_registry (reg ++ [(id, p)])) ;;;
      print (PluginRegistered (plugin_name p) id)
  end.

(** A plugin built from an arbitrary value, as the legacy path does:
    [config or {}] for a falsy value, [config.get] fails on a truthy value
    that is not a dict. *)
Definition options_of (v : value) : result (gmap string value) :=
  match v with
  | VDict d => Ok (list_to_map d)
  | _ => if truthy v then Raise AttributeError else Ok ∅
  end.

(** The loop [for name, plugin in self.plugins.items(): try:
    plugin.initialize(...) except Exception as e: print(...)] over the
    entries not yet visited. *)
Fixpoint initialize_each (env : Env) (cfg : AppConfig) (items : list (string * plugin))
    (out : list event) : list (string * plugin) * list event :=
  match items with
  | [] => ([], out)
  | (id, p) :: rest =>
      match plugin_initialize env cfg p out with
      | (Ok _, p', out') =>
          let '(rest', out'') := initialize_each env cfg rest out' in
          ((id, p') :: rest', out'')
      | (Raise e, p', out') =>
          let '(rest', out'') :=
            initialize_each env cfg rest (out' ++ [ErrInitializeLegacy id e]) in
          ((id, p') :: rest', out'')
      end
  end.

(** [_initialize_legacy_plugins] *)
Definition _initialize_legacy_plugins (env : Env) : Py PluginManager unit :=
  cfg <- gets app_config ;;
  let plugins_data := plugins cfg in
  plugin_configs <- lift (value_get plugins_data "config" (VDict [])) ;;
  frame_config <- lift (value_get plugin_configs "frame" (VDict [])) ;;
  overlay_config <- (if truthy frame_config then ret frame_config
                     else lift (value_get plugin_configs "overlay" (VDict []))) ;;
  clock_cfg <- lift (value_get plugin_configs "clock" (VDict [])) ;;
  clock_opts <- lift (options_of clock_cfg) ;;
  register_plugin (Clock (ClockPlugin.init clock_opts)) None ;;;
  cpu_cfg <- lift (value_get plugin_configs "cpu" (VDict [])) ;;
  cpu_opts <- lift (options_of cpu_cfg) ;;
  register_plugin (Cpu (CPUPlugin.init cpu_opts)) None ;;;
  overlay_opts <- lift (options_of overlay_config) ;;
  register_plugin (Overlay (OverlayPlugin.init overlay_opts)) None ;;;
  fun m out =>
    let '(reg, out') := initialize_each env (app_config m) (registry m) out in
    (Ok tt, set_registry reg m, out').

(** The [for instance_config in plugin_instances] loop of
    [initialize_plugins]. *)
Fixpoint initialize_instances (env : Env) (instances : list Descriptor)
  : Py PluginManager bool :=
  match instances with
  | [] => ret true
  | instance_config :: rest =>
      let plugin_type := d_type instance_config in
      let instance_id := d_id instance_config in
      match lookup_class PLUGIN_CLASSES plugin_type with
      | None =>
          print (WarnUnknownType plugin_type) ;;;
          initialize_instances env rest
      | Some plugin_class =>
          let p := plugin_class (d_config instance_config) in
          let p := plugin_set_enabled (VBool (d_enabled instance_config)) p in
          fun m out =>
            match plugin_initialize env (app_config m) p out with
            | (Ok _, p', out') =>
                match register_plugin p' instance_id m out' with
                | (Ok _, m', out'') => initialize_instances env rest m' out''
                | (Raise e, m', out'') =>
                    (Ok false, m', out'' ++ [ErrInitialize plugin_type instance_id e])
                end
            | (Raise e, _, out') =>
                (Ok false, m, out' ++ [ErrInitialize plugin_type instance_id e])
            end
      end
  end.

(** [initialize_plugins] *)
Definition initialize_plugins (env : Env) : Py PluginManager bool :=
  cfg <- gets app_config ;;
  match plugin_instances cfg with
  | [] => _initialize_legacy_plugins env ;;; ret true
  | instances => initialize_instances env instances
  end.

(** [PluginManager(app_config)] *)
Definition new_manager (cfg : AppConfig) : PluginManager :=
  {| app_config := cfg; registry := [] |}.

(** The search [for name, plugin in self.plugins.items(): if plugin.name
    == 'crop': ... break]. *)
Fixpoint find_crop (items : list (string * plugin)) : option (string * plugin) :=
  match items with
  | [] => None
  | (id, p) :: rest =>
      if String.eqb (plugin_name p) "crop" then Some (id, p) else find_crop rest
  end.

(** The outcome of the manager's [process_frame], with the ids of the
    plugins whose [process_frame] was called, in call order. The call
    list is a ghost of the model: the program keeps no such record. *)
Record Outcome : Type := mkOutcome {
  returned : result nat;
  entries : list (string * plugin);
  world : World;
  output : list event;
  calls : list string
}.

(** The second loop of [process_frame] over the entries not yet visited;
    the visited entries come back with the state their plugin is left in. *)
Fixpoint apply_plugins (env : Env) (crop_plugin_name : option string) (draw : nat)
    (items : list (string * plugin)) (frame : nat) (w : World) (out : list event)
  : Outcome :=
  match items with
  | [] => mkOutcome (Ok frame) [] w out []
  | (id, p) :: rest =>
      if (bool_decide (crop_plugin_name = Some id) || negb (truthy (plugin_enabled p)))%bool
      then
        let o := apply_plugins env crop_plugin_name draw rest frame w out in
        mkOutcome (returned o) ((id, p) :: entries o) (world o) (output o) (calls o)
      else
        match plugin_process_frame env frame (Some draw) (p, w) out with
        | (Ok frame', (p', w'), out') =>
            let o := apply_plugins env crop_plugin_name draw rest frame' w' out' in
            mkOutcome (returned o) ((id, p') :: entries o) (world o) (output o)
                      (id :: calls o)
        | (Raise e, (p', w'), out') =>
            mkOutcome (Raise e) ((id, p') :: rest) w' out' [id]
        end
  end.

(** Writing back the instance registered as [id]. *)
Definition update_entry (id : string) (p : plugin) (reg : list (string * plugin))
  : list (string * plugin) :=
  (fun kv => if String.eqb (fst kv) id then (id, p) else kv) <$> reg.

(** [process_frame(frame)], with the call list. [ImageDraw.Draw(frame)]
    is a context bound to the image [frame] refers to at that point. *)
Definition process_frame_calls (env : Env) (frame : nat) (m : PluginManager) (w : World)
    (out : list event) : Outcome :=
  let found := find_crop (registry m) in
  let crop_plugin_name := fst <$> found in
  let step1 :=
    match found with
    | Some (id, crop_plugin) =>
        match plugin_process_frame env frame None (crop_plugin, w) out with
        | (r, (p', w'), out') =>
            mkOutcome r (update_entry id p' (registry m)) w' out' [id]
        end
    | None => mkOutcome (Ok frame) (registry m) w out []
    end in
  match returned step1 with
  | Raise e => step1
  | Ok frame =>
      let draw := frame in
      let o := apply_plugins env crop_plugin_name draw (entries step1) frame
                 (world step1) (output step1) in
      mkOutcome (returned o) (entries o) (world o) (output o) (calls step1 ++ calls o)
  end.

(** [process_frame(frame)] *)
Definition process_frame (env : Env) (frame : nat) : Py (PluginManager * World) nat :=
  fun mw out =>
    let o := process_frame_calls env frame (fst mw) (snd mw) out in
    (returned o, (set_registry (entries o) (fst mw), world o), output o).

(** ** Notions used in the statements *)

(** The id tried at round [n] of the loop of [register_plugin]. *)
Definition candidate (original_id : string) (n : nat) : string :=
  original_id +:+ "_" +:+ pretty n.

(** The descriptor's type is a key of [PLUGIN_CLASSES]. *)
Definition type_valid (d : Descriptor) : bool :=
  bool_decide (d_type d ∈ PLUGIN_CLASSES.*1).

(** The id a descriptor asks for; without one, [register_plugin] takes
    the plugin's name, which for the classes of [PLUGIN_CLASSES] is the
    type. *)
Definition requested_id (d : Descriptor) : string :=
  default (d_type d) (d_id d).

(** An id granted for a request: the request, or the request with a
    suffix [_n]. *)
Definition id_for (requested id : string) : Prop :=
  id = requested ∨ ∃ n, (1 ≤ n)%nat ∧ id = candidate requested n.

(** The registry entry [kv] holds an instance built for [d]. *)
Definition registered_as (d : Descriptor) (kv : string * plugin) : Prop :=
  plugin_name kv.2 = d_type d ∧
  config (plugin_base kv.2) = d_config d ∧
  id_for (requested_id d) kv.1.

(** The reading of the first testable property of the specification:
    after a successful [initialize_plugins] the registry holds, in order,
    one entry per enabled descriptor of a known type, under distinct ids. *)
Definition registers_enabled_valid (env : Env) (cfg : AppConfig) : Prop :=
  ∀ m' out',
    initialize_plugins env (new_manager cfg) [] = (Ok true, m', out') →
    Forall2 registered_as
      (List.filter (λ d, d_enabled d && type_valid d) (plugin_instances cfg))
      (registry m')
    ∧ NoDup (registry m').*1.

(** A statement keeps a relation between the state and output it starts
    from and those it ends with, whatever its result. *)
Definition respects {S A} (R : S * list event → S * list event → Prop) (c : Py S A)
  : Prop :=
  ∀ s out r s' out', c s out = (r, s', out') → R (s, out) (s', out').

(** The name and the options of an instance stay what the constructor
    made them. *)
Definition same_identity {S} (proj : S → Plugin) : S * list event → S * list event → Prop :=
  λ x y, name (proj y.1) = name (proj x.1) ∧ config (proj y.1) = config (proj x.1).

(** The reading of the specification's error policy: whenever an
    [initialize] of a plugin failed during [initialize_plugins] (the
    failure is reported on the output), the startup does not end with
    [True]. *)
Definition initialize_failure_fatal (env : Env) (cfg : AppConfig) : Prop :=
  ∀ r m' out' id e,
    initialize_plugins env (new_manager cfg) [] = (r, m', out') →
    ErrInitializeLegacy id e ∈ out' ∨ (∃ ty id', ErrInitialize ty id' e ∈ out') →
    r ≠ Ok true.

(** [initialize] of the classification badge after its first statement:
    the level stays and the output only grows. *)
Definition keeps_level : TLPPlugin.t * list event → TLPPlugin.t * list event → Prop :=
  λ x y, TLPPlugin.tlp_level y.1 = TLPPlugin.tlp_level x.1 ∧ x.2 `prefix_of` y.2.

(** The flag a class tests at the top of its [process_frame] is off:
    [show] for the clock, the load meter and the badge, [enabled] for the
    overlay. The crop class tests none. *)
Definition gate_off (p : plugin) : Prop :=
  match p with
  | Clock c => truthy (ClockPlugin.show c) = false
  | Cpu c => truthy (CPUPlugin.show c) = false
  | Tlp c => truthy (TLPPlugin.show c) = false
  | Overlay c => truthy (enabled (OverlayPlugin.base c)) = false
  | Crop _ => False
  end.

(** Every flag the instance has is off. *)
Definition switched_off (p : plugin) : Prop :=
  truthy (plugin_enabled p) = false ∧
  match p with
  | Clock c => truthy (ClockPlugin.show c) = false
  | Cpu c => truthy (CPUPlugin.show c) = false
  | Tlp c => truthy (TLPPlugin.show c) = false
  | Overlay _ | Crop _ => True
  end.

(** The reading of the specification's identity property for an
    instance: switched off, its [process_frame] hands back the frame it
    was given and leaves the instance, the images, the record of
    accesses and the output as they were. *)
Definition off_is_identity (env : Env) (p : plugin) : Prop :=
  switched_off p →
  ∀ frame draw w out,
    plugin_process_frame env frame draw (p, w) out = (Ok frame, (p, w), out).

(** One more access recorded. *)
Definition touched (a : access) (w : World) : World :=
  {| images := images w; accesses := accesses w ++ [a] |}.


(** An instance whose [process_frame] does nothing: it hands back the
    frame and leaves itself, the images, the accesses and the output as
    they were. *)
Definition noop (env : Env) (p : plugin) : Prop :=
  ∀ frame draw w out,
    plugin_process_frame env frame draw (p, w) out = (Ok frame, (p, w), out).

(** What a caller of the manager's [process_frame] can see of a run: the
    frame returned or the exception, the images and accesses, and the
    output. *)
Definition visible (o : Outcome) : result nat * World * list event :=
  (returned o, world o, output o).

(** The options of a tail instance that [update] reads and never writes. *)
Definition tail_settings (s : TailPlugin.t) : string * value * value * bool :=
  (TailPlugin.file_path s, TailPlugin.lines s, TailPlugin.update_interval s,
   TailPlugin.following s).

(** The lines [_read_file] caches for a file of lines [ls] when [lines]
    is the integer [n]. *)
Definition tail_of (following : bool) (n : Z) (ls : list string) : list TailPlugin.line :=
  (λ l, TailPlugin.FileLine (TailPlugin.rstrip l)) <$>
    (if (n <? Z.of_nat (length ls))%Z
     then (if following then TailPlugin.slice_from ls (- n) else TailPlugin.slice_to ls n)
     else ls).

(** The reading of the throttling half of the sixth property: of two
    calls of [update] less than [update_interval] apart, the second
    leaves the cached lines as the first left them. *)
Definition close_calls_keep_content (s : TailPlugin.t) : Prop :=
  ∀ env1 env2 out x,
    num_of (TailPlugin.update_interval s) = Some x →
    (time_time env1 <= time_time env2)%Q →
    (time_time env2 - time_time env1 < Q_of_num x)%Q →
    let after1 := TailPlugin.update env1 s out in
    let after2 := TailPlugin.update env2 after1.1.2 after1.2 in
    TailPlugin._content after2.1.2 = TailPlugin._content after1.1.2.

(** ** Concrete worlds and configurations *)

(** A machine without the fonts the plugins look for, without image
    files, whose zone database knows one region. *)
Definition env_plain : Env :=
  {| files := fun _ => Missing;
     truetype_error := fun _ _ => Some OSError;
     path_exists := fun _ => Ok false;
     image_open := fun _ => Raise FileNotFoundError;
     textbbox := fun _ _ _ => Ok (10, 10, 90, 30)%Z;
     zoneinfo_error :=
       fun z => if String.eqb z "America/Sao_Paulo" then None else Some KeyError;
     platform := "linux";
     time_time := 100;
     time_time_after := 100;
     cpu_percent := 25 # 2;
     float_product := fun n x => Ok (Qtrunc (inject_Z n * x));
     int_of_str := fun _ => Raise ValueError |}.

Definition config_of (instances : list Descriptor) (legacy : value) : AppConfig :=
  {| width := VInt 1280;
     height := VInt 720;
     assets := VDict [("fonts", VList [])];
     plugin_instances := instances;
     plugins := legacy |}.

(** [plugins: [{type: clock, name: clock_main, enabled: false}]] *)
Definition disabled_clock : Descriptor :=
  mkDescriptor "clock" (Some "clock_main") false ∅.

(** [{type: clock, name: c, position: 5}]: [tuple(5)] fails. *)
Definition broken_clock : Descriptor :=
  mkDescriptor "clock" (Some "c") true {[ "position" := VInt 5 ]}.

Definition good_clock : Descriptor :=
  mkDescriptor "clock" (Some "c") true {[ "position" := VList [VInt 10; VInt 10] ]}.

Definition good_cpu : Descriptor := mkDescriptor "cpu" None true ∅.

Definition tail_descriptor : Descriptor :=
  mkDescriptor "tail" (Some "log") true {[ "file" := VStr "/var/log/syslog" ]}.

(** The legacy format [plugins: {config: {clock: {position: 5}}}]. *)
Definition legacy_broken_clock : value :=
  VDict [("config", VDict [("clock", VDict [("position", VInt 5)])])].

Definition plain_config : AppConfig := config_of [] (VDict []).

(** A 640x480 camera frame as the only image. *)
Definition camera_frame : Image := mkImage 640 480 [Captured 0].
Definition one_frame : World := {| images := [camera_frame]; accesses := [] |}.

(** A crop instance built from [{type: crop, enabled: false}] for a
    1280x720 output. *)
Definition disabled_crop : plugin :=
  from_option snd (Crop (CropPlugin.init ∅))
    (head (registry
       (initialize_plugins env_plain
          (new_manager (config_of [mkDescriptor "crop" None false ∅] (VDict []))) []).1.2)).

(** A clock with [timezone: UTC] and the default format. *)
Definition utc_clock : ClockPlugin.t :=
  (ClockPlugin.initialize env_plain plain_config
     (ClockPlugin.init {[ "timezone" := VStr "UTC" ]}) []).1.2.

(** A registry where the crop plugin was registered last:
    [plugins: [clock, cpu (enabled: false), crop (enabled: false)]]. *)
Definition crop_last : PluginManager :=
  (initialize_plugins env_plain
     (new_manager
        (config_of [good_clock;
                    mkDescriptor "cpu" None false ∅;
                    mkDescriptor "crop" None false ∅] (VDict []))) []).1.2.

(** [plugins: [clock, overlay]] with the overlay's image file missing,
    and the same without the overlay. *)
Definition watermark : Descriptor :=
  mkDescriptor "overlay" None true
    {[ "file" := VStr "watermark.png"; "opacity" := VFloat (1 # 2) ]}.

Definition clock_and_overlay : PluginManager :=
  (initialize_plugins env_plain
     (new_manager (config_of [good_clock; watermark] (VDict []))) []).1.2.

Definition clock_only : PluginManager :=
  (initialize_plugins env_plain
     (new_manager (config_of [good_clock] (VDict []))) []).1.2.

(** A log file and the machine's clock: the file as [os.stat] and
    [readlines] see it at time [now]. *)
Definition newline : string := String (ascii_of_nat 10) EmptyString.

Definition env_at (now : Q) (log : File) : Env :=
  {| files := fun _ => log;
     truetype_error := truetype_error env_plain;
     path_exists := path_exists env_plain;
     image_open := image_open env_plain;
     textbbox := textbbox env_plain;
     zoneinfo_error := zoneinfo_error env_plain;
     platform := platform env_plain;
     time_time := now;
     time_time_after := now;
     cpu_percent := cpu_percent env_plain;
     float_product := float_product env_plain;
     int_of_str := int_of_str env_plain |}.

Definition log_before : File :=
  Present 8 1000 (Ok ["one" +:+ newline; "two" +:+ newline]).

Definition log_after : File :=
  Present 14 1001 (Ok ["one" +:+ newline; "two" +:+ newline; "three" +:+ newline]).

(** A tail instance showing the last two lines, refreshed at time 100
    when the file was [log_before], with an interval of one second. *)
Definition tail_at_100 : TailPlugin.t :=
  {| TailPlugin.file_path := "app.log";
     TailPlugin.lines := VInt 2;
     TailPlugin.update_interval := VInt 1;
     TailPlugin.following := true;
     TailPlugin._last_file_size := 8;
     TailPlugin._last_mtime := 1000;
     TailPlugin._content := [TailPlugin.FileLine "one"; TailPlugin.FileLine "two"];
     TailPlugin._last_update := 100 |}.

(** ** Keyboard shortcuts: [on_keypress] and [handle_shortcut] *)

(** [self.<flag> = not self.<flag>] *)
Definition py_not (v : value) : value := VBool (negb (truthy v)).

(** The loop of [Plugin.on_keypress] over [self.shortcuts.items()]: the
    first entry whose key is the pressed one decides,
    [return self.handle_shortcut(action)]; without one, [return False]. *)
Fixpoint first_shortcut {S} (handle_shortcut : string -> Py S bool) (key : string)
    (items : list (string * value)) : Py S bool :=
  match items with
  | [] => ret false
  | (action, shortcut_key) :: rest =>
      if py_eq (VStr key) shortcut_key then handle_shortcut action
      else first_shortcut handle_shortcut key rest
  end.

(** [Plugin.on_keypress(key)] ([plugins/base.py]); [handle_shortcut] is
    the method of the instance's class. Only a dict has [items]. *)
Definition Plugin_on_keypress {S} (base : S -> Plugin)
    (handle_shortcut : string -> Py S bool) (key : string) : Py S bool :=
  sc <- gets (fun s => shortcuts (base s)) ;;
  if truthy sc then
    match sc with
    | VDict items => first_shortcut handle_shortcut key items
    | _ => raise AttributeError
    end
  else ret false.

(** [Plugin.handle_shortcut(action)]: the default action flips
    [enabled]. *)
Definition Plugin_handle_shortcut {S} (base : S -> Plugin) (set_base : Plugin -> S -> S)
    (action : string) : Py S bool :=
  if String.eqb action "toggle" then
    modify (fun s => set_base (set_enabled (py_not (enabled (base s))) (base s)) s) ;;;
    ret true
  else ret false.

(** [ClockPlugin.handle_shortcut] and [CPUPlugin.handle_shortcut] flip
    [show]; their [on_keypress] is the inherited one. *)
Definition Clock_handle_shortcut (action : string) : Py ClockPlugin.t bool :=
  if String.eqb action "toggle" then
    modify (fun s => ClockPlugin.set_show (py_not (ClockPlugin.show s)) s) ;;;
    ret true
  else ret false.

Definition Clock_on_keypress (key : string) : Py ClockPlugin.t bool :=
  Plugin_on_keypress ClockPlugin.base Clock_handle_shortcut key.

Definition Cpu_handle_shortcut (action : string) : Py CPUPlugin.t bool :=
  if String.eqb action "toggle" then
    modify (fun s => CPUPlugin.set_show (py_not (CPUPlugin.show s)) s) ;;;
    ret true
  else ret false.

Definition Cpu_on_keypress (key : string) : Py CPUPlugin.t bool :=
  Plugin_on_keypress CPUPlugin.base Cpu_handle_shortcut key.

(** [CropPlugin] overrides neither method. *)
Definition Crop_handle_shortcut : string -> Py CropPlugin.t bool :=
  Plugin_handle_shortcut CropPlugin.base CropPlugin.set_base.

Definition Crop_on_keypress (key : string) : Py CropPlugin.t bool :=
  Plugin_on_keypress CropPlugin.base Crop_handle_shortcut key.

(** [OverlayPlugin.on_keypress] has a loop of its own: an entry for the
    pressed key whose action is not [toggle] does not end the loop. *)
Fixpoint Overlay_shortcut_loop (key : string) (items : list (string * value))
  : Py OverlayPlugin.t bool :=
  match items with
  | [] => ret false
  | (action, shortcut_key) :: rest =>
      if (py_eq (VStr key) shortcut_key && String.eqb action "toggle")%bool then
        modify (fun s =>
          OverlayPlugin.set_base
            (set_enabled (py_not (enabled (OverlayPlugin.base s))) (OverlayPlugin.base s)) s) ;;;
        ret true
      else Overlay_shortcut_loop key rest
  end.

Definition Overlay_on_keypress (key : string) : Py OverlayPlugin.t bool :=
  sc <- gets (fun s => shortcuts (OverlayPlugin.base s)) ;;
  if truthy sc then
    match sc with
    | VDict items => Overlay_shortcut_loop key items
    | _ => raise AttributeError
    end
  else ret false.

(** [TLPPlugin.handle_shortcut]: [toggle] flips [show]; the names of the
    levels, in any case, set the level. *)
Definition Tlp_handle_shortcut (action : string) : Py TLPPlugin.t bool :=
  if String.eqb action "toggle" then
    modify (fun s => TLPPlugin.set_show (py_not (TLPPlugin.show s)) s) ;;;
    ret true
  else
    let action_lower := lower action in
    if String.eqb action_lower "red" then
      modify (TLPPlugin.set_tlp_level_field TLPPlugin.TLP_RED) ;;; ret true
    else if String.eqb action_lower "amber" then
      modify (TLPPlugin.set_tlp_level_field TLPPlugin.TLP_AMBER) ;;; ret true
    else if String.eqb action_lower "green" then
      modify (TLPPlugin.set_tlp_level_field TLPPlugin.TLP_GREEN) ;;; ret true
    else if String.eqb action_lower "clear" then
      modify (TLPPlugin.set_tlp_level_field TLPPlugin.TLP_CLEAR) ;;; ret true
    else ret false.

(** [TLPPlugin.on_keypress] repeats the loop of the base class. *)
Definition Tlp_on_keypress (key : string) : Py TLPPlugin.t bool :=
  Plugin_on_keypress TLPPlugin.base Tlp_handle_shortcut key.

(** [plugin.on_keypress(key)] *)
Definition plugin_on_keypress (key : string) : Py plugin bool :=
  fun p =>
    match p with
    | Clock c => on_instance Clock (Clock_on_keypress key) c p
    | Cpu c => on_instance Cpu (Cpu_on_keypress key) c p
    | Overlay c => on_instance Overlay (Overlay_on_keypress key) c p
    | Crop c => on_instance Crop (Crop_on_keypress key) c p
    | Tlp c => on_instance Tlp (Tlp_on_keypress key) c p
    end.

(** The manager with what its keyboard handling reads:
    [app_config.keyboard_shortcuts], [filter_plugins] and
    [current_filter_index]. *)
Record KeyManager : Type := mkKeyManager {
  manager : PluginManager;
  keyboard_shortcuts : value;
  filter_plugins : list plugin;
  current_filter_index : Z
}.

Definition set_manager v k :=
  mkKeyManager v (keyboard_shortcuts k) (filter_plugins k) (current_filter_index k).
Definition set_filter_plugins v k :=
  mkKeyManager (manager k) (keyboard_shortcuts k) v (current_filter_index k).
Definition set_current_filter_index v k :=
  mkKeyManager (manager k) (keyboard_shortcuts k) (filter_plugins k) v.

(** [register_filter(plugin)] *)
Definition register_filter (p : plugin) : Py KeyManager unit :=
  modify (fun k => set_filter_plugins (filter_plugins k ++ [p]) k).

(** The loop [for plugin in self.plugins.values(): if
    plugin.on_keypress(key): handled = True] over the entries not yet
    visited; an exception of a plugin ends it. *)
Fixpoint keypress_each (key : string) (items : list (string * plugin)) (handled : bool)
    (out : list event) : result bool * list (string * plugin) * list event :=
  match items with
  | [] => (Ok handled, [], out)
  | (id, p) :: rest =>
      match plugin_on_keypress key p out with
      | (Ok b, p', out') =>
          let '(r, rest', out'') :=
            keypress_each key rest (if b then true else handled) out' in
          (r, (id, p') :: rest', out'')
      | (Raise e, p', out') => (Raise e, (id, p') :: rest, out')
      end
  end.

(** [PluginManager.on_keypress(key)]: [True], [False] or ['quit']. *)
Definition on_keypress (key : string) : Py KeyManager value :=
  handled <- (fun k out =>
                let '(r, reg, out') := keypress_each key (registry (manager k)) false out in
                (r, set_manager (set_registry reg (manager k)) k, out')) ;;
  ks <- gets keyboard_shortcuts ;;
  quit <- lift (value_get ks "quit" (VStr "q")) ;;
  if py_eq (VStr key) quit then ret (VStr "quit")
  else
    next_filter <- lift (value_get ks "next_filter" (VStr "n")) ;;
    handled <- (if py_eq (VStr key) next_filter then
                  filters <- gets filter_plugins ;;
                  match filters with
                  | [] => ret handled
                  | _ =>
                      modify (fun k =>
                        set_current_filter_index
                          ((current_filter_index k + 1) `mod` Z.of_nat (length filters)) k) ;;;
                      ret true
                  end
                else ret handled) ;;
    prev_filter <- lift (value_get ks "prev_filter" (VStr "b")) ;;
    handled <- (if py_eq (VStr key) prev_filter then
                  filters <- gets filter_plugins ;;
                  match filters with
                  | [] => ret handled
                  | _ =>
                      modify (fun k =>
                        set_current_filter_index
                          ((current_filter_index k - 1) `mod` Z.of_nat (length filters)) k) ;;;
                      ret true
                  end
                else ret handled) ;;
    ret (VBool handled).

(** The flag that [toggle] flips: [show] for the clock, the load meter
    and the badge, [enabled] for the overlay and the crop. *)
Definition toggled_flag (p : plugin) : value :=
  match p with
  | Clock c => ClockPlugin.show c
  | Cpu c => CPUPlugin.show c
  | Tlp c => TLPPlugin.show c
  | Overlay c => enabled (OverlayPlugin.base c)
  | Crop c => enabled (CropPlugin.base c)
  end.

Definition set_toggled_flag (v : value) (p : plugin) : plugin :=
  match p with
  | Clock c => Clock (ClockPlugin.set_show v c)
  | Cpu c => Cpu (CPUPlugin.set_show v c)
  | Tlp c => Tlp (TLPPlugin.set_show v c)
  | Overlay c => Overlay (OverlayPlugin.set_base (set_enabled v (OverlayPlugin.base c)) c)
  | Crop c => Crop (CropPlugin.set_base (set_enabled v (CropPlugin.base c)) c)
  end.

(** The first entry of a shortcut mapping for the pressed key. *)
Definition binding (key : string) (items : list (string * value)) : option string :=
  fst <$> List.find (fun kv => py_eq (VStr key) (snd kv)) items.

(** ** [AppConfig._parse_plugin_instances] *)

(** The fields of an entry of the [plugins] list that are not options of
    the plugin. *)
Definition reserved (k : string) : bool :=
  (String.eqb k "name" || String.eqb k "type" || String.eqb k "enabled")%bool.

(** The instance built for an entry whose [type] is [plugin_type]: the
    id is the [name], or the type without one; [enabled] defaults to
    [True]; the options are the other fields. *)
Definition instance_of (items : list (string * value)) (plugin_type : value) : value :=
  let plugin_id := default plugin_type (assoc_get items "name") in
  let plugin_config := List.filter (fun kv => negb (reserved (fst kv))) items in
  VDict [("type", plugin_type);
         ("id", plugin_id);
         ("enabled", default (VBool true) (assoc_get items "enabled"));
         ("config", VDict plugin_config)].

(** The loop over the entries. The second component lists the entries
    printed with the warning that they have no [type]; an entry that is
    not a dict has no [get] and ends the loop with the exception. *)
Fixpoint parse_plugin_defs (defs : list value) (warned : list value)
  : result (list value) * list value :=
  match defs with
  | [] => (Ok [], warned)
  | plugin_def :: rest =>
      match plugin_def with
      | VDict items =>
          let plugin_type := default VNone (assoc_get items "type") in
          if negb (truthy plugin_type) then
            parse_plugin_defs rest (warned ++ [plugin_def])
          else
            match parse_plugin_defs rest warned with
            | (Ok instances, warned') =>
                (Ok (instance_of items plugin_type :: instances), warned')
            | (Raise e, warned') => (Raise e, warned')
            end
      | _ => (Raise AttributeError, warned)
      end
  end.

(** [_parse_plugin_instances(data)]: only a list of plugins gives
    instances. *)
Definition _parse_plugin_instances (data : value) : result (list value) * list value :=
  match value_get data "plugins" (VDict []) with
  | Raise e => (Raise e, [])
  | Ok plugins_data =>
      match plugins_data with
      | VList defs => parse_plugin_defs defs []
      | _ => (Ok [], [])
      end
  end.

(** An entry of the [plugins] list that names a type. *)
Definition has_type (plugin_def : value) : bool :=
  match plugin_def with
  | VDict items => truthy (default VNone (assoc_get items "type"))
  | _ => false
  end.

(** [plugins: [{name: wm, type: overlay, enabled: false, file: wm.png},
    {name: orphan}]] *)
Definition parsed_example : value :=
  VDict [("plugins",
          VList [VDict [("name", VStr "wm"); ("type", VStr "overlay");
                        ("enabled", VBool false); ("file", VStr "wm.png")];
                 VDict [("name", VStr "orphan")]])].

(** ** Notions and configurations for the keyboard handling *)

(** The instance after it was handed a key. *)
Definition pressed (key : string) (p : plugin) : plugin :=
  (plugin_on_keypress key p []).1.2.

(** A statement that raises nothing and prints nothing, and whose
    effect on the instance does not depend on the output so far. *)
Definition quiet {S} (c : Py S bool) : Prop :=
  ∀ s out, ∃ b, c s out = (Ok b, (c s []).1.2, out).

(** The shortcut mapping of an instance is a dict. *)
Definition shortcuts_dict (p : plugin) : Prop :=
  ∃ items, shortcuts (plugin_base p) = VDict items.

(** A clock whose [toggle] is on the key [q], which is also the
    manager's key to quit, and a badge with the shortcuts of its class. *)
Definition clock_on_q : Descriptor :=
  mkDescriptor "clock" (Some "c") true
    {[ "shortcuts" := VDict [("toggle", VStr "q")] ]}.

Definition badge : Descriptor := mkDescriptor "tlp" None true ∅.

Definition keys_manager : KeyManager :=
  {| manager :=
       (initialize_plugins env_plain
          (new_manager (config_of [clock_on_q; badge] (VDict []))) []).1.2;
     keyboard_shortcuts :=
       VDict [("quit", VStr "q"); ("pause", VStr " ");
              ("next_filter", VStr "n"); ("prev_filter", VStr "b")];
     filter_plugins := [];
     current_filter_index := 0 |}.

(** The clock of [keys_manager]. *)
Definition clock_q : plugin :=
  from_option snd (Clock (ClockPlugin.init ∅)) (head (registry (manager keys_manager))).

(** The badge of [keys_manager]. *)
Definition badge_tlp : plugin :=
  from_option snd (Tlp (TLPPlugin.init ∅)) (registry (manager keys_manager) !! 1%nat).

(** The key the manager takes for a global action: the configured one
    or the default. *)
Definition global_key (ks : list (string * value)) (action default_key : string) : value :=
  default (VStr default_key) (assoc_get ks action).

(** The registry after every plugin was handed the key. *)
Definition all_pressed (key : string) (m : PluginManager) : PluginManager :=
  set_registry ((λ kv, (kv.1, pressed key kv.2)) <$> registry m) m.

(** What holds of the result and the state when a statement started
    under [P] ends without an exception. *)
Definition on_success {S A} (P : S → Prop) (c : Py S A) (Q : A → S → Prop) : Prop :=
  ∀ s out a s' out', P s → c s out = (Ok a, s', out') → Q a s'.

(** The badge's level is one of the four. *)
Definition level_valid (s : TLPPlugin.t) : Prop :=
  TLPPlugin.tlp_level s ∈ TLPPlugin.valid_levels.

(** The keys of [TLP_SHORTCUTS] with the levels they set. *)
Definition level_keys : list (string * string) :=
  [("r", TLPPlugin.TLP_RED); ("a", TLPPlugin.TLP_AMBER);
   ("g", TLPPlugin.TLP_GREEN); ("l", TLPPlugin.TLP_CLEAR)].

(** The images after a call that draws in place: no image was added or
    resized, and only the frame and the image of the drawing context may
    have been drawn on. *)
Definition drawn_in_place (frame : nat) (draw : option nat) (w0 w : World) : Prop :=
  im_size <$> images w = im_size <$> images w0
  ∧ ∀ i, i ≠ frame → draw ≠ Some i → images w !! i = images w0 !! i.

(** An instance of a class other than the crop class. *)
Definition not_crop (p : plugin) : Prop :=
  match p with
  | Crop _ => False
  | _ => True
  end.

Definition not_cropb (p : plugin) : bool :=
  match p with
  | Crop _ => false
  | _ => true
  end.

(** What [OverlayPlugin.initialize] makes of [enabled]: the option
    [enabled], else [show_by_default], else [True]. *)
Definition overlay_enabled (cfg : gmap string value) : value :=
  if has_key cfg "enabled" then get cfg "enabled" VNone
  else if has_key cfg "show_by_default" then get cfg "show_by_default" VNone
  else VBool true.

(** The [enabled] attribute of the instance registered for a
    descriptor. *)
Definition enabled_after_initialize (d : Descriptor) : value :=
  if String.eqb (d_type d) "overlay" then overlay_enabled (d_config d)
  else VBool (d_enabled d).

(** [plugins: [{type: overlay, enabled: false}]] *)
Definition disabled_overlay : Descriptor := mkDescriptor "overlay" None false ∅.

(** The world after a drawing call on the image at [ref]. *)
Definition drawn (ref : nat) (op : Op) (w : World) : World :=
  {| images := alter (im_draw op) ref (images w); accesses := accesses w |}.

(** The text of the load meter for a reading. *)
Definition cpu_text (reading : Q) : string :=
  "CPU: " +:+ pretty (Qtrunc reading) +:+ "%".

(** A load meter that is shown, last sampled at time 99 with an interval
    of two seconds. *)
Definition cpu_at_99 : CPUPlugin.t :=
  CPUPlugin.set_last_check 99
    (CPUPlugin.initialize env_plain plain_config (CPUPlugin.init ∅) []).1.2.

(** The options the legacy path builds a plugin with: the section of
    [plugins.config] named [k], or none. *)
Definition legacy_section (pc : list (string * value)) (k : string) : gmap string value :=
  match assoc_get pc k with
  | Some (VDict d) => list_to_map d
  | _ => ∅
  end.

(** The overlay's section: [frame] when it is there and not empty,
    else [overlay]. *)
Definition legacy_overlay_section (pc : list (string * value)) : gmap string value :=
  if truthy (default (VDict []) (assoc_get pc "frame")) then legacy_section pc "frame"
  else legacy_section pc "overlay".

(** [plugins: {config: {frame: {file: old.png}, overlay: {file: new.png},
    clock: {format: "%H:%M"}}}] *)
Definition legacy_sections : list (string * value) :=
  [("frame", VDict [("file", VStr "old.png")]);
   ("overlay", VDict [("file", VStr "new.png")]);
   ("clock", VDict [("format", VStr "%H:%M")])].

(** ** Notions for the crop step *)

(** The calls that draw on an image without changing its size. *)
Definition is_drawing (op : Op) : Prop :=
  match op with
  | Rectangle _ _ | DrawText _ _ _ _ | Paste _ _ _ => True
  | _ => False
  end.

(** An image that differs from an earlier state of it by drawings. *)
Definition drawn_over (i0 i : Image) : Prop :=
  im_size i = im_size i0
  ∧ ∃ drawings, im_ops i = im_ops i0 ++ drawings ∧ Forall is_drawing drawings.

(** The images of a world differ from those of an earlier world by
    drawings only. *)
Definition only_drawings (w0 w : World) : Prop :=
  Forall2 drawn_over (images w0) (images w).




(** * Properties *)

Local Arguments String.eqb : simpl never.
Local Arguments pretty : simpl never.

(** ** Ids of the registry *)

Lemma candidate_inj original_id : Inj (=) (=) (candidate original_id).
Proof.
  intros a b Hab. unfold candidate in Hab.
  apply (inj (String.app original_id)) in Hab.
  apply (inj (String.app "_")) in Hab.
  by apply (inj pretty) in Hab.
Qed.

Lemma registered_spec id reg : registered id reg = true ↔ id ∈ reg.*1.
Proof. unfold registered. by rewrite bool_decide_eq_true. Qed.

Lemma registered_false id reg : registered id reg = false ↔ id ∉ reg.*1.
Proof. unfold registered. by rewrite bool_decide_eq_false. Qed.

(** When the loop gives up, every id it tried is taken. *)
Lemma unique_id_None fuel reg o inst c :
  unique_id fuel reg o inst c = None →
  inst ∈ reg.*1 ∧ ∀ k, (c ≤ k < c + fuel)%nat → candidate o k ∈ reg.*1.
Proof.
  revert inst c. induction fuel as [|fuel IH]; intros inst c; simpl.
  - destruct (registered inst reg) eqn:E; [|done].
    intros _. split; [by apply registered_spec|]. intros k Hk. lia.
  - destruct (registered inst reg) eqn:E; [|done].
    intros H. apply IH in H as [H0 Hk].
    split; [by apply registered_spec|].
    intros k Hck. destruct (decide (k = c)) as [->|Hne]; [exact H0|].
    apply Hk. lia.
Qed.

(** The id the loop ends with is free, and it is the first free one in
    the order the loop tries them. *)
Lemma unique_id_Some fuel reg o inst c id :
  unique_id fuel reg o inst c = Some id →
  (id ∉ reg.*1) ∧
  (id = inst ∨
   inst ∈ reg.*1 ∧
   ∃ k, (c ≤ k)%nat ∧ id = candidate o k ∧
        ∀ j, (c ≤ j < k)%nat → candidate o j ∈ reg.*1).
Proof.
  revert inst c. induction fuel as [|fuel IH]; intros inst c; simpl.
  - destruct (registered inst reg) eqn:E; [done|].
    intros [= <-]. split; [by apply registered_false|by left].
  - destruct (registered inst reg) eqn:E.
    + intros H. apply IH in H as [Hfree [->|(Hin & k & Hk & -> & Hbelow)]].
      * split; [done|]. right. split; [by apply registered_spec|].
        exists c. split; [lia|]. split; [done|]. intros j Hj. lia.
      * split; [done|]. right. split; [by apply registered_spec|].
        exists k. split; [lia|]. split; [done|].
        intros j Hj. destruct (decide (j = c)) as [->|Hne]; [done|].
        apply Hbelow. lia.
    + intros [= <-]. split; [by apply registered_false|by left].
Qed.

(** One more round than there are registered plugins is enough: the
    loop of [register_plugin] ends. *)
Lemma unique_id_total reg o :
  is_Some (unique_id (S (length reg)) reg o o 1).
Proof.
  destruct (unique_id (S (length reg)) reg o o 1) as [id|] eqn:E; [by eexists|].
  exfalso. apply unique_id_None in E as [_ Hall].
  assert (Hsub : candidate o <$> seq 1 (S (length reg)) ⊆+ reg.*1).
  { apply NoDup_submseteq.
    - apply (@NoDup_fmap_2 _ _ (candidate o) (candidate_inj o)), NoDup_seq.
    - intros x Hx. apply list_elem_of_fmap in Hx as (k & -> & Hk).
      apply elem_of_seq in Hk. apply Hall. lia. }
  apply submseteq_length in Hsub.
  rewrite !length_fmap, length_seq in Hsub. lia.
Qed.

(** [register_plugin] never fails: it appends the plugin under a free id
    derived from the requested one, and reports it. *)
Lemma register_plugin_spec p instance_id m out :
  ∃ id,
    register_plugin p instance_id m out =
      (Ok tt, set_registry (registry m ++ [(id, p)]) m,
       out ++ [PluginRegistered (plugin_name p) id]) ∧
    (id ∉ (registry m).*1) ∧
    id_for (default (plugin_name p) instance_id) id.
Proof.
  unfold register_plugin, bind, gets.
  destruct (unique_id_total (registry m) (default (plugin_name p) instance_id))
    as [id Hid].
  rewrite Hid. exists id. split; [reflexivity|].
  apply unique_id_Some in Hid as [Hfree Hshape]. split; [done|].
  destruct Hshape as [->|(_ & k & Hk & -> & _)]; [by left|].
  right. by exists k.
Qed.

(** ** Reasoning on statements *)

Section respects.
Context {S : Type} (R : S * list event → S * list event → Prop).
Context `{!Reflexive R, !Transitive R}.

Lemma respects_ret {A} (a : A) : respects R (ret a).
Proof. intros s out r s' out' [= <- <- <-]. reflexivity. Qed.

Lemma respects_raise {A} e : respects R (@raise S A e).
Proof. intros s out r s' out' [= <- <- <-]. reflexivity. Qed.

Lemma respects_lift {A} (x : result A) : respects R (lift x).
Proof. intros s out r s' out' [= <- <- <-]. reflexivity. Qed.

Lemma respects_gets {A} (f : S → A) : respects R (gets f).
Proof. intros s out r s' out' [= <- <- <-]. reflexivity. Qed.

Lemma respects_modify (f : S → S) :
  (∀ s out, R (s, out) (f s, out)) → respects R (modify f).
Proof. intros Hf s out r s' out' [= <- <- <-]. apply Hf. Qed.

Lemma respects_print e :
  (∀ s out, R (s, out) (s, out ++ [e])) → respects R (print e).
Proof. intros He s out r s' out' [= <- <- <-]. apply He. Qed.

Lemma respects_bind {A B} (c : Py S A) (k : A → Py S B) :
  respects R c → (∀ a, respects R (k a)) → respects R (bind c k).
Proof.
  intros Hc Hk s out r s' out'. unfold bind.
  destruct (c s out) as [[[a|e] s1] out1] eqn:E.
  - intros H. etrans; [eapply Hc, E|eapply Hk, H].
  - intros [= <- <- <-]. eapply Hc, E.
Qed.

Lemma respects_when b (c : Py S unit) : respects R c → respects R (when b c).
Proof. destruct b; [done|]. intros _. apply respects_ret. Qed.

Lemma respects_try_except {A} (c : Py S A) handles h :
  respects R c → (∀ e, respects R (h e)) → respects R (try_except c handles h).
Proof.
  intros Hc Hh s out r s' out'. unfold try_except.
  destruct (c s out) as [[[a|e] s1] out1] eqn:E.
  - intros [= <- <- <-]. eapply Hc, E.
  - destruct (handles e).
    + intros H. etrans; [eapply Hc, E|eapply Hh, H].
    + intros [= <- <- <-]. eapply Hc, E.
Qed.
End respects.

Global Instance same_identity_refl {S} (proj : S → Plugin) : Reflexive (same_identity proj).
Proof. by intros [s out]. Qed.

Global Instance same_identity_trans {S} (proj : S → Plugin) : Transitive (same_identity proj).
Proof. intros x y z [H1 H2] [H3 H4]. split; congruence. Qed.

(** Breaks a statement into its calls; what is left are the assignments
    and prints, to be checked against the relation. *)
Ltac order_instance :=
  try match goal with
      | |- Reflexive _ => typeclasses eauto
      | |- Transitive _ => typeclasses eauto
      end.

Ltac respects_step :=
  first
    [ apply respects_ret; order_instance
    | apply respects_raise; order_instance
    | apply respects_lift; order_instance
    | apply respects_gets; order_instance
    | apply respects_bind; order_instance; [|intros ?]
    | apply respects_when; order_instance
    | apply respects_try_except; order_instance; [|intros ?]
    | apply respects_modify
    | apply respects_print
    | match goal with
      | |- respects _ (if ?b then _ else _) => destruct b
      | |- respects _ (match ?x with _ => _ end) => destruct x
      end ].

Ltac respects_tac := repeat respects_step.

(** ** [initialize] keeps the identity of the instance *)

Lemma Clock_initialize_identity env cfg :
  respects (same_identity ClockPlugin.base) (ClockPlugin.initialize env cfg).
Proof. unfold ClockPlugin.initialize. respects_tac; by intros. Qed.

Lemma Cpu_initialize_identity env cfg :
  respects (same_identity CPUPlugin.base) (CPUPlugin.initialize env cfg).
Proof. unfold CPUPlugin.initialize. respects_tac; by intros. Qed.

Lemma Overlay_initialize_identity env cfg :
  respects (same_identity OverlayPlugin.base) (OverlayPlugin.initialize env cfg).
Proof. unfold OverlayPlugin.initialize. respects_tac; by intros. Qed.

Lemma Crop_initialize_identity env cfg :
  respects (same_identity CropPlugin.base) (CropPlugin.initialize env cfg).
Proof. unfold CropPlugin.initialize. respects_tac; by intros. Qed.

Lemma Tlp_initialize_identity env cfg :
  respects (same_identity TLPPlugin.base) (TLPPlugin.initialize env cfg).
Proof.
  unfold TLPPlugin.initialize, TLPPlugin._validate_tlp_level.
  respects_tac; by intros.
Qed.

Lemma plugin_initialize_identity env cfg :
  respects (same_identity plugin_base) (plugin_initialize env cfg).
Proof.
  intros p out r p' out'. unfold plugin_initialize, on_instance.
  destruct p as [c|c|c|c|c].
  - destruct (ClockPlugin.initialize env cfg c out) as [[r1 c1] out1] eqn:E.
    intros [= <- <- <-]. exact (Clock_initialize_identity _ _ _ _ _ _ _ E).
  - destruct (CPUPlugin.initialize env cfg c out) as [[r1 c1] out1] eqn:E.
    intros [= <- <- <-]. exact (Cpu_initialize_identity _ _ _ _ _ _ _ E).
  - destruct (OverlayPlugin.initialize env cfg c out) as [[r1 c1] out1] eqn:E.
    intros [= <- <- <-]. exact (Overlay_initialize_identity _ _ _ _ _ _ _ E).
  - destruct (CropPlugin.initialize env cfg c out) as [[r1 c1] out1] eqn:E.
    intros [= <- <- <-]. exact (Crop_initialize_identity _ _ _ _ _ _ _ E).
  - destruct (TLPPlugin.initialize env cfg c out) as [[r1 c1] out1] eqn:E.
    intros [= <- <- <-]. exact (Tlp_initialize_identity _ _ _ _ _ _ _ E).
Qed.

(** ** [initialize_plugins] *)

Lemma lookup_class_None classes ty :
  lookup_class classes ty = None ↔ ty ∉ classes.*1.
Proof.
  induction classes as [|[k c] rest IH]; simpl.
  - split; [intros _; apply not_elem_of_nil|done].
  - rewrite not_elem_of_cons. destruct (String.eqb_spec k ty) as [->|Hne].
    + split; [done|]. by intros [? _].
    + rewrite IH. split; [by intros ?|by intros [_ ?]].
Qed.

Lemma type_valid_lookup d :
  type_valid d = true ↔ is_Some (lookup_class PLUGIN_CLASSES (d_type d)).
Proof.
  unfold type_valid. rewrite bool_decide_eq_true.
  destruct (lookup_class PLUGIN_CLASSES (d_type d)) eqn:E.
  - split; [by eexists|]. intros _.
    destruct (decide (d_type d ∈ PLUGIN_CLASSES.*1)) as [|Hn]; [done|].
    apply lookup_class_None in Hn. congruence.
  - apply lookup_class_None in E. split; [done|]. by intros [? ?].
Qed.

(** A class of [PLUGIN_CLASSES] builds an instance named after its key,
    holding the options it was given. *)
Lemma lookup_class_identity ty cls cfg :
  lookup_class PLUGIN_CLASSES ty = Some cls →
  plugin_name (cls cfg) = ty ∧ config (plugin_base (cls cfg)) = cfg.
Proof.
  unfold PLUGIN_CLASSES. simpl.
  repeat match goal with
         | |- context [String.eqb ?k ty] =>
             destruct (String.eqb_spec k ty) as [<-|?]; [by intros [= <-]|]
         end.
  done.
Qed.

Local Arguments lookup_class : simpl never.

Lemma plugin_set_enabled_identity v p :
  plugin_name (plugin_set_enabled v p) = plugin_name p ∧
  config (plugin_base (plugin_set_enabled v p)) = config (plugin_base p).
Proof. by destruct p. Qed.

(** The loop over the descriptors goes on after a prefix that ended well. *)
Lemma initialize_instances_app env pre l m out m1 out1 :
  initialize_instances env pre m out = (Ok true, m1, out1) →
  initialize_instances env (pre ++ l) m out = initialize_instances env l m1 out1.
Proof.
  revert m out. induction pre as [|d pre IH]; intros m out; simpl.
  - by intros [= <- <-].
  - destruct (lookup_class PLUGIN_CLASSES (d_type d)) as [cls|].
    + destruct (plugin_initialize _ _ _ _) as [[[b|e] p'] out2]; [|done].
      destruct (register_plugin _ _ _ _) as [[[[]|e] m2] out3]; [|done].
      apply IH.
    + unfold bind, print. apply IH.
Qed.

(** What a successful run of the loop registers: one entry per descriptor
    of a known type, in order, appended under ids that stay distinct. *)
Lemma initialize_instances_registry env ds m out m' out' :
  NoDup (registry m).*1 →
  initialize_instances env ds m out = (Ok true, m', out') →
  ∃ new,
    registry m' = registry m ++ new ∧
    Forall2 registered_as (List.filter type_valid ds) new ∧
    NoDup (registry m').*1.
Proof.
  revert m out. induction ds as [|d ds IH]; intros m out Hnd; simpl.
  - intros [= <- <-]. exists []. rewrite app_nil_r. by repeat split.
  - destruct (lookup_class PLUGIN_CLASSES (d_type d)) as [cls|] eqn:Hcls.
    + assert (Hvalid : type_valid d = true) by (apply type_valid_lookup; by eexists).
      rewrite Hvalid.
      destruct (plugin_initialize _ _ _ _) as [[[b|e] p'] out2] eqn:Hinit; [|done].
      destruct (register_plugin_spec p' (d_id d) m out2) as (id & -> & Hfree & Hid).
      intros Hrest. apply IH in Hrest as (new & Hreg & Hall & Hnd').
      * exists ((id, p') :: new). simpl in Hreg.
        rewrite Hreg, <- app_assoc. split; [done|]. split; [|by rewrite Hreg, <- app_assoc in Hnd'].
        apply plugin_initialize_identity in Hinit as [Hname Hcfg]. simpl in Hname, Hcfg.
        destruct (plugin_set_enabled_identity (VBool (d_enabled d)) (cls (d_config d)))
          as [Hname' Hcfg'].
        destruct (lookup_class_identity _ _ (d_config d) Hcls) as [Hname'' Hcfg''].
        constructor; [|done]. unfold registered_as, plugin_name in *. simpl.
        split; [congruence|]. split; [congruence|].
        unfold requested_id. by rewrite Hname, Hname', Hname'' in Hid.
      * simpl. rewrite fmap_app. simpl. apply NoDup_app. split; [done|].
        split; [|apply NoDup_singleton].
        intros x Hx Hx'. apply list_elem_of_singleton in Hx'. by subst.
    + assert (Hvalid : type_valid d = false).
      { destruct (type_valid d) eqn:E; [|done].
        apply type_valid_lookup in E as [? ?]. congruence. }
      rewrite Hvalid. unfold bind, print. by apply IH.
Qed.

(** With descriptors, [initialize_plugins] is the loop over them. *)
Lemma initialize_plugins_descriptors env m out :
  plugin_instances (app_config m) ≠ [] →
  initialize_plugins env m out =
    initialize_instances env (plugin_instances (app_config m)) m out.
Proof.
  intros Hne. unfold initialize_plugins, bind, gets.
  by destruct (plugin_instances (app_config m)).
Qed.

(** ** Claims on startup *)

(** C1, as the specification words it, fails: a descriptor with
    [enabled: false] of a known type is built, initialized and registered
    like any other. Here the only descriptor is a disabled clock, and the
    registry ends with one entry. *)
Lemma C1_disabled_descriptor_is_registered :
  ¬ registers_enabled_valid env_plain (config_of [disabled_clock] (VDict [])).
Proof.
  intros H.
  destruct (initialize_plugins env_plain
              (new_manager (config_of [disabled_clock] (VDict []))) [])
    as [[r m'] out'] eqn:E.
  vm_compute in E. injection E as <- <- <-.
  destruct (H _ _ eq_refl) as [HF _].
  vm_compute in HF. inversion HF.
Qed.

(** C1 (amended): for every non-empty descriptor list, a run of
    [initialize_plugins] that returns [True] has registered exactly the
    descriptors whose type is in the known-type registry, enabled or not,
    in order, each under its own id: the requested id or that id with a
    suffix [_N]. *)
Theorem C1_registers_type_valid_descriptors env cfg m' out' :
  plugin_instances cfg ≠ [] →
  initialize_plugins env (new_manager cfg) [] = (Ok true, m', out') →
  Forall2 registered_as (List.filter type_valid (plugin_instances cfg)) (registry m')
  ∧ NoDup (registry m').*1.
Proof.
  intros Hne Hrun. rewrite initialize_plugins_descriptors in Hrun by done.
  apply initialize_instances_registry in Hrun as (new & Hreg & Hall & Hnd).
  - simpl in Hreg. split; [by rewrite Hreg|done].
  - apply NoDup_nil_2.
Qed.

Lemma C1_registers_type_valid_descriptors_witness :
  let cfg := config_of [disabled_clock; tail_descriptor; good_cpu; good_clock] (VDict []) in
  let run := initialize_plugins env_plain (new_manager cfg) [] in
  (registry run.1.2).*1 = ["clock_main"; "cpu"; "c"]
  ∧ Forall2 registered_as (List.filter type_valid (plugin_instances cfg)) (registry run.1.2)
  ∧ NoDup (registry run.1.2).*1.
Proof.
  intros cfg run. split; [by vm_compute|].
  apply (C1_registers_type_valid_descriptors env_plain cfg run.1.2 run.2).
  - done.
  - by vm_compute.
Defined.

(** C3, as the specification words it, fails: without descriptors the
    legacy path runs, and there a failing [initialize] is printed and
    startup goes on. Here the clock's legacy options hold [position: 5],
    [tuple(5)] raises [TypeError], and [initialize_plugins] returns
    [True]. *)
Lemma C3_legacy_failure_is_not_fatal :
  ¬ initialize_failure_fatal env_plain (config_of [] legacy_broken_clock).
Proof.
  intros H.
  destruct (initialize_plugins env_plain
              (new_manager (config_of [] legacy_broken_clock)) [])
    as [[r m'] out'] eqn:E.
  vm_compute in E. injection E as <- <- <-.
  apply (H _ _ _ "clock" TypeError eq_refl); [|done].
  left. set_solver.
Qed.

(** C3 (amended): with descriptors, an exception of [initialize] for a
    descriptor of a known type ends [initialize_plugins] with [False]
    there and then, the entries registered before it kept and the
    descriptors after it not looked at; a descriptor of an unknown type
    costs a warning and the loop goes on with the next one. Without
    descriptors (the legacy path) [initialize_plugins] never returns
    [False]. *)
Theorem C3_initialize_failure_policy env :
  (∀ m pre d rest out m1 out1 cls e p' out2,
     plugin_instances (app_config m) = pre ++ d :: rest →
     initialize_instances env pre m out = (Ok true, m1, out1) →
     lookup_class PLUGIN_CLASSES (d_type d) = Some cls →
     plugin_initialize env (app_config m1)
       (plugin_set_enabled (VBool (d_enabled d)) (cls (d_config d))) out1
       = (Raise e, p', out2) →
     initialize_plugins env m out
       = (Ok false, m1, out2 ++ [ErrInitialize (d_type d) (d_id d) e]))
  ∧ (∀ m pre d rest out m1 out1,
       plugin_instances (app_config m) = pre ++ d :: rest →
       initialize_instances env pre m out = (Ok true, m1, out1) →
       lookup_class PLUGIN_CLASSES (d_type d) = None →
       initialize_plugins env m out
         = initialize_instances env rest m1 (out1 ++ [WarnUnknownType (d_type d)]))
  ∧ (∀ m out r m' out',
       plugin_instances (app_config m) = [] →
       initialize_plugins env m out = (Ok r, m', out') →
       r = true).
Proof.
  split; [|split].
  - intros m pre d rest out m1 out1 cls e p' out2 Hm Hpre Hcls Hinit.
    rewrite initialize_plugins_descriptors, Hm by (rewrite Hm; by destruct pre).
    rewrite (initialize_instances_app _ _ _ _ _ _ _ Hpre). simpl.
    by rewrite Hcls, Hinit.
  - intros m pre d rest out m1 out1 Hm Hpre Hcls.
    rewrite initialize_plugins_descriptors, Hm by (rewrite Hm; by destruct pre).
    rewrite (initialize_instances_app _ _ _ _ _ _ _ Hpre). simpl.
    by rewrite Hcls.
  - intros m out r m' out' Hm. unfold initialize_plugins, bind, gets. rewrite Hm.
    destruct (_initialize_legacy_plugins env m out) as [[[[]|e] m1] out1]; [|done].
    by intros [= <- <- <-].
Qed.

Lemma C3_initialize_failure_policy_witness :
  let m := new_manager (config_of [good_cpu; broken_clock; good_clock] (VDict [])) in
  let u := new_manager (config_of [good_cpu; tail_descriptor] (VDict [])) in
  let l := new_manager (config_of [] legacy_broken_clock) in
  (initialize_plugins env_plain m []).1.1 = Ok false
  ∧ ((registry (initialize_plugins env_plain m []).1.2).*1 = ["cpu"])
  ∧ (initialize_plugins env_plain u []).1.1 = Ok true
  ∧ (initialize_plugins env_plain l []).1.1 = Ok true.
Proof.
  intros m u l.
  destruct (C3_initialize_failure_policy env_plain) as (Habort & Hskip & Hlegacy).
  set (pre := initialize_instances env_plain [good_cpu] m []).
  set (ini := plugin_initialize env_plain (app_config pre.1.2)
                (plugin_set_enabled (VBool true)
                   (Clock (ClockPlugin.init (d_config broken_clock)))) pre.2).
  assert (Hm : initialize_plugins env_plain m []
               = (Ok false, pre.1.2, ini.2 ++ [ErrInitialize "clock" (Some "c") TypeError])).
  { apply (Habort m [good_cpu] broken_clock [good_clock] [] pre.1.2 pre.2
             (λ cfg, Clock (ClockPlugin.init cfg)) TypeError ini.1.2 ini.2).
    - done.
    - by vm_compute.
    - done.
    - by vm_compute. }
  set (pre' := initialize_instances env_plain [good_cpu] u []).
  assert (Hu : initialize_plugins env_plain u []
               = initialize_instances env_plain [] pre'.1.2
                   (pre'.2 ++ [WarnUnknownType "tail"])).
  { apply (Hskip u [good_cpu] tail_descriptor [] [] pre'.1.2 pre'.2).
    - done.
    - by vm_compute.
    - done. }
  split; [by rewrite Hm|]. split; [rewrite Hm; by vm_compute|]. split; [by rewrite Hu|].
  destruct (initialize_plugins env_plain l []) as [[[r|e] m'] out'] eqn:E.
  - by rewrite (Hlegacy l [] r m' out' eq_refl E).
  - vm_compute in E. discriminate.
Defined.

(** C9: the known-type registry has the five keys clock, cpu, overlay,
    crop and tlp, while the package exports [TailPlugin]; a descriptor of
    type [tail] therefore takes the unknown-type branch of
    [initialize_plugins]: a warning is printed, nothing is built or
    registered for it, and the loop goes on with the descriptors after
    it. When it is the only descriptor, startup returns [True] with the
    registry as it was. *)
Theorem C9_tail_is_an_unknown_type env w h a legacy id en cfg rest reg out :
  PLUGIN_CLASSES.*1 = ["clock"; "cpu"; "overlay"; "crop"; "tlp"]
  ∧ "TailPlugin" ∈ plugins_all
  ∧ lookup_class PLUGIN_CLASSES "tail" = None
  ∧ (let m := mkManager
                (mkAppConfig w h a (mkDescriptor "tail" id en cfg :: rest) legacy) reg in
     initialize_plugins env m out
       = initialize_instances env rest m (out ++ [WarnUnknownType "tail"]))
  ∧ (let m := mkManager
                (mkAppConfig w h a [mkDescriptor "tail" id en cfg] legacy) reg in
     initialize_plugins env m out = (Ok true, m, out ++ [WarnUnknownType "tail"])).
Proof.
  split; [done|]. split; [set_solver|]. split; [done|]. split; done.
Qed.

(** ** The plugin classes *)

Global Instance keeps_level_refl : Reflexive keeps_level.
Proof. by intros [s out]. Qed.

Global Instance keeps_level_trans : Transitive keeps_level.
Proof.
  intros x y z [H1 H2] [H3 H4]. split; [congruence|]. by etrans.
Qed.

Lemma Tlp_validate_unrecognized {S} (s : string) (st : S) out :
  upper s ∉ TLPPlugin.valid_levels →
  TLPPlugin._validate_tlp_level (VStr s) st out
    = (Ok TLPPlugin.TLP_CLEAR, st, out ++ [WarnTlpLevel (VStr s)]).
Proof.
  intros Hs. unfold TLPPlugin._validate_tlp_level.
  by rewrite bool_decide_eq_false_2.
Qed.

(** C8: for a level string that [_validate_tlp_level] does not recognize
    (its upper-case form is none of RED, AMBER, GREEN, CLEAR), validation
    returns CLEAR and prints the warning without raising; [set_tlp_level]
    ends without raising, with the warning printed and the level CLEAR;
    and [initialize] with that string as [default_tlp] leaves the level
    CLEAR and the warning on the output, however the rest of it ends. *)
Theorem C8_unrecognized_level_falls_back_to_clear (s : string) :
  upper s ∉ TLPPlugin.valid_levels →
  (∀ (self : TLPPlugin.t) out,
     TLPPlugin._validate_tlp_level (VStr s) self out
       = (Ok TLPPlugin.TLP_CLEAR, self, out ++ [WarnTlpLevel (VStr s)]))
  ∧ (∀ self out, ∃ changed self',
       TLPPlugin.set_tlp_level (VStr s) self out
         = (Ok changed, self', out ++ [WarnTlpLevel (VStr s)])
       ∧ TLPPlugin.get_tlp_level self' = TLPPlugin.TLP_CLEAR)
  ∧ (∀ env app cfg out r self' out',
       cfg !! "default_tlp" = Some (VStr s) →
       TLPPlugin.initialize env app (TLPPlugin.init cfg) out = (r, self', out') →
       TLPPlugin.get_tlp_level self' = TLPPlugin.TLP_CLEAR
       ∧ WarnTlpLevel (VStr s) ∈ out').
Proof.
  intros Hs. split; [|split].
  - intros self out. by apply Tlp_validate_unrecognized.
  - intros self out. unfold TLPPlugin.set_tlp_level, bind.
    rewrite Tlp_validate_unrecognized by done. unfold gets.
    destruct (String.eqb_spec TLPPlugin.TLP_CLEAR (TLPPlugin.tlp_level self)) as [He|He];
      simpl; eauto.
  - intros env app cfg out r self' out' Hcfg.
    unfold TLPPlugin.initialize. unfold bind at 1. unfold gets at 1.
    unfold bind at 1. cbn [TLPPlugin.init TLPPlugin.base Plugin_init config].
    unfold get at 1. rewrite Hcfg. cbn [default from_option]. unfold id at 1.
    rewrite Tlp_validate_unrecognized by done.
    unfold bind at 1. unfold modify at 1.
    match goal with
    | |- ?c ?st ?o = _ → _ =>
        assert (Hrest : respects keeps_level c)
    end.
    { respects_tac; by intros. }
    intros Hrun. apply Hrest in Hrun as [Hlevel Hout]. simpl in Hlevel, Hout.
    split; [done|]. destruct Hout as [k ->]. set_solver.
Qed.

Lemma C8_unrecognized_level_falls_back_to_clear_witness :
  let cfg : gmap string value := {[ "default_tlp" := VStr "purple" ]} in
  let run := TLPPlugin.initialize env_plain plain_config (TLPPlugin.init cfg) [] in
  run.1.1 = Ok true
  ∧ TLPPlugin.get_tlp_level run.1.2 = "CLEAR"
  ∧ WarnTlpLevel (VStr "purple") ∈ run.2.
Proof.
  intros cfg run. split; [by vm_compute|].
  assert (Hs : upper "purple" ∉ TLPPlugin.valid_levels).
  { apply (bool_decide_eq_false_1 (upper "purple" ∈ TLPPlugin.valid_levels)).
    by vm_compute. }
  apply (proj2 (proj2 (C8_unrecognized_level_falls_back_to_clear "purple" Hs))
           env_plain plain_config cfg [] run.1.1).
  - done.
  - by vm_compute.
Defined.

(** C2 (what the code does): with a named zone configured and a format
    string that has neither [%z] nor [%Z], [_get_current_time] returns the
    naive local time after a single reading of the clock: the zone is not
    resolved, the zone database is not consulted, and nothing is printed,
    whether the name is a known zone or not. *)
Theorem C2_named_zone_ignored_without_zone_directive env self w out name fmt :
  ClockPlugin.timezone self = VStr name →
  ClockPlugin.format_str self = VStr fmt →
  lower name ≠ "local" →
  contains "%z" fmt = false →
  contains "%Z" fmt = false →
  ClockPlugin._get_current_time env (self, w) out
    = (Ok NaiveLocal, (self, touched ReadClock w), out).
Proof.
  intros Htz Hfmt Hlocal Hz HZ.
  unfold ClockPlugin._get_current_time, bind, self_, gets, lift. simpl.
  rewrite Hfmt. simpl. rewrite Hz. simpl. rewrite HZ. simpl. rewrite Htz.
  destruct (String.eqb_spec (lower name) "local") as [?|_]; [done|].
  reflexivity.
Qed.

Lemma C2_named_zone_ignored_without_zone_directive_witness :
  ClockPlugin.timezone utc_clock = VStr "UTC"
  ∧ ClockPlugin.format_str utc_clock = VStr "%H:%M:%S"
  ∧ ClockPlugin._get_current_time env_plain (utc_clock, one_frame) []
      = (Ok NaiveLocal, (utc_clock, touched ReadClock one_frame), []).
Proof.
  split; [by vm_compute|]. split; [by vm_compute|].
  apply (C2_named_zone_ignored_without_zone_directive
           env_plain utc_clock one_frame [] "UTC" "%H:%M:%S").
  - by vm_compute.
  - by vm_compute.
  - by vm_compute.
  - by vm_compute.
  - by vm_compute.
Defined.

(** With a zone directive in the format the named zone is attached, and
    a name the zone database does not know costs a warning and falls back
    to naive local time. *)
Lemma Clock_named_zone_with_zone_directive env self w out name fmt :
  ClockPlugin.timezone self = VStr name →
  ClockPlugin.format_str self = VStr fmt →
  lower name ≠ "local" →
  upper name ≠ "UTC" →
  (contains "%z" fmt || contains "%Z" fmt)%bool = true →
  ClockPlugin._get_current_time env (self, w) out =
    match zoneinfo_error env name with
    | None =>
        (Ok (AwareZone name), (self, touched ReadClock (touched ReadZoneInfo w)), out)
    | Some KeyError =>
        (Ok NaiveLocal, (self, touched ReadClock (touched ReadZoneInfo w)),
         out ++ [WarnTimezoneUnknown name])
    | Some e => (Raise e, (self, touched ReadZoneInfo w), out)
    end.
Proof.
  intros Htz Hfmt Hlocal Hutc Hneeds.
  unfold ClockPlugin._get_current_time, bind, self_, gets, lift. simpl.
  rewrite Hfmt. simpl.
  destruct (contains "%z" fmt); simpl; [|simpl in Hneeds; rewrite Hneeds];
    rewrite Htz;
    (destruct (String.eqb_spec (lower name) "local") as [?|_]; [done|]);
    (destruct (String.eqb_spec (upper name) "UTC") as [?|_]; [done|]);
    simpl; by destruct (zoneinfo_error env name) as [[]|].
Qed.

(** C5, as the specification words it, fails for the crop class: its
    [process_frame] tests no flag. A crop instance configured with
    [enabled: false] turns the 640x480 frame into a new 1280x720 image. *)
Lemma C5_disabled_crop_is_not_identity :
  ¬ off_is_identity env_plain disabled_crop.
Proof.
  intros H.
  assert (Hoff : switched_off disabled_crop) by (split; [by vm_compute|done]).
  specialize (H Hoff 0%nat None one_frame []).
  vm_compute in H. discriminate H.
Qed.

Example disabled_crop_resizes :
  (plugin_process_frame env_plain 0 None (disabled_crop, one_frame) []).1.1 = Ok 1%nat
  ∧ images (plugin_process_frame env_plain 0 None (disabled_crop, one_frame) []).1.2.2
    = [camera_frame; mkImage 1280 720 [Captured 0; Fit 1280 720]].
Proof. split; by vm_compute. Qed.

(** C5 (amended): for an instance of the clock, load-meter or badge class
    whose [show] flag is off, and for an overlay instance whose [enabled]
    flag is off, [process_frame] returns the frame it was given, and the
    instance, every image, the record of accesses to the outside world
    and the output are left as they were. (The crop class has no such
    flag.) *)
Theorem C5_gated_process_frame_is_identity env p frame draw w out :
  gate_off p →
  plugin_process_frame env frame draw (p, w) out = (Ok frame, (p, w), out).
Proof.
  destruct p as [c|c|c|c|c]; simpl; intros Hoff; [| | |done|];
    unfold plugin_process_frame, on_instance_world; simpl;
    unfold ClockPlugin.process_frame, CPUPlugin.process_frame,
      OverlayPlugin.process_frame, TLPPlugin.process_frame, bind, self_, gets; simpl;
    rewrite Hoff; simpl; by destruct w.
Qed.

Lemma C5_gated_process_frame_is_identity_witness :
  let hidden_clock :=
    Clock (ClockPlugin.initialize env_plain plain_config
             (ClockPlugin.init {[ "show" := VBool false ]}) []).1.2 in
  plugin_process_frame env_plain 0 (Some 0%nat) (hidden_clock, one_frame) []
    = (Ok 0%nat, (hidden_clock, one_frame), []).
Proof.
  intros hidden_clock.
  apply (C5_gated_process_frame_is_identity env_plain hidden_clock).
  by vm_compute.
Defined.

(** ** The overlay without its image *)

Lemma Overlay_initialize_missing_file env app cfg out :
  path_exists env (get cfg "file" (VStr "moldura.png")) = Ok false →
  ∃ self',
    OverlayPlugin.initialize env app (OverlayPlugin.init cfg) out
      = (Ok true, self', out ++ [WarnOverlayFileNotFound (get cfg "file" (VStr "moldura.png"))])
    ∧ OverlayPlugin.overlay_image self' = None
    ∧ name (OverlayPlugin.base self') = "overlay".
Proof.
  intros Hmissing.
  unfold OverlayPlugin.initialize, bind, gets, modify, lift, print. simpl.
  destruct (has_key cfg "enabled"); [|destruct (has_key cfg "show_by_default")];
    simpl; rewrite Hmissing; simpl; eauto.
Qed.

Lemma Overlay_without_image_is_noop env self frame draw w out :
  OverlayPlugin.overlay_image self = None →
  OverlayPlugin.process_frame env frame draw (self, w) out = (Ok frame, (self, w), out).
Proof.
  intros Hnone. unfold OverlayPlugin.process_frame, bind, self_, gets. simpl.
  rewrite Hnone. simpl. rewrite orb_true_r. by destruct w.
Qed.

(** ** The manager's [process_frame] *)

Lemma find_crop_Some items id p :
  find_crop items = Some (id, p) →
  (id, p) ∈ items ∧ plugin_name p = "crop".
Proof.
  induction items as [|[k q] rest IH]; simpl; [done|].
  destruct (String.eqb_spec (plugin_name q) "crop") as [Hq|Hq].
  - intros [= <- <-]. split; [left|done].
  - intros H. apply IH in H as [? ?]. split; [by right|done].
Qed.




Lemma update_entry_fst id p items : (update_entry id p items).*1 = items.*1.
Proof.
  unfold update_entry. rewrite <- list_fmap_compose. apply list_fmap_ext.
  intros _ [k q] _. simpl. by destruct (String.eqb_spec k id) as [->|?].
Qed.


(** ** The crop step and disabled entries *)

Lemma Crop_process_frame env frame draw c w out W H img :
  CropPlugin.target_size c = (VInt W, VInt H) →
  images w !! frame = Some img →
  plugin_process_frame env frame draw (Crop c, w) out
    = (Ok (length (images w)),
       (Crop c, {| images := images w ++ [im_fit img W H]; accesses := accesses w |}),
       out).
Proof.
  intros Hsize Himg.
  unfold plugin_process_frame, on_instance_world. simpl.
  unfold CropPlugin.process_frame, bind, self_, gets, lift, deref, alloc. simpl.
  rewrite Hsize. simpl. by rewrite Himg.
Qed.




(** ** A pipeline with an entry that does nothing *)

Lemma find_crop_insert l1 id p l2 :
  plugin_name p ≠ "crop" →
  find_crop (l1 ++ (id, p) :: l2) = find_crop (l1 ++ l2).
Proof.
  intros Hp. induction l1 as [|[k q] l1 IH]; simpl.
  - by destruct (String.eqb_spec (plugin_name p) "crop").
  - by rewrite IH.
Qed.

(** The second loop passes over an entry that is the crop entry or does
    nothing. *)
Lemma apply_plugins_insert env cn draw l1 id p l2 frame w out :
  cn = Some id ∨ noop env p →
  visible (apply_plugins env cn draw (l1 ++ (id, p) :: l2) frame w out)
  = visible (apply_plugins env cn draw (l1 ++ l2) frame w out).
Proof.
  intros Hp. revert frame w out.
  induction l1 as [|[k q] l1 IH]; intros frame w out; simpl.
  - destruct (bool_decide (cn = Some id) || negb (truthy (plugin_enabled p)))%bool eqn:Hskip.
    + done.
    + destruct Hp as [->|Hp].
      * by rewrite bool_decide_eq_true_2 in Hskip.
      * by rewrite Hp.
  - destruct (bool_decide (cn = Some k) || negb (truthy (plugin_enabled q)))%bool.
    + exact (IH frame w out).
    + destruct (plugin_process_frame env frame (Some draw) (q, w) out)
        as [[[f|e] [q' w']] out']; [|done].
      exact (IH f w' out').
Qed.

Lemma process_frame_calls_insert env app l1 id p l2 frame w out :
  plugin_name p ≠ "crop" →
  noop env p →
  visible (process_frame_calls env frame (mkManager app (l1 ++ (id, p) :: l2)) w out)
  = visible (process_frame_calls env frame (mkManager app (l1 ++ l2)) w out).
Proof.
  intros Hname Hnoop. unfold process_frame_calls. simpl.
  rewrite (find_crop_insert _ _ _ _ Hname).
  destruct (find_crop (l1 ++ l2)) as [[c q]|]; simpl.
  - destruct (plugin_process_frame env frame None (q, w) out)
      as [[[f|e] [q' w']] out']; simpl; [|done].
    unfold update_entry. rewrite !fmap_app, fmap_cons. simpl.
    destruct (String.eqb_spec id c) as [->|Hne].
    + apply (apply_plugins_insert env (Some c) f _ c q'). by left.
    + apply (apply_plugins_insert env (Some c) f _ id p). by right.
  - apply (apply_plugins_insert env None frame l1 id p l2). by right.
Qed.

(** C7: when the image file of an overlay does not exist at the time of
    [initialize], [initialize] prints the warning and returns [True], and
    the instance it leaves is a no-op: its [process_frame] returns every
    frame it is given and changes nothing. Hence one call of the
    manager's [process_frame] on a registry holding that overlay gives
    the same result, the same images and the same output as on the
    registry without it. *)
Theorem C7_overlay_without_file_is_noop env app cfg out0 :
  path_exists env (get cfg "file" (VStr "moldura.png")) = Ok false →
  ∃ self,
    OverlayPlugin.initialize env app (OverlayPlugin.init cfg) out0
      = (Ok true, self,
         out0 ++ [WarnOverlayFileNotFound (get cfg "file" (VStr "moldura.png"))])
    ∧ (∀ env' frame draw w out,
         plugin_process_frame env' frame draw (Overlay self, w) out
           = (Ok frame, (Overlay self, w), out))
    ∧ (∀ env' app' l1 l2 id frame w out,
         let with_overlay := mkManager app' (l1 ++ (id, Overlay self) :: l2) in
         let without := mkManager app' (l1 ++ l2) in
         (process_frame env' frame (with_overlay, w) out).1.1
           = (process_frame env' frame (without, w) out).1.1
         ∧ (process_frame env' frame (with_overlay, w) out).1.2.2
           = (process_frame env' frame (without, w) out).1.2.2
         ∧ (process_frame env' frame (with_overlay, w) out).2
           = (process_frame env' frame (without, w) out).2).
Proof.
  intros Hmissing.
  destruct (Overlay_initialize_missing_file env app cfg out0 Hmissing)
    as (self & Hinit & Hnone & Hname).
  exists self. split; [exact Hinit|].
  assert (Hnoop : ∀ env', noop env' (Overlay self)).
  { intros env' frame draw w out.
    unfold plugin_process_frame, on_instance_world. simpl.
    by rewrite (Overlay_without_image_is_noop env' self frame draw w out Hnone). }
  split; [exact Hnoop|].
  intros env' app' l1 l2 id frame w out with_overlay without.
  assert (Hvis : visible (process_frame_calls env' frame with_overlay w out)
                 = visible (process_frame_calls env' frame without w out)).
  { apply process_frame_calls_insert; [|apply Hnoop].
    unfold plugin_name. simpl. rewrite Hname. done. }
  unfold visible in Hvis. unfold process_frame. simpl.
  by injection Hvis as -> -> ->.
Qed.

Lemma C7_overlay_without_file_is_noop_witness :
  let without := mkManager (app_config clock_and_overlay) (registry clock_only) in
  (process_frame env_plain 0 (clock_and_overlay, one_frame) []).1.1
    = (process_frame env_plain 0 (without, one_frame) []).1.1
  ∧ (process_frame env_plain 0 (clock_and_overlay, one_frame) []).1.2.2
    = (process_frame env_plain 0 (without, one_frame) []).1.2.2
  ∧ (process_frame env_plain 0 (clock_and_overlay, one_frame) []).2
    = (process_frame env_plain 0 (without, one_frame) []).2.
Proof.
  intros without.
  destruct (C7_overlay_without_file_is_noop env_plain
              (config_of [good_clock; watermark] (VDict [])) (d_config watermark) [])
    as (self & Hinit & _ & Hpipe).
  - by vm_compute.
  - assert (Hself : self = (OverlayPlugin.initialize env_plain
                       (config_of [good_clock; watermark] (VDict []))
                       (OverlayPlugin.init (d_config watermark)) []).1.2)
      by (by rewrite Hinit).
    specialize (Hpipe env_plain (app_config clock_and_overlay) (registry clock_only) []
                  "overlay" 0%nat one_frame []).
    cbv zeta in Hpipe.
    assert (Hwith : mkManager (app_config clock_and_overlay)
                      (registry clock_only ++ [("overlay", Overlay self)])
                    = clock_and_overlay).
    { rewrite Hself. by vm_compute. }
    rewrite Hwith, app_nil_r in Hpipe. exact Hpipe.
Defined.

(** ** The tail plugin's [update] *)

(** [_read_file] ends without an exception, prints nothing, and writes
    only the recorded size and time and the cached lines. *)
Lemma Tail_read_file_ok env s out :
  ∃ s',
    TailPlugin._read_file env s out = (Ok tt, s', out)
    ∧ tail_settings s' = tail_settings s
    ∧ TailPlugin._last_update s' = TailPlugin._last_update s.
Proof.
  unfold TailPlugin._read_file, bind, gets. simpl.
  destruct (files env (TailPlugin.file_path s)) as [|size mtime contents].
  - unfold modify. eauto.
  - unfold try_except, bind, gets, modify, lift. simpl.
    destruct ((size =? TailPlugin._last_file_size s)%Z
              && Qeq_bool mtime (TailPlugin._last_mtime s))%bool; simpl; [by eauto|].
    destruct contents as [ls|e]; simpl; [|by eauto].
    destruct (TailPlugin.select (TailPlugin.following s) (TailPlugin.lines s) ls);
      simpl; by eauto.
Qed.

(** A file whose size or modification time is not the recorded one is
    read, and the cached lines become the selected lines of the file
    without their line ends. *)
Lemma Tail_read_file_changed env s out size mtime ls n :
  files env (TailPlugin.file_path s) = Present size mtime (Ok ls) →
  size ≠ TailPlugin._last_file_size s ∨ ¬ (mtime == TailPlugin._last_mtime s)%Q →
  TailPlugin.lines s = VInt n →
  TailPlugin._read_file env s out
    = (Ok tt,
       TailPlugin.mk (TailPlugin.file_path s) (TailPlugin.lines s)
         (TailPlugin.update_interval s) (TailPlugin.following s) size mtime
         (tail_of (TailPlugin.following s) n ls) (TailPlugin._last_update s),
       out).
Proof.
  intros Hfile Hchanged Hn.
  unfold TailPlugin._read_file, bind, gets. simpl. rewrite Hfile.
  unfold try_except, bind, gets, modify, lift. simpl.
  assert (((size =? TailPlugin._last_file_size s)%Z
           && Qeq_bool mtime (TailPlugin._last_mtime s))%bool = false) as ->.
  { apply andb_false_iff. destruct Hchanged as [Hs|Hm].
    - left. by apply Z.eqb_neq.
    - right. apply not_true_is_false. intros H. by apply Hm, Qeq_bool_iff. }
  simpl. unfold TailPlugin.select. rewrite Hn at 1. simpl.
  unfold tail_of.
  destruct (n <? Z.of_nat (length ls))%Z; simpl;
    unfold TailPlugin.set_content, TailPlugin.set_last_mtime,
      TailPlugin.set_last_file_size; simpl; done.
Qed.

(** [update] raises on an interval that is no number; otherwise it
    either does nothing or runs [_read_file] and records the time of the
    call. *)
Lemma Tail_update_spec env s out :
  TailPlugin.update env s out
  = match num_of (TailPlugin.update_interval s) with
    | Some x =>
        if Qle_bool (Q_of_num x) (time_time env - TailPlugin._last_update s)
        then (Ok tt,
              TailPlugin.set_last_update (time_time env)
                (TailPlugin._read_file env s out).1.2,
              out)
        else (Ok tt, s, out)
    | None => (Raise TypeError, s, out)
    end.
Proof.
  unfold TailPlugin.update, bind at 1 2 3, gets, lift, TailPlugin.py_ge. simpl.
  destruct (num_of (TailPlugin.update_interval s)) as [x|]; [|done].
  destruct (Qle_bool _ _); [|done].
  destruct (Tail_read_file_ok env s out) as (s' & Hread & _).
  unfold bind, modify. by rewrite Hread.
Qed.

Lemma Tail_update_settings env s out :
  tail_settings (TailPlugin.update env s out).1.2 = tail_settings s.
Proof.
  rewrite Tail_update_spec.
  destruct (num_of (TailPlugin.update_interval s)) as [x|]; [|done].
  destruct (Qle_bool _ _); [|done].
  destruct (Tail_read_file_ok env s out) as (s' & Hread & Hset & _).
  rewrite Hread. simpl. by rewrite <- Hset.
Qed.

Lemma Tail_update_output env s out : (TailPlugin.update env s out).2 = out.
Proof.
  rewrite Tail_update_spec.
  destruct (num_of (TailPlugin.update_interval s)) as [x|]; [|done].
  by destruct (Qle_bool _ _).
Qed.

(** The time recorded after a call is not later than the call when that
    held before it. *)
Lemma Tail_update_last_update env s out :
  (TailPlugin._last_update s <= time_time env)%Q →
  (TailPlugin._last_update (TailPlugin.update env s out).1.2 <= time_time env)%Q.
Proof.
  intros Hle. rewrite Tail_update_spec.
  destruct (num_of (TailPlugin.update_interval s)) as [x|]; [|done].
  destruct (Qle_bool _ _); [|done].
  simpl. apply Qle_refl.
Qed.

(** C6, the throttling half as the claim words it: two calls a fifth of
    a second apart, with an interval of one second, and the second call
    reads the file. The first call came nine tenths of a second after the
    refresh and was held back; the second is more than a second after
    the refresh. *)
Lemma C6_close_calls_can_refresh : ¬ close_calls_keep_content tail_at_100.
Proof.
  intros H.
  specialize (H (env_at (1009 # 10) log_after) (env_at (1011 # 10) log_after) []
                (NInt 1) eq_refl).
  assert (Hbad : TailPlugin._content
                   (TailPlugin.update (env_at (1011 # 10) log_after)
                      (TailPlugin.update (env_at (1009 # 10) log_after) tail_at_100 []).1.2
                      (TailPlugin.update (env_at (1009 # 10) log_after) tail_at_100 []).2).1.2
                 = TailPlugin._content
                     (TailPlugin.update (env_at (1009 # 10) log_after) tail_at_100 []).1.2).
  { apply H; by vm_compute. }
  vm_compute in Hbad. discriminate Hbad.
Qed.

(** C6 (amended): the interval is measured from the time recorded at the
    last call that ran [_read_file]. For two calls of [update] on an
    instance whose [update_interval] is a number, the first at a time not
    before the recorded one:
    - when the second comes at least [update_interval] after the first
      and finds the file with a size or a modification time other than
      the recorded ones, the cached lines become the last (or, when not
      following, the first) [lines] lines of the file without their line
      ends, and the size, the modification time and the time of the call
      are recorded;
    - when the first call ran [_read_file] and the second comes less than
      [update_interval] after it, the second changes nothing;
    - in general a call less than [update_interval] after the recorded
      time changes nothing, whatever the file holds. *)
Theorem C6_tail_refresh_and_throttle env1 env2 s out x :
  num_of (TailPlugin.update_interval s) = Some x →
  (TailPlugin._last_update s <= time_time env1)%Q →
  let s1 := (TailPlugin.update env1 s out).1.2 in
  (∀ size mtime ls n,
     (Q_of_num x <= time_time env2 - time_time env1)%Q →
     files env2 (TailPlugin.file_path s) = Present size mtime (Ok ls) →
     size ≠ TailPlugin._last_file_size s1 ∨ ¬ (mtime == TailPlugin._last_mtime s1)%Q →
     TailPlugin.lines s = VInt n →
     TailPlugin.update env2 s1 out
       = (Ok tt,
          TailPlugin.mk (TailPlugin.file_path s) (TailPlugin.lines s)
            (TailPlugin.update_interval s) (TailPlugin.following s) size mtime
            (tail_of (TailPlugin.following s) n ls) (time_time env2),
          out))
  ∧ ((Q_of_num x <= time_time env1 - TailPlugin._last_update s)%Q →
     (time_time env2 - time_time env1 < Q_of_num x)%Q →
     TailPlugin.update env2 s1 out = (Ok tt, s1, out))
  ∧ ((time_time env2 - TailPlugin._last_update s1 < Q_of_num x)%Q →
     TailPlugin.update env2 s1 out = (Ok tt, s1, out)).
Proof.
  intros Hx Hmono s1.
  pose proof (Tail_update_settings env1 s out) as Hset.
  pose proof (Tail_update_last_update env1 s out Hmono) as Hlast.
  fold s1 in Hset, Hlast.
  unfold tail_settings in Hset. injection Hset as Hpath Hlines Hint Hfol.
  assert (Hthrottle :
            (time_time env2 - TailPlugin._last_update s1 < Q_of_num x)%Q →
            TailPlugin.update env2 s1 out = (Ok tt, s1, out)).
  { intros Hlt. rewrite Tail_update_spec, Hint, Hx.
    destruct (Qle_bool _ _) eqn:Hle; [|done].
    apply Qle_bool_iff in Hle. exfalso. lra. }
  split; [|split; [|exact Hthrottle]].
  - intros size mtime ls n Hfar Hfile Hchanged Hn.
    rewrite Tail_update_spec, Hint, Hx.
    assert (Qle_bool (Q_of_num x)
              (time_time env2 - TailPlugin._last_update s1) = true) as ->.
    { apply Qle_bool_iff. lra. }
    rewrite <- Hpath in Hfile. rewrite <- Hlines in Hn.
    rewrite (Tail_read_file_changed env2 s1 out size mtime ls n Hfile Hchanged Hn).
    simpl. unfold TailPlugin.set_last_update. simpl.
    by rewrite Hpath, Hlines, Hint, Hfol.
  - intros Hran Hnear. apply Hthrottle.
    assert (Hs1 : TailPlugin._last_update s1 = time_time env1).
    { unfold s1. rewrite Tail_update_spec, Hx.
      assert (Qle_bool (Q_of_num x)
                (time_time env1 - TailPlugin._last_update s) = true) as ->
        by by apply Qle_bool_iff.
      done. }
    by rewrite Hs1.
Qed.

Lemma C6_tail_refresh_and_throttle_witness :
  let first := env_at (1009 # 10) log_before in
  let second := env_at (1021 # 10) log_after in
  TailPlugin.update second (TailPlugin.update first tail_at_100 []).1.2 []
  = (Ok tt,
     TailPlugin.mk "app.log" (VInt 2) (VInt 1) true 14 1001
       [TailPlugin.FileLine "two"; TailPlugin.FileLine "three"] (1021 # 10),
     []).
Proof.
  intros first second.
  assert (Hmono : (TailPlugin._last_update tail_at_100 <= time_time first)%Q)
    by by vm_compute.
  destruct (C6_tail_refresh_and_throttle first second tail_at_100 [] (NInt 1)
              eq_refl Hmono)
    as (Hrefresh & _ & _).
  apply (Hrefresh 14%Z 1001%Q
           ["one" +:+ newline; "two" +:+ newline; "three" +:+ newline] 2%Z).
  - by vm_compute.
  - done.
  - left. by vm_compute.
  - done.
Defined.

(** ** Statements that end without an exception *)

Section on_success.
Context {S : Type}.
Implicit Types P I : S → Prop.

Lemma on_success_ret {A} P (a : A) (Q : A → S → Prop) :
  (∀ s, P s → Q a s) → on_success P (ret a) Q.
Proof. intros H s out a' s' out' HP [= <- <- _]. by apply H. Qed.

Lemma on_success_raise {A} P e (Q : A → S → Prop) : on_success P (raise e) Q.
Proof. by intros s out a' s' out' HP. Qed.

Lemma on_success_gets {A} P (f : S → A) (Q : A → S → Prop) :
  (∀ s, P s → Q (f s) s) → on_success P (gets f) Q.
Proof. intros H s out a' s' out' HP [= <- <- _]. by apply H. Qed.

Lemma on_success_lift {A} P (r : result A) (Q : A → S → Prop) :
  (∀ a s, r = Ok a → P s → Q a s) → on_success P (lift r) Q.
Proof. intros H s out a' s' out' HP [= -> <- _]. by apply H. Qed.

Lemma on_success_modify P (f : S → S) (Q : unit → S → Prop) :
  (∀ s, P s → Q tt (f s)) → on_success P (modify f) Q.
Proof. intros H s out a' s' out' HP [= <- <- _]. by apply H. Qed.

Lemma on_success_print P e (Q : unit → S → Prop) :
  (∀ s, P s → Q tt s) → on_success P (print e) Q.
Proof. intros H s out a' s' out' HP [= <- <- _]. by apply H. Qed.

Lemma on_success_bind {A B} P (R : A → S → Prop) (c : Py S A) (k : A → Py S B)
    (Q : B → S → Prop) :
  on_success P c R → (∀ a, on_success (R a) (k a) Q) → on_success P (bind c k) Q.
Proof.
  intros Hc Hk s out b s' out' HP. unfold bind.
  destruct (c s out) as [[[a|e] s1] out1] eqn:E; [|done].
  intros Hrun. exact (Hk a s1 out1 b s' out' (Hc s out a s1 out1 HP E) Hrun).
Qed.

(** A step that keeps an invariant, followed by the rest. *)
Lemma on_success_step {A B} I (c : Py S A) (k : A → Py S B) (Q : B → S → Prop) :
  on_success I c (λ _, I) → (∀ a, on_success I (k a) Q) → on_success I (bind c k) Q.
Proof. intros Hc Hk. by apply (on_success_bind I (λ _, I)). Qed.

Lemma on_success_when P b (c : Py S unit) (Q : unit → S → Prop) :
  on_success P c Q → (∀ s, P s → Q tt s) → on_success P (when b c) Q.
Proof. intros Hc H. destruct b; [done|]. by apply on_success_ret. Qed.

End on_success.

Ltac keeps_step :=
  first
    [ apply on_success_ret; intros ? ?
    | apply on_success_raise
    | apply on_success_gets; intros ? ?
    | apply on_success_lift; intros ? ? ? ?
    | apply on_success_modify; intros ? ?
    | apply on_success_print; intros ? ?
    | apply on_success_step; [|intros ?]
    | apply on_success_when; [|intros ? ?]
    | match goal with
      | |- on_success _ (if ?b then _ else _) _ => destruct b
      | |- on_success _ (match ?x with _ => _ end) _ => destruct x
      end ].

(** Solves [on_success I c (λ _, I)] for a statement made of the monad's
    operations, leaving what the assignments must keep. *)
Ltac keeps_tac := repeat keeps_step.

(** ** Keyboard shortcuts *)

Local Arguments py_eq : simpl never.

Lemma first_shortcut_binding {S} (h : string → Py S bool) key items :
  first_shortcut h key items
  = match binding key items with
    | Some action => h action
    | None => ret false
    end.
Proof.
  unfold binding. induction items as [|[a k] rest IH]; simpl; [done|].
  by destruct (py_eq (VStr key) k).
Qed.

Lemma Overlay_shortcut_loop_toggle key items s out :
  binding key items = Some "toggle" →
  Overlay_shortcut_loop key items s out
  = (Ok true,
     OverlayPlugin.set_base
       (set_enabled (py_not (enabled (OverlayPlugin.base s))) (OverlayPlugin.base s)) s,
     out).
Proof.
  unfold binding. induction items as [|[a k] rest IH]; simpl; [done|].
  destruct (py_eq (VStr key) k); simpl; [|exact IH].
  intros [= ->]. by rewrite String.eqb_refl.
Qed.

Lemma Overlay_shortcut_loop_unbound key items s out :
  binding key items = None →
  Overlay_shortcut_loop key items s out = (Ok false, s, out).
Proof.
  unfold binding. induction items as [|[a k] rest IH]; simpl; [done|].
  destruct (py_eq (VStr key) k); simpl; [done|exact IH].
Qed.

Lemma binding_Some_truthy key items action :
  binding key items = Some action → truthy (VDict items) = true.
Proof. by destruct items. Qed.

(** X1: a key whose first entry in the plugin's shortcut mapping is
    [toggle] is handled by every class: [on_keypress] returns [True],
    raises nothing, prints nothing, and flips the flag of the class
    ([show] for the clock, the load meter and the badge, [enabled] for
    the overlay and the crop), leaving the rest of the instance as it
    was. *)
Theorem Keys_toggle_flips_the_flag key p items out :
  shortcuts (plugin_base p) = VDict items →
  binding key items = Some "toggle" →
  plugin_on_keypress key p out
  = (Ok true, set_toggled_flag (py_not (toggled_flag p)) p, out).
Proof.
  intros Hsc Hbind. pose proof (binding_Some_truthy _ _ _ Hbind) as Htruthy.
  destruct p as [c|c|c|c|c]; simpl in Hsc |- *; unfold on_instance.
  - unfold Clock_on_keypress, Plugin_on_keypress, bind, gets.
    rewrite Hsc, Htruthy, first_shortcut_binding, Hbind. done.
  - unfold Cpu_on_keypress, Plugin_on_keypress, bind, gets.
    rewrite Hsc, Htruthy, first_shortcut_binding, Hbind. done.
  - unfold Overlay_on_keypress, bind, gets.
    rewrite Hsc, Htruthy, Overlay_shortcut_loop_toggle by done. done.
  - unfold Crop_on_keypress, Plugin_on_keypress, bind, gets.
    rewrite Hsc, Htruthy, first_shortcut_binding, Hbind. done.
  - unfold Tlp_on_keypress, Plugin_on_keypress, bind, gets.
    rewrite Hsc, Htruthy, first_shortcut_binding, Hbind. done.
Qed.

Lemma Keys_toggle_flips_the_flag_witness :
  plugin_on_keypress "q" clock_q []
  = (Ok true, set_toggled_flag (py_not (toggled_flag clock_q)) clock_q, []).
Proof.
  apply (Keys_toggle_flips_the_flag "q" clock_q [("toggle", VStr "q")] []).
  - by vm_compute.
  - by vm_compute.
Defined.

(** A key that no entry of the shortcut mapping names is not handled. *)
Lemma plugin_on_keypress_unbound key p items out :
  shortcuts (plugin_base p) = VDict items →
  binding key items = None →
  plugin_on_keypress key p out = (Ok false, p, out).
Proof.
  intros Hsc Hbind.
  destruct p as [c|c|c|c|c]; simpl in Hsc |- *; unfold on_instance;
    unfold Clock_on_keypress, Cpu_on_keypress, Overlay_on_keypress, Crop_on_keypress,
      Tlp_on_keypress, Plugin_on_keypress, bind, gets;
    rewrite Hsc; destruct (truthy (VDict items)); try done;
    rewrite ?first_shortcut_binding, ?Hbind, ?Overlay_shortcut_loop_unbound by done;
    done.
Qed.

Lemma Plugin_on_keypress_quiet {S} (base : S → Plugin) (h : string → Py S bool) key s out
    items :
  (∀ a, quiet (h a)) →
  shortcuts (base s) = VDict items →
  ∃ b, Plugin_on_keypress base h key s out
       = (Ok b, (Plugin_on_keypress base h key s []).1.2, out).
Proof.
  intros Hh Hsc. unfold Plugin_on_keypress, bind, gets. rewrite Hsc.
  destruct (truthy (VDict items)); [|by eexists].
  rewrite first_shortcut_binding. destruct (binding key items) as [a|]; [apply Hh|].
  by eexists.
Qed.

Lemma Clock_handle_shortcut_quiet a : quiet (Clock_handle_shortcut a).
Proof.
  intros s out. unfold Clock_handle_shortcut.
  destruct (String.eqb a "toggle"); by eexists.
Qed.

Lemma Cpu_handle_shortcut_quiet a : quiet (Cpu_handle_shortcut a).
Proof.
  intros s out. unfold Cpu_handle_shortcut.
  destruct (String.eqb a "toggle"); by eexists.
Qed.

Lemma Crop_handle_shortcut_quiet a : quiet (Crop_handle_shortcut a).
Proof.
  intros s out. unfold Crop_handle_shortcut, Plugin_handle_shortcut.
  destruct (String.eqb a "toggle"); by eexists.
Qed.

Lemma Tlp_handle_shortcut_quiet a : quiet (Tlp_handle_shortcut a).
Proof.
  intros s out. unfold Tlp_handle_shortcut.
  destruct (String.eqb a "toggle"); [by eexists|].
  destruct (String.eqb (lower a) "red"); [by eexists|].
  destruct (String.eqb (lower a) "amber"); [by eexists|].
  destruct (String.eqb (lower a) "green"); [by eexists|].
  destruct (String.eqb (lower a) "clear"); by eexists.
Qed.

Lemma Overlay_shortcut_loop_quiet key items : quiet (Overlay_shortcut_loop key items).
Proof.
  intros s out. induction items as [|[a k] rest IH]; simpl.
  - by eexists.
  - destruct (py_eq (VStr key) k && String.eqb a "toggle")%bool; [by eexists|exact IH].
Qed.

Lemma plugin_on_keypress_quiet key p out :
  shortcuts_dict p →
  ∃ b, plugin_on_keypress key p out = (Ok b, pressed key p, out).
Proof.
  intros [items Hsc]. unfold pressed.
  destruct p as [c|c|c|c|c]; simpl in Hsc |- *; unfold on_instance.
  - destruct (Plugin_on_keypress_quiet ClockPlugin.base Clock_handle_shortcut key c out
                items Clock_handle_shortcut_quiet Hsc) as [b Hb].
    unfold Clock_on_keypress. rewrite Hb.
    destruct (Plugin_on_keypress ClockPlugin.base Clock_handle_shortcut key c [])
      as [[r c'] o']. by eexists.
  - destruct (Plugin_on_keypress_quiet CPUPlugin.base Cpu_handle_shortcut key c out
                items Cpu_handle_shortcut_quiet Hsc) as [b Hb].
    unfold Cpu_on_keypress. rewrite Hb.
    destruct (Plugin_on_keypress CPUPlugin.base Cpu_handle_shortcut key c [])
      as [[r c'] o']. by eexists.
  - unfold Overlay_on_keypress, bind, gets. rewrite Hsc.
    destruct (truthy (VDict items)); [|by eexists].
    destruct (Overlay_shortcut_loop_quiet key items c out) as [b Hb]. rewrite Hb.
    destruct (Overlay_shortcut_loop key items c []) as [[r c'] o']. by eexists.
  - destruct (Plugin_on_keypress_quiet CropPlugin.base Crop_handle_shortcut key c out
                items Crop_handle_shortcut_quiet Hsc) as [b Hb].
    unfold Crop_on_keypress. rewrite Hb.
    destruct (Plugin_on_keypress CropPlugin.base Crop_handle_shortcut key c [])
      as [[r c'] o']. by eexists.
  - destruct (Plugin_on_keypress_quiet TLPPlugin.base Tlp_handle_shortcut key c out
                items Tlp_handle_shortcut_quiet Hsc) as [b Hb].
    unfold Tlp_on_keypress. rewrite Hb.
    destruct (Plugin_on_keypress TLPPlugin.base Tlp_handle_shortcut key c [])
      as [[r c'] o']. by eexists.
Qed.

(** The loop of the manager hands the key to every plugin. *)
Lemma keypress_each_quiet key items handled out :
  Forall (λ kv, shortcuts_dict kv.2) items →
  ∃ b, keypress_each key items handled out
       = (Ok b, (λ kv, (kv.1, pressed key kv.2)) <$> items, out).
Proof.
  intros Hall. revert handled.
  induction Hall as [|[id p] rest Hp Hrest IH]; intros handled; simpl.
  - by eexists.
  - destruct (plugin_on_keypress_quiet key p out Hp) as [b ->].
    destruct (IH (if b then true else handled)) as [b' ->]. by eexists.
Qed.

(** X2: the key to quit is handed to the plugins before the manager
    answers: when every plugin has a dict of shortcuts, [on_keypress]
    with the configured quit key (default [q]) returns ['quit'] with
    every plugin in the state its own [on_keypress] left it in, so a
    plugin that binds the same key has acted on it. The filter index is
    not touched. *)
Theorem Keys_quit_after_plugins key k ks out :
  Forall (λ kv, shortcuts_dict kv.2) (registry (manager k)) →
  keyboard_shortcuts k = VDict ks →
  py_eq (VStr key) (global_key ks "quit" "q") = true →
  on_keypress key k out
  = (Ok (VStr "quit"), set_manager (all_pressed key (manager k)) k, out).
Proof.
  intros Hall Hks Hquit. unfold on_keypress, bind at 1.
  destruct (keypress_each_quiet key _ false out Hall) as [b ->].
  unfold bind, gets, lift. simpl. rewrite Hks. simpl.
  unfold global_key in Hquit. by rewrite Hquit.
Qed.

Lemma Keys_quit_after_plugins_witness :
  (on_keypress "q" keys_manager []).1.1 = Ok (VStr "quit")
  ∧ toggled_flag clock_q = VBool true
  ∧ toggled_flag
      (from_option snd clock_q
         (head (registry (manager (on_keypress "q" keys_manager []).1.2))))
    = VBool false.
Proof.
  assert (H : on_keypress "q" keys_manager []
              = (Ok (VStr "quit"),
                 set_manager (all_pressed "q" (manager keys_manager)) keys_manager, [])).
  { apply (Keys_quit_after_plugins "q" keys_manager
             [("quit", VStr "q"); ("pause", VStr " ");
              ("next_filter", VStr "n"); ("prev_filter", VStr "b")] []).
    - repeat constructor; eexists; by vm_compute.
    - done.
    - by vm_compute. }
  rewrite H. split; [done|]. split; by vm_compute.
Defined.

(** X3: a key that is no shortcut of any plugin and none of the
    manager's keys is not handled: [on_keypress] returns [False] and
    changes nothing. *)
Theorem Keys_unbound_key_changes_nothing key k ks out :
  Forall (λ kv, ∃ items, shortcuts (plugin_base kv.2) = VDict items
                         ∧ binding key items = None) (registry (manager k)) →
  keyboard_shortcuts k = VDict ks →
  py_eq (VStr key) (global_key ks "quit" "q") = false →
  py_eq (VStr key) (global_key ks "next_filter" "n") = false →
  py_eq (VStr key) (global_key ks "prev_filter" "b") = false →
  on_keypress key k out = (Ok (VBool false), k, out).
Proof.
  intros Hall Hks Hquit Hnext Hprev. unfold on_keypress, bind at 1.
  assert (Hloop : ∀ items,
            Forall (λ kv, ∃ its, shortcuts (plugin_base kv.2) = VDict its
                                 ∧ binding key its = None) items →
            keypress_each key items false out = (Ok false, items, out)).
  { induction 1 as [|[id p] rest (its & Hsc & Hb) Hrest IH]; simpl; [done|].
    rewrite (plugin_on_keypress_unbound key p its out Hsc Hb). by rewrite IH. }
  rewrite (Hloop _ Hall).
  unfold bind, gets, lift. simpl. rewrite Hks. simpl.
  unfold global_key in *. rewrite Hquit, Hnext, Hprev.
  unfold ret. by destruct k as [[app reg] ? ? ?].
Qed.

Lemma Keys_unbound_key_changes_nothing_witness :
  on_keypress "x" keys_manager [] = (Ok (VBool false), keys_manager, []).
Proof.
  apply (Keys_unbound_key_changes_nothing "x" keys_manager
           [("quit", VStr "q"); ("pause", VStr " ");
            ("next_filter", VStr "n"); ("prev_filter", VStr "b")] []).
  - repeat constructor; eexists; split; by vm_compute.
  - done.
  - by vm_compute.
  - by vm_compute.
  - by vm_compute.
Defined.

(** X4: the filter index stays an index of the filter list: with a
    list of filters that is not empty and an index within it, after
    [on_keypress] with any key, however it ends, the list is the same
    and the index is within it (the next-filter and previous-filter keys
    wrap around). *)
Theorem Keys_filter_index_in_range key k out :
  filter_plugins k ≠ [] →
  (0 ≤ current_filter_index k < Z.of_nat (length (filter_plugins k)))%Z →
  let k' := (on_keypress key k out).1.2 in
  filter_plugins k' = filter_plugins k
  ∧ (0 ≤ current_filter_index k' < Z.of_nat (length (filter_plugins k)))%Z.
Proof.
  intros Hne Hin k'. subst k'.
  assert (Hpos : (0 < Z.of_nat (length (filter_plugins k)))%Z).
  { destruct (filter_plugins k); [done|simpl; lia]. }
  assert (Hmod : ∀ a, (0 ≤ a `mod` Z.of_nat (length (filter_plugins k))
                       < Z.of_nat (length (filter_plugins k)))%Z).
  { intros a. by apply Z.mod_pos_bound. }
  destruct (on_keypress key k out) as [[r k'] o'] eqn:Hrun. simpl.
  revert Hrun. unfold on_keypress, bind at 1.
  destruct (keypress_each key (registry (manager k)) false out) as [[[h|e] reg] o];
    simpl; [|by intros [= <- <- <-]].
  unfold bind, gets, lift. simpl.
  destruct (value_get (keyboard_shortcuts k) "quit" (VStr "q")) as [q|e]; simpl;
    [|by intros [= <- <- <-]].
  destruct (py_eq (VStr key) q); simpl; [by intros [= <- <- <-]|].
  destruct (value_get (keyboard_shortcuts k) "next_filter" (VStr "n")) as [n|e];
    simpl; [|by intros [= <- <- <-]].
  destruct (filter_plugins k) as [|f fs] eqn:Hfs; [done|].
  destruct (value_get (keyboard_shortcuts k) "prev_filter" (VStr "b")) as [b|e];
    destruct (py_eq (VStr key) n); simpl; rewrite ?Hfs; simpl;
    try destruct (py_eq (VStr key) b); simpl; rewrite ?Hfs; simpl;
    intros [= <- <- <-]; simpl; rewrite ?Hfs; (split; [done|]);
    try apply Hmod; done.
Qed.

Lemma Keys_filter_index_in_range_witness :
  let k := set_current_filter_index 1
             (set_filter_plugins [clock_q; badge_tlp] keys_manager) in
  filter_plugins (on_keypress "n" k []).1.2 = filter_plugins k
  ∧ (0 ≤ current_filter_index (on_keypress "n" k []).1.2
       < Z.of_nat (length (filter_plugins k)))%Z.
Proof.
  intros k. apply (Keys_filter_index_in_range "n" k []).
  - done.
  - simpl. lia.
Defined.

(** ** The badge's keys and level *)

Lemma Tlp_initialize_shortcuts env app :
  on_success (λ s, truthy (shortcuts (TLPPlugin.base s)) = false)
    (TLPPlugin.initialize env app)
    (λ _ s, shortcuts (TLPPlugin.base s) = TLPPlugin.TLP_SHORTCUTS).
Proof.
  unfold TLPPlugin.initialize, TLPPlugin._validate_tlp_level.
  do 10 (apply on_success_step; [by keeps_tac|intros ?]).
  apply (on_success_bind _ (λ sc _, truthy sc = false));
    [by apply on_success_gets|intros sc].
  intros s out b s' out' Hsc. unfold bind, when. rewrite Hsc. simpl.
  by intros [= _ <- _].
Qed.

Lemma Tlp_on_keypress_binding key s items out :
  shortcuts (TLPPlugin.base s) = VDict items →
  Tlp_on_keypress key s out
  = match binding key items with
    | Some action => Tlp_handle_shortcut action s out
    | None => (Ok false, s, out)
    end.
Proof.
  intros Hsc. unfold Tlp_on_keypress, Plugin_on_keypress, bind, gets. rewrite Hsc.
  rewrite first_shortcut_binding.
  destruct items as [|kv items]; [done|]. simpl truthy. cbv iota.
  by destruct (binding key (kv :: items)).
Qed.

(** X5: a badge configured without shortcuts gets those of its class
    when [initialize] succeeds: the keys [r], [a], [g] and [l] set the
    level RED, AMBER, GREEN and CLEAR and are reported as handled; every
    other key is not handled and changes nothing. In particular no key
    hides the badge. *)
Theorem Tlp_default_keys_set_the_level env app cfg out b self out' :
  truthy (get cfg "shortcuts" (VDict [])) = false →
  TLPPlugin.initialize env app (TLPPlugin.init cfg) out = (Ok b, self, out') →
  (∀ key level o,
     (key, level) ∈ level_keys →
     Tlp_on_keypress key self o
     = (Ok true, TLPPlugin.set_tlp_level_field level self, o))
  ∧ (∀ key o,
       key ∉ level_keys.*1 → Tlp_on_keypress key self o = (Ok false, self, o)).
Proof.
  intros Hcfg Hrun.
  assert (Hsc : shortcuts (TLPPlugin.base self) = TLPPlugin.TLP_SHORTCUTS).
  { refine (Tlp_initialize_shortcuts env app _ _ _ _ _ _ Hrun).
    simpl. destruct (negb (size cfg =? 0)%nat); [done|].
    unfold get in Hcfg. by destruct (cfg !! "shortcuts"). }
  split.
  - intros key level o Hin.
    rewrite (Tlp_on_keypress_binding key self _ o Hsc).
    unfold level_keys in Hin.
    repeat (apply elem_of_cons in Hin as [[= -> ->]|Hin]); try done.
    by apply elem_of_nil in Hin.
  - intros key o Hkey.
    rewrite (Tlp_on_keypress_binding key self _ o Hsc).
    assert (binding key
              [("red", VStr "r"); ("amber", VStr "a"); ("green", VStr "g");
               ("clear", VStr "l")] = None) as ->; [|done].
    unfold binding. simpl. unfold py_eq.
    repeat (match goal with
            | |- context [String.eqb key ?k] =>
                destruct (String.eqb_spec key k) as [->|?]
            end; [exfalso; apply Hkey; vm_compute; set_solver|]).
    done.
Qed.

Lemma Tlp_default_keys_set_the_level_witness :
  Tlp_on_keypress "r"
    (TLPPlugin.initialize env_plain plain_config (TLPPlugin.init ∅) []).1.2 []
  = (Ok true,
     TLPPlugin.set_tlp_level_field "RED"
       (TLPPlugin.initialize env_plain plain_config (TLPPlugin.init ∅) []).1.2,
     []).
Proof.
  assert (Hcfg : truthy (get (∅ : gmap string value) "shortcuts" (VDict [])) = false)
    by done.
  assert (Hrun : TLPPlugin.initialize env_plain plain_config (TLPPlugin.init ∅) []
                 = (Ok true,
                    (TLPPlugin.initialize env_plain plain_config (TLPPlugin.init ∅) []).1.2,
                    (TLPPlugin.initialize env_plain plain_config (TLPPlugin.init ∅) []).2))
    by by vm_compute.
  apply (proj1 (Tlp_default_keys_set_the_level env_plain plain_config ∅ [] true _ _
                  Hcfg Hrun) "r" "RED" []).
  unfold level_keys. left.
Defined.

Lemma Tlp_validate_valid {S} (v : value) (s : S) out :
  ∃ l out',
    TLPPlugin._validate_tlp_level v s out = (Ok l, s, out')
    ∧ l ∈ TLPPlugin.valid_levels.
Proof.
  unfold TLPPlugin._validate_tlp_level.
  match goal with |- context [bool_decide ?P] => destruct (bool_decide_reflect P) end.
  - by eexists _, _.
  - eexists _, _. split; [done|]. unfold TLPPlugin.valid_levels. set_solver.
Qed.

Lemma Tlp_handle_shortcut_valid action s out :
  level_valid s → level_valid (Tlp_handle_shortcut action s out).1.2.
Proof.
  intros Hs. unfold Tlp_handle_shortcut.
  destruct (String.eqb action "toggle"); [done|].
  destruct (String.eqb (lower action) "red");
    [unfold level_valid, TLPPlugin.valid_levels; simpl; repeat first [by left|right]|].
  destruct (String.eqb (lower action) "amber");
    [unfold level_valid, TLPPlugin.valid_levels; simpl; repeat first [by left|right]|].
  destruct (String.eqb (lower action) "green");
    [unfold level_valid, TLPPlugin.valid_levels; simpl; repeat first [by left|right]|].
  destruct (String.eqb (lower action) "clear");
    [unfold level_valid, TLPPlugin.valid_levels; simpl; repeat first [by left|right]|done].
Qed.

(** X6: the level of a badge is always one of RED, AMBER, GREEN and
    CLEAR: the constructor sets CLEAR; [initialize] and [set_tlp_level]
    leave a valid level whatever they are given and however they end;
    and no key press takes a valid level to anything else. So the colour
    lookup of [process_frame] never needs its fallback. *)
Theorem Tlp_level_is_always_valid :
  (∀ cfg, level_valid (TLPPlugin.init cfg))
  ∧ (∀ env app s out, level_valid (TLPPlugin.initialize env app s out).1.2)
  ∧ (∀ v s out, level_valid (TLPPlugin.set_tlp_level v s out).1.2)
  ∧ (∀ key s out, level_valid s → level_valid (Tlp_on_keypress key s out).1.2).
Proof.
  split; [|split; [|split]].
  - intros cfg. unfold level_valid, TLPPlugin.valid_levels. simpl. set_solver.
  - intros env app s out. unfold TLPPlugin.initialize.
    unfold bind at 1, gets at 1. unfold bind at 1.
    destruct (Tlp_validate_valid
                (get (config (TLPPlugin.base s)) "default_tlp" (VStr TLPPlugin.TLP_CLEAR))
                s out) as (l & out1 & -> & Hl).
    unfold bind at 1, modify at 1.
    match goal with
    | |- level_valid (?c ?st ?o).1.2 =>
        assert (Hrest : respects keeps_level c);
        [respects_tac; by intros|];
        destruct (c st o) as [[r s'] o'] eqn:E
    end.
    apply Hrest in E as [Hlevel _]. simpl in *.
    unfold level_valid. by rewrite Hlevel.
  - intros v s out. unfold TLPPlugin.set_tlp_level, bind.
    destruct (Tlp_validate_valid v s out) as (l & out1 & -> & Hl).
    unfold gets. destruct (String.eqb_spec l (TLPPlugin.tlp_level s)) as [He|He]; simpl.
    + unfold level_valid. by rewrite <- He.
    + done.
  - intros key s out Hs. unfold Tlp_on_keypress, Plugin_on_keypress, bind, gets.
    destruct (truthy (shortcuts (TLPPlugin.base s))); [|done].
    destruct (shortcuts (TLPPlugin.base s)); try done.
    rewrite first_shortcut_binding. destruct (binding key d); [|done].
    by apply Tlp_handle_shortcut_valid.
Qed.

Lemma Tlp_level_is_always_valid_witness :
  level_valid (Tlp_on_keypress "g" (TLPPlugin.init ∅) []).1.2
  ∧ level_valid (TLPPlugin.set_tlp_level (VInt 7) (TLPPlugin.init ∅) []).1.2.
Proof.
  destruct Tlp_level_is_always_valid as (Hinit & _ & Hset & Hkey).
  split; [apply Hkey, Hinit|apply Hset].
Defined.

(** ** The lines the tail plugin keeps *)

(** X7: with a positive [lines], [_read_file] keeps the last [lines]
    lines of the file when following and the first [lines] otherwise, and
    the whole file when it is shorter: never more than [lines] lines. *)
Theorem Tail_select_keeps_n_lines (following : bool) (n : Z) (ls : list string) :
  (0 < n)%Z →
  ∃ kept,
    TailPlugin.select following (VInt n) ls = Ok kept
    ∧ kept = (if following then drop (length ls - Z.to_nat n) ls
              else take (Z.to_nat n) ls)
    ∧ length kept = Nat.min (Z.to_nat n) (length ls).
Proof.
  intros Hn. unfold TailPlugin.select. simpl.
  destruct (n <? Z.of_nat (length ls))%Z eqn:Hlt.
  - apply Z.ltb_lt in Hlt. eexists. split; [done|].
    unfold TailPlugin.slice_from, TailPlugin.slice_to, TailPlugin.slice_index.
    assert ((- n <? 0)%Z = true) as -> by (apply Z.ltb_lt; lia).
    assert ((n <? 0)%Z = false) as -> by (apply Z.ltb_ge; lia).
    replace (Z.to_nat (Z.max 0 (Z.of_nat (length ls) + - n)))
      with (length ls - Z.to_nat n)%nat by lia.
    replace (Nat.min (Z.to_nat n) (length ls)) with (Z.to_nat n) by lia.
    split; [done|].
    destruct following; [rewrite length_drop|rewrite length_take]; lia.
  - apply Z.ltb_ge in Hlt. exists ls. split; [done|].
    replace (length ls - Z.to_nat n)%nat with 0%nat by lia.
    rewrite take_ge by lia. split; [by destruct following|lia].
Qed.

Lemma Tail_select_keeps_n_lines_witness :
  ∃ kept,
    TailPlugin.select true (VInt 2) ["a"; "b"; "c"] = Ok kept
    ∧ kept = drop (length ["a"; "b"; "c"] - Z.to_nat 2) ["a"; "b"; "c"]
    ∧ length kept = Nat.min (Z.to_nat 2) (length ["a"; "b"; "c"]).
Proof. apply (Tail_select_keeps_n_lines true 2 ["a"; "b"; "c"]). lia. Defined.

(** X8: [lines: 0] does not mean no lines when following: the slice
    [all_lines[-0:]] is the whole file. Without following, [all_lines[:0]]
    is empty. *)
Theorem Tail_select_zero_lines (ls : list string) :
  TailPlugin.select true (VInt 0) ls = Ok ls
  ∧ TailPlugin.select false (VInt 0) ls = Ok [].
Proof.
  unfold TailPlugin.select. simpl.
  destruct (0 <? Z.of_nat (length ls))%Z eqn:Hlt.
  - unfold TailPlugin.slice_from, TailPlugin.slice_to, TailPlugin.slice_index. simpl.
    by rewrite drop_0.
  - apply Z.ltb_ge in Hlt. by destruct ls.
Qed.

(** [rstrip] takes a suffix of line ends off. *)
Lemma rstrip_split (s : string) :
  ∃ t, s = TailPlugin.rstrip s +:+ t
       ∧ Forall (λ a, TailPlugin.is_newline a = true) (list_ascii_of_string t).
Proof.
  induction s as [|a s (t & Hs & Ht)]; simpl.
  - by exists EmptyString.
  - destruct (TailPlugin.rstrip s) as [|b r] eqn:Hr.
    + destruct (TailPlugin.is_newline a) eqn:Ha.
      * exists (String a t). simpl in *. split; [by rewrite Hs|by constructor].
      * exists t. simpl in *. split; [by rewrite Hs at 1|done].
    + exists t. simpl in *. split; [by rewrite Hs at 1|done].
Qed.

Lemma rstrip_last (s u : string) (a : ascii) :
  TailPlugin.rstrip s = u +:+ String a EmptyString → TailPlugin.is_newline a = false.
Proof.
  revert u. induction s as [|b s IH]; intros u; simpl.
  - by destruct u.
  - destruct (TailPlugin.rstrip s) as [|c r] eqn:Hr.
    + destruct (TailPlugin.is_newline b) eqn:Hb; [by destruct u|].
      destruct u as [|d u]; simpl; [by intros [= <-]|].
      intros [= _ H]. by destruct u.
    + destruct u as [|d u]; simpl; [done|].
      intros [= _ H]. by apply (IH u).
Qed.

(** X9: [line.rstrip('\n\r')] takes off the line ends at the end of the
    line and nothing else: the line is the stripped line followed by
    line-feed and carriage-return characters only, the stripped line
    does not end in one of them, and stripping again changes nothing. *)
Theorem Tail_rstrip_strips_line_ends (s : string) :
  (∃ t, s = TailPlugin.rstrip s +:+ t
        ∧ Forall (λ a, TailPlugin.is_newline a = true) (list_ascii_of_string t))
  ∧ (∀ u a, TailPlugin.rstrip s = u +:+ String a EmptyString →
            TailPlugin.is_newline a = false)
  ∧ TailPlugin.rstrip (TailPlugin.rstrip s) = TailPlugin.rstrip s.
Proof.
  split; [apply rstrip_split|]. split; [apply rstrip_last|].
  induction s as [|a s IH]; simpl; [done|].
  destruct (TailPlugin.rstrip s) as [|c r] eqn:Hr.
  - destruct (TailPlugin.is_newline a) eqn:Ha; simpl; [done|]. by rewrite Ha.
  - simpl in *. by rewrite IH.
Qed.

Lemma Tail_rstrip_strips_line_ends_witness :
  TailPlugin.rstrip ("one" +:+ newline) = "one"
  ∧ TailPlugin.is_newline "e"%char = false.
Proof.
  split; [by vm_compute|].
  apply (proj1 (proj2 (Tail_rstrip_strips_line_ends ("one" +:+ newline))) "on" "e"%char).
  by vm_compute.
Defined.

(** ** What [_read_file] records *)

Lemma Tail_read_file_unchanged env s out size mtime contents :
  files env (TailPlugin.file_path s) = Present size mtime contents →
  size = TailPlugin._last_file_size s →
  (mtime == TailPlugin._last_mtime s)%Q →
  TailPlugin._read_file env s out = (Ok tt, s, out).
Proof.
  intros Hfile Hsize Hmtime.
  unfold TailPlugin._read_file, bind, gets. simpl. rewrite Hfile.
  unfold try_except, bind, gets. simpl.
  assert (((size =? TailPlugin._last_file_size s)%Z
           && Qeq_bool mtime (TailPlugin._last_mtime s))%bool = true) as ->; [|done].
  apply andb_true_iff. split; [by apply Z.eqb_eq|by apply Qeq_bool_iff].
Qed.

Lemma Tail_read_file_missing env s out :
  files env (TailPlugin.file_path s) = Missing →
  TailPlugin._read_file env s out
  = (Ok tt,
     TailPlugin.set_content [TailPlugin.FileNotFound (TailPlugin.file_path s)] s,
     out).
Proof.
  intros Hfile. unfold TailPlugin._read_file, bind, gets. simpl. by rewrite Hfile.
Qed.

(** X10: a file whose size and modification time are the recorded ones
    is not read: [_read_file] changes nothing, whatever the file holds
    now. The placeholder for a missing file does not touch the record,
    so a file that disappears and comes back with the size and time it
    had stays displayed as not found. *)
Theorem Tail_unchanged_file_is_not_read env s out size mtime contents :
  files env (TailPlugin.file_path s) = Present size mtime contents →
  size = TailPlugin._last_file_size s →
  (mtime == TailPlugin._last_mtime s)%Q →
  TailPlugin._read_file env s out = (Ok tt, s, out)
  ∧ ∀ gone,
      files gone (TailPlugin.file_path s) = Missing →
      let s1 := (TailPlugin._read_file gone s out).1.2 in
      TailPlugin._content s1 = [TailPlugin.FileNotFound (TailPlugin.file_path s)]
      ∧ TailPlugin._read_file env s1 out = (Ok tt, s1, out).
Proof.
  intros Hfile Hsize Hmtime. split; [by eapply Tail_read_file_unchanged|].
  intros gone Hgone s1. unfold s1.
  rewrite (Tail_read_file_missing gone s out Hgone). simpl.
  split; [done|]. by eapply Tail_read_file_unchanged.
Qed.

Lemma Tail_unchanged_file_is_not_read_witness :
  let gone := env_at 101 Missing in
  let back := env_at 102 log_before in
  TailPlugin._content
    (TailPlugin._read_file back (TailPlugin._read_file gone tail_at_100 []).1.2 []).1.2
  = [TailPlugin.FileNotFound "app.log"].
Proof.
  intros gone back.
  destruct (Tail_unchanged_file_is_not_read back tail_at_100 [] 8 1000
              (Ok ["one" +:+ newline; "two" +:+ newline]))
    as [_ H]; [done|done|done|].
  destruct (H gone) as [Hcontent Hsame]; [done|].
  rewrite Hsame. exact Hcontent.
Defined.

(** X11: when [update] raises and what a failed reading leaves.
    The comparison with [update_interval] is made outside any [try]: a
    configured interval that is no number makes [update] raise
    [TypeError] with nothing changed. With a number, [update] ends
    normally and prints nothing, whatever the file system answers, with
    the options of the instance untouched. An exception while reading (a
    file that cannot be opened or decoded, a [lines] that is no integer)
    becomes the one cached line that reports it, and the size and time
    of the file are recorded before the reading, so the report stays
    until the file changes. *)
Theorem Tail_update_raises_only_on_the_interval env s out :
  (num_of (TailPlugin.update_interval s) = None →
   TailPlugin.update env s out = (Raise TypeError, s, out))
  ∧ (∀ x, num_of (TailPlugin.update_interval s) = Some x →
          ∃ s', TailPlugin.update env s out = (Ok tt, s', out)
                ∧ tail_settings s' = tail_settings s)
  ∧ (∀ size mtime e,
       files env (TailPlugin.file_path s) = Present size mtime (Raise e) →
       size ≠ TailPlugin._last_file_size s ∨ ¬ (mtime == TailPlugin._last_mtime s)%Q →
       TailPlugin._read_file env s out
       = (Ok tt,
          TailPlugin.mk (TailPlugin.file_path s) (TailPlugin.lines s)
            (TailPlugin.update_interval s) (TailPlugin.following s) size mtime
            [TailPlugin.ReadError e] (TailPlugin._last_update s),
          out)).
Proof.
  split; [|split].
  - intros Hx. by rewrite Tail_update_spec, Hx.
  - intros x Hx. rewrite Tail_update_spec, Hx. destruct (Qle_bool _ _); [|by eexists].
    destruct (Tail_read_file_ok env s out) as (s' & Hread & Hset & _).
    rewrite Hread. simpl. eexists. split; [done|]. by rewrite <- Hset.
  - intros size mtime e Hfile Hchanged.
    unfold TailPlugin._read_file, bind, gets. simpl. rewrite Hfile.
    unfold try_except, bind, gets, modify, lift. simpl.
    assert (((size =? TailPlugin._last_file_size s)%Z
             && Qeq_bool mtime (TailPlugin._last_mtime s))%bool = false) as ->; [|done].
    apply andb_false_iff. destruct Hchanged as [Hs|Hm].
    + left. by apply Z.eqb_neq.
    + right. apply not_true_is_false. intros H. by apply Hm, Qeq_bool_iff.
Qed.

Lemma Tail_update_raises_only_on_the_interval_witness :
  let quoted := TailPlugin.mk "app.log" (VInt 2) (VStr "1") true 8 1000 [] 100 in
  TailPlugin.update (env_at 102 log_after) quoted [] = (Raise TypeError, quoted, [])
  ∧ TailPlugin._read_file (env_at 102 (Present 9 1002 (Raise OSError))) tail_at_100 []
    = (Ok tt,
       TailPlugin.mk "app.log" (VInt 2) (VInt 1) true 9 1002
         [TailPlugin.ReadError OSError] 100,
       []).
Proof.
  intros quoted. split.
  - apply (proj1 (Tail_update_raises_only_on_the_interval (env_at 102 log_after) quoted [])).
    done.
  - apply (proj2 (proj2 (Tail_update_raises_only_on_the_interval
                           (env_at 102 (Present 9 1002 (Raise OSError))) tail_at_100 []))
             9%Z 1002%Q OSError).
    + done.
    + left. done.
Defined.

(** ** Ids granted by [register_plugin] *)

(** X12: [register_plugin] never replaces an entry: it appends the
    plugin after the entries there are, under an id that was free. The
    id is the requested one (the plugin's name when none is given) when
    that is free; otherwise it is the requested id followed by [_n] for
    the least [n ≥ 1] whose id is free. Ids that were distinct stay
    distinct. *)
Theorem Register_grants_least_free_id p instance_id m out :
  let requested := default (plugin_name p) instance_id in
  ∃ id,
    register_plugin p instance_id m out
    = (Ok tt, set_registry (registry m ++ [(id, p)]) m,
       out ++ [PluginRegistered (plugin_name p) id])
    ∧ (id ∉ (registry m).*1)
    ∧ (requested ∉ (registry m).*1 → id = requested)
    ∧ (requested ∈ (registry m).*1 →
       ∃ n, (1 ≤ n)%nat ∧ id = candidate requested n
            ∧ ∀ j, (1 ≤ j < n)%nat → candidate requested j ∈ (registry m).*1)
    ∧ (NoDup (registry m).*1 → NoDup (registry m ++ [(id, p)]).*1).
Proof.
  intros requested. unfold register_plugin, bind, gets. fold requested.
  destruct (unique_id_total (registry m) requested) as [id Hid].
  rewrite Hid. exists id. split; [reflexivity|].
  apply unique_id_Some in Hid as [Hfree Hshape].
  split; [done|]. split; [|split].
  - intros Hreq. by destruct Hshape as [->|[Hin _]].
  - intros Hreq. destruct Hshape as [->|(_ & n & Hn & -> & Hbelow)]; [done|].
    by exists n.
  - intros Hnd. rewrite fmap_app. simpl. apply NoDup_app. split; [done|].
    split; [|apply NoDup_singleton].
    intros x Hx ->%list_elem_of_singleton. done.
Qed.

Lemma Register_grants_least_free_id_witness :
  let m := set_registry [("clock", Clock (ClockPlugin.init ∅));
                         ("clock_1", Clock (ClockPlugin.init ∅))]
             (new_manager plain_config) in
  ∃ id,
    (registry (register_plugin (Clock (ClockPlugin.init ∅)) None m []).1.2).*1
    = ["clock"; "clock_1"; id]
    ∧ ∃ n, (1 ≤ n)%nat ∧ id = candidate "clock" n
           ∧ ∀ j, (1 ≤ j < n)%nat → candidate "clock" j ∈ (registry m).*1.
Proof.
  intros m.
  destruct (Register_grants_least_free_id (Clock (ClockPlugin.init ∅)) None m [])
    as (id & Hrun & _ & _ & Hleast & _).
  exists id. rewrite Hrun. split; [done|].
  apply Hleast. simpl. left.
Defined.

(** ** Plugins that draw in place *)

Lemma on_success_bind_ret {S A B} (P : S → Prop) (a : A) (k : A → Py S B)
    (Q : B → S → Prop) :
  on_success P (k a) Q → on_success P (bind (ret a) k) Q.
Proof. intros H s out b s' out' HP. unfold bind, ret. by apply H. Qed.

Lemma on_success_bind_raise {S A B} (P : S → Prop) e (k : A → Py S B)
    (Q : B → S → Prop) :
  on_success P (bind (raise e) k) Q.
Proof. by intros s out b s' out' HP. Qed.

Lemma im_size_alter_draw op ref (l : list Image) :
  im_size <$> alter (im_draw op) ref l = im_size <$> l.
Proof.
  revert ref. induction l as [|x l IH]; intros [|ref]; simpl; [done|done| |].
  - done.
  - f_equal. apply IH.
Qed.

Global Instance drawn_in_place_refl frame draw : Reflexive (drawn_in_place frame draw).
Proof. by intros w. Qed.

Global Instance drawn_in_place_trans frame draw : Transitive (drawn_in_place frame draw).
Proof.
  intros w0 w1 w2 [Hs1 Hi1] [Hs2 Hi2]. split; [congruence|].
  intros i Hf Hd. rewrite Hi2, Hi1 by done. done.
Qed.

Lemma drawn_in_place_alter frame draw w0 (w : World) ref op acc :
  ref = frame ∨ draw = Some ref →
  drawn_in_place frame draw w0 w →
  drawn_in_place frame draw w0
    {| images := alter (im_draw op) ref (images w); accesses := acc |}.
Proof.
  intros Href [Hs Hi]. split; simpl.
  - by rewrite im_size_alter_draw.
  - intros i Hf Hd. rewrite list_lookup_alter_ne; [by apply Hi|].
    intros ->. by destruct Href as [<-|Hr].
Qed.

Ltac place_side :=
  simpl in *;
  first
    [ assumption
    | apply drawn_in_place_alter; [first [by left|by right]|assumption] ].

Ltac place_keep :=
  repeat first
    [ apply on_success_bind_ret
    | apply on_success_bind_raise
    | apply on_success_ret; intros ? ?; place_side
    | apply on_success_raise
    | apply on_success_gets; intros ? ?; place_side
    | apply on_success_lift; intros ? ? ? ?; place_side
    | apply on_success_modify; intros ? ?; place_side
    | apply on_success_print; intros ? ?; place_side
    | apply on_success_step; [|intros ?]
    | match goal with
      | |- on_success _ (if ?b then _ else _) _ => destruct b
      | |- on_success _ (match ?x with _ => _ end) _ => destruct x
      end ].

Ltac place_tac :=
  repeat first
    [ apply on_success_bind_ret
    | apply on_success_bind_raise
    | apply on_success_raise
    | apply on_success_ret; intros ? ?; split; [reflexivity|place_side]
    | apply on_success_step; [solve [place_keep]|intros ?]
    | match goal with
      | |- on_success _ (if ?b then _ else _) _ => destruct b
      | |- on_success _ (match ?x with _ => _ end) _ => destruct x
      end ].

Lemma Clock_draws_in_place env frame draw w0 :
  on_success (λ sw, drawn_in_place frame draw w0 sw.2)
    (ClockPlugin.process_frame env frame draw)
    (λ f sw, f = frame ∧ drawn_in_place frame draw w0 sw.2).
Proof.
  unfold ClockPlugin.process_frame, ClockPlugin._get_current_time, the_draw, self_,
    set_self, touch, draw_on.
  destruct draw as [d|]; place_tac.
Qed.

Lemma Cpu_draws_in_place env frame draw w0 :
  on_success (λ sw, drawn_in_place frame draw w0 sw.2)
    (CPUPlugin.process_frame env frame draw)
    (λ f sw, f = frame ∧ drawn_in_place frame draw w0 sw.2).
Proof.
  unfold CPUPlugin.process_frame, the_draw, self_, set_self, touch, draw_on.
  destruct draw as [d|]; place_tac.
Qed.

Lemma Overlay_draws_in_place env frame draw w0 :
  on_success (λ sw, drawn_in_place frame draw w0 sw.2)
    (OverlayPlugin.process_frame env frame draw)
    (λ f sw, f = frame ∧ drawn_in_place frame draw w0 sw.2).
Proof.
  unfold OverlayPlugin.process_frame, the_draw, self_, set_self, touch, draw_on.
  place_tac.
Qed.

Lemma Tlp_draws_in_place env frame draw w0 :
  on_success (λ sw, drawn_in_place frame draw w0 sw.2)
    (TLPPlugin.process_frame env frame draw)
    (λ f sw, f = frame ∧ drawn_in_place frame draw w0 sw.2).
Proof.
  unfold TLPPlugin.process_frame, the_draw, self_, set_self, touch, draw_on.
  destruct draw as [d|]; place_tac.
Qed.

(** A plugin of a class other than the crop class hands back the frame
    it was given and draws on that frame or on the drawing context
    only; it stays of its class. *)
Lemma plugin_draws_in_place env frame draw p w out f p' w' out' :
  not_crop p →
  plugin_process_frame env frame draw (p, w) out = (Ok f, (p', w'), out') →
  f = frame ∧ drawn_in_place frame draw w w' ∧ not_crop p'.
Proof.
  intros Hp. unfold plugin_process_frame, on_instance_world.
  destruct p as [c|c|c|c|c]; simpl; [| | |done|].
  - destruct (ClockPlugin.process_frame env frame draw (c, w) out)
      as [[r [c' w1]] o1] eqn:E.
    intros [= -> <- <- <-].
    destruct (Clock_draws_in_place env frame draw w (c, w) out f (c', w1) o1) as [-> H];
      done.
  - destruct (CPUPlugin.process_frame env frame draw (c, w) out)
      as [[r [c' w1]] o1] eqn:E.
    intros [= -> <- <- <-].
    destruct (Cpu_draws_in_place env frame draw w (c, w) out f (c', w1) o1) as [-> H];
      done.
  - destruct (OverlayPlugin.process_frame env frame draw (c, w) out)
      as [[r [c' w1]] o1] eqn:E.
    intros [= -> <- <- <-].
    destruct (Overlay_draws_in_place env frame draw w (c, w) out f (c', w1) o1) as [-> H];
      done.
  - destruct (TLPPlugin.process_frame env frame draw (c, w) out)
      as [[r [c' w1]] o1] eqn:E.
    intros [= -> <- <- <-].
    destruct (Tlp_draws_in_place env frame draw w (c, w) out f (c', w1) o1) as [-> H];
      done.
Qed.

(** The second loop over entries of classes other than the crop class. *)
Lemma apply_plugins_in_place env cn d items frame w out f :
  Forall (λ kv, cn = Some kv.1 ∨ not_crop kv.2) items →
  returned (apply_plugins env cn d items frame w out) = Ok f →
  f = frame
  ∧ drawn_in_place frame (Some d) w (world (apply_plugins env cn d items frame w out)).
Proof.
  intros Hall. revert frame w out.
  induction Hall as [|[id p] rest Hp Hrest IH]; intros frame w out; simpl.
  - by intros [= <-].
  - destruct (bool_decide (cn = Some id)) eqn:Hcn; simpl.
    + apply IH.
    + destruct (negb (truthy (plugin_enabled p))); simpl; [apply IH|].
      destruct Hp as [->|Hp]; [by rewrite bool_decide_eq_true_2 in Hcn|].
      destruct (plugin_process_frame env frame (Some d) (p, w) out)
        as [[[f1|e] [p1 w1]] o1] eqn:E; simpl; [|done].
      apply plugin_draws_in_place in E as (-> & Hw1 & _); [|done].
      intros Hret. destruct (IH frame w1 o1 Hret) as [-> Hw2].
      split; [done|]. by etrans.
Qed.

Lemma process_frame_calls_in_place env frame m w out f :
  Forall (λ kv, not_crop kv.2) (registry m) →
  returned (process_frame_calls env frame m w out) = Ok f →
  f = frame
  ∧ im_size <$> images (world (process_frame_calls env frame m w out))
    = im_size <$> images w
  ∧ ∀ i, i ≠ frame →
         images (world (process_frame_calls env frame m w out)) !! i = images w !! i.
Proof.
  intros Hall. unfold process_frame_calls.
  destruct (find_crop (registry m)) as [[id p]|] eqn:Hfind; simpl.
  - apply find_crop_Some in Hfind as [Hin _].
    assert (Hp : not_crop p).
    { rewrite Forall_forall in Hall. exact (Hall _ Hin). }
    destruct (plugin_process_frame env frame None (p, w) out)
      as [[[f1|e] [p1 w1]] o1] eqn:E; simpl; [|done].
    apply plugin_draws_in_place in E as (-> & [Hs1 Hi1] & Hp1); [|done].
    intros Hret.
    apply apply_plugins_in_place in Hret as [-> [Hs2 Hi2]].
    + split; [done|]. split; [congruence|].
      intros i Hi. rewrite Hi2 by congruence. by apply Hi1.
    + unfold update_entry. apply Forall_fmap. eapply Forall_impl; [exact Hall|].
      intros [k q] Hq. simpl in *.
      destruct (String.eqb_spec k id) as [->|?]; simpl; by right.
  - intros Hret.
    apply apply_plugins_in_place in Hret as [-> [Hs2 Hi2]].
    + split; [done|]. split; [done|]. intros i Hi. apply Hi2; congruence.
    + eapply Forall_impl; [exact Hall|]. intros kv Hkv. by right.
Qed.

(** X13: a registry without an instance of the crop class works on the
    frame it is given: when [process_frame] returns, it returns that
    very frame object, no image object was created, no image changed
    size, and no image other than the frame was drawn on. *)
Theorem Pipeline_without_crop_draws_in_place env frame m w out f :
  Forall (λ kv, not_crop kv.2) (registry m) →
  (process_frame env frame (m, w) out).1.1 = Ok f →
  f = frame
  ∧ length (images (process_frame env frame (m, w) out).1.2.2) = length (images w)
  ∧ im_size <$> images (process_frame env frame (m, w) out).1.2.2
    = im_size <$> images w
  ∧ ∀ i, i ≠ frame →
         images (process_frame env frame (m, w) out).1.2.2 !! i = images w !! i.
Proof.
  intros Hall Hret. unfold process_frame in *. simpl in *.
  destruct (process_frame_calls_in_place env frame m w out f Hall Hret)
    as (-> & Hsize & Hother).
  split; [done|]. split; [|done].
  apply (f_equal length) in Hsize. by rewrite !length_fmap in Hsize.
Qed.

Lemma Pipeline_without_crop_draws_in_place_witness :
  (process_frame env_plain 0 (clock_and_overlay, one_frame) []).1.1 = Ok 0%nat
  ∧ length (images (process_frame env_plain 0 (clock_and_overlay, one_frame) []).1.2.2)
    = length (images one_frame).
Proof.
  assert (Hret : (process_frame env_plain 0 (clock_and_overlay, one_frame) []).1.1
                 = Ok 0%nat) by by vm_compute.
  assert (Hall : Forall (λ kv, not_crop kv.2) (registry clock_and_overlay)).
  { apply (Forall_fmap snd not_crop). by vm_compute; repeat constructor. }
  split; [exact Hret|].
  apply (Pipeline_without_crop_draws_in_place env_plain 0 clock_and_overlay one_frame []
           0%nat Hall Hret).
Defined.

Lemma Forall_not_crop_except id (items : list (string * plugin)) :
  forallb (λ kv, String.eqb kv.1 id || not_cropb kv.2) items = true →
  Forall (λ kv, kv.1 = id ∨ not_crop kv.2) items.
Proof.
  induction items as [|[k p] rest IH]; simpl; [done|].
  intros [Hk Hrest]%andb_true_iff. constructor; [|by apply IH]. simpl.
  apply orb_true_iff in Hk as [Hk|Hp].
  - left. by apply String.eqb_eq.
  - right. by destruct p.
Qed.

(** X14: with a crop plugin registered (and no other instance of the
    crop class), [process_frame] works on a copy: the frame returned is
    a new image object of the crop plugin's target size, and every image
    there was before the call, the input frame included, is left as it
    was: the other plugins draw on the copy. *)
Theorem Pipeline_with_crop_returns_a_new_frame env frame m w out id c W H img f :
  find_crop (registry m) = Some (id, Crop c) →
  Forall (λ kv, kv.1 = id ∨ not_crop kv.2) (registry m) →
  CropPlugin.target_size c = (VInt W, VInt H) →
  images w !! frame = Some img →
  (process_frame env frame (m, w) out).1.1 = Ok f →
  f = length (images w)
  ∧ (∃ img', images (process_frame env frame (m, w) out).1.2.2 !! f = Some img'
             ∧ im_size img' = (W, H))
  ∧ ∀ i old, images w !! i = Some old →
             images (process_frame env frame (m, w) out).1.2.2 !! i = Some old.
Proof.
  intros Hfind Hall Hsize Himg. unfold process_frame, process_frame_calls. simpl.
  rewrite Hfind. simpl.
  rewrite (Crop_process_frame env frame None c w out W H img Hsize Himg). simpl.
  intros Hret.
  apply apply_plugins_in_place in Hret as [-> [Hs Hi]].
  - simpl in Hs, Hi. split; [done|]. split.
    + assert (Hnew : (im_size <$> images w ++ [im_fit img W H]) !! length (images w)
                     = Some (W, H)).
      { rewrite fmap_app, lookup_app_r by (by rewrite length_fmap).
        by rewrite length_fmap, Nat.sub_diag. }
      rewrite <- Hs, list_lookup_fmap in Hnew.
      destruct (images _ !! length (images w)) as [img'|]; [|done].
      exists img'. split; [done|]. simpl in Hnew. congruence.
    + intros i old Hold.
      assert (Hlt : (i < length (images w))%nat) by by eapply lookup_lt_Some.
      rewrite Hi; [|lia|intros [= ?]; lia].
      by rewrite lookup_app_l.
  - unfold update_entry. apply Forall_fmap. eapply Forall_impl; [exact Hall|].
    intros [k q] [Hk|Hq]; simpl in *.
    + subst. rewrite String.eqb_refl. by left.
    + destruct (String.eqb_spec k id) as [->|?]; simpl; [by left|by right].
Qed.

Lemma Pipeline_with_crop_returns_a_new_frame_witness :
  (process_frame env_plain 0 (crop_last, one_frame) []).1.1 = Ok 1%nat
  ∧ (∃ img', images (process_frame env_plain 0 (crop_last, one_frame) []).1.2.2 !! 1%nat
             = Some img'
             ∧ im_size img' = (1280, 720)%Z)
  ∧ ∀ i old, images one_frame !! i = Some old →
             images (process_frame env_plain 0 (crop_last, one_frame) []).1.2.2 !! i
             = Some old.
Proof.
  assert (Hret : (process_frame env_plain 0 (crop_last, one_frame) []).1.1 = Ok 1%nat)
    by by vm_compute.
  split; [exact Hret|].
  apply (Pipeline_with_crop_returns_a_new_frame env_plain 0 crop_last one_frame [] "crop"
           (CropPlugin.mk (set_enabled (VBool false) (Plugin_init "crop" ∅))
              (VInt 1280, VInt 720))
           1280 720 camera_frame 1%nat).
  - by vm_compute.
  - apply Forall_not_crop_except. by vm_compute.
  - done.
  - done.
  - exact Hret.
Defined.

(** ** The [enabled] flag of registered instances *)

(** What holds of every instance that the loop over the descriptors
    registers holds of the registry it leaves. *)
Lemma initialize_instances_each (R : Descriptor → plugin → Prop) env ds m out m' out' :
  (∀ d cls app o b p' o',
     lookup_class PLUGIN_CLASSES (d_type d) = Some cls →
     plugin_initialize env app
       (plugin_set_enabled (VBool (d_enabled d)) (cls (d_config d))) o = (Ok b, p', o') →
     R d p') →
  initialize_instances env ds m out = (Ok true, m', out') →
  ∃ new,
    registry m' = registry m ++ new
    ∧ Forall2 (λ d kv, R d kv.2) (List.filter type_valid ds) new.
Proof.
  intros HR. revert m out. induction ds as [|d ds IH]; intros m out; simpl.
  - intros [= <- <-]. exists []. by rewrite app_nil_r.
  - destruct (lookup_class PLUGIN_CLASSES (d_type d)) as [cls|] eqn:Hcls.
    + assert (Hvalid : type_valid d = true) by (apply type_valid_lookup; by eexists).
      rewrite Hvalid.
      destruct (plugin_initialize _ _ _ _) as [[[b|e] p'] out2] eqn:Hinit; [|done].
      destruct (register_plugin_spec p' (d_id d) m out2) as (id & -> & _ & _).
      intros Hrest. apply IH in Hrest as (new & Hreg & Hall).
      exists ((id, p') :: new). simpl in Hreg. rewrite Hreg, <- app_assoc.
      split; [done|]. constructor; [|done]. simpl. by eapply HR.
    + assert (Hvalid : type_valid d = false).
      { destruct (type_valid d) eqn:E; [|done].
        apply type_valid_lookup in E as [? ?]. congruence. }
      rewrite Hvalid. unfold bind, print. by apply IH.
Qed.

Lemma Clock_initialize_enabled env app v :
  on_success (λ s, enabled (ClockPlugin.base s) = v) (ClockPlugin.initialize env app)
    (λ _ s, enabled (ClockPlugin.base s) = v).
Proof. unfold ClockPlugin.initialize. keeps_tac; by simpl. Qed.

Lemma Cpu_initialize_enabled env app v :
  on_success (λ s, enabled (CPUPlugin.base s) = v) (CPUPlugin.initialize env app)
    (λ _ s, enabled (CPUPlugin.base s) = v).
Proof. unfold CPUPlugin.initialize. keeps_tac; by simpl. Qed.

Lemma Crop_initialize_enabled env app v :
  on_success (λ s, enabled (CropPlugin.base s) = v) (CropPlugin.initialize env app)
    (λ _ s, enabled (CropPlugin.base s) = v).
Proof. unfold CropPlugin.initialize. keeps_tac; by simpl. Qed.

Lemma Tlp_initialize_enabled env app v :
  on_success (λ s, enabled (TLPPlugin.base s) = v) (TLPPlugin.initialize env app)
    (λ _ s, enabled (TLPPlugin.base s) = v).
Proof.
  unfold TLPPlugin.initialize, TLPPlugin._validate_tlp_level. keeps_tac; by simpl.
Qed.

Lemma Overlay_initialize_enabled env app s out b s' out' :
  OverlayPlugin.initialize env app s out = (Ok b, s', out') →
  enabled (OverlayPlugin.base s') = overlay_enabled (config (OverlayPlugin.base s)).
Proof.
  unfold OverlayPlugin.initialize. unfold bind at 1, gets at 1.
  unfold bind at 1, modify at 1. unfold bind at 1. unfold overlay_enabled.
  set (cfg := config (OverlayPlugin.base s)).
  destruct (has_key cfg "enabled"); [|destruct (has_key cfg "show_by_default")];
    unfold modify at 1;
    match goal with
    | |- ?c ?st ?o = _ → _ =>
        assert (Hrest : on_success
                          (λ x, enabled (OverlayPlugin.base x)
                                = enabled (OverlayPlugin.base st))
                          c (λ _ x, enabled (OverlayPlugin.base x)
                                    = enabled (OverlayPlugin.base st)))
          by (keeps_tac; by simpl);
        intros Hrun; apply Hrest in Hrun; [exact Hrun|done]
    end.
Qed.

Lemma plugin_initialize_enabled env app d cls o b p' o' :
  lookup_class PLUGIN_CLASSES (d_type d) = Some cls →
  plugin_initialize env app
    (plugin_set_enabled (VBool (d_enabled d)) (cls (d_config d))) o = (Ok b, p', o') →
  plugin_enabled p' = enabled_after_initialize d.
Proof.
  unfold PLUGIN_CLASSES, lookup_class, enabled_after_initialize.
  destruct (String.eqb_spec "clock" (d_type d)) as [<-|_].
  { intros [= <-]. simpl. unfold on_instance.
    destruct (ClockPlugin.initialize _ _ _ _) as [[r c'] o1] eqn:E.
    intros [= -> <- <-]. simpl.
    apply (Clock_initialize_enabled env app (VBool (d_enabled d))) in E; [exact E|done]. }
  destruct (String.eqb_spec "cpu" (d_type d)) as [<-|_].
  { intros [= <-]. simpl. unfold on_instance.
    destruct (CPUPlugin.initialize _ _ _ _) as [[r c'] o1] eqn:E.
    intros [= -> <- <-]. simpl.
    apply (Cpu_initialize_enabled env app (VBool (d_enabled d))) in E; [exact E|done]. }
  destruct (String.eqb_spec "overlay" (d_type d)) as [<-|_].
  { intros [= <-]. simpl. unfold on_instance.
    destruct (OverlayPlugin.initialize _ _ _ _) as [[r c'] o1] eqn:E.
    intros [= -> <- <-]. by apply Overlay_initialize_enabled in E. }
  destruct (String.eqb_spec "crop" (d_type d)) as [<-|_].
  { intros [= <-]. simpl. unfold on_instance.
    destruct (CropPlugin.initialize _ _ _ _) as [[r c'] o1] eqn:E.
    intros [= -> <- <-]. simpl.
    apply (Crop_initialize_enabled env app (VBool (d_enabled d))) in E; [exact E|done]. }
  destruct (String.eqb_spec "tlp" (d_type d)) as [<-|_]; [|done].
  intros [= <-]. simpl. unfold on_instance.
  destruct (TLPPlugin.initialize _ _ _ _) as [[r c'] o1] eqn:E.
  intros [= -> <- <-]. simpl.
  apply (Tlp_initialize_enabled env app (VBool (d_enabled d))) in E; [exact E|done].
Qed.

(** X15: the [enabled] flag of a descriptor reaches the registered
    instance for the clock, the load meter, the crop and the badge: their
    [initialize] does not touch it. [OverlayPlugin.initialize] assigns
    [enabled] again from the options ([enabled], else [show_by_default],
    else [True]), so for an overlay the descriptor's flag is lost: an
    overlay declared with [enabled: false] and no such option is
    registered enabled. *)
Theorem Initialize_plugins_enabled_flag env cfg m' out' :
  plugin_instances cfg ≠ [] →
  initialize_plugins env (new_manager cfg) [] = (Ok true, m', out') →
  Forall2 (λ d kv, plugin_enabled kv.2 = enabled_after_initialize d)
    (List.filter type_valid (plugin_instances cfg)) (registry m').
Proof.
  intros Hne Hrun. rewrite initialize_plugins_descriptors in Hrun by done.
  apply (initialize_instances_each
           (λ d p, plugin_enabled p = enabled_after_initialize d)) in Hrun
    as (new & Hreg & Hall).
  - simpl in Hreg. by rewrite Hreg.
  - intros d cls app o b p' o'. apply plugin_initialize_enabled.
Qed.

Lemma Initialize_plugins_enabled_flag_witness :
  let cfg := config_of [disabled_clock; disabled_overlay] (VDict []) in
  let m' := (initialize_plugins env_plain (new_manager cfg) []).1.2 in
  Forall2 (λ d kv, plugin_enabled kv.2 = enabled_after_initialize d)
    [disabled_clock; disabled_overlay] (registry m')
  ∧ enabled_after_initialize disabled_clock = VBool false
  ∧ enabled_after_initialize disabled_overlay = VBool true.
Proof.
  intros cfg m'. split; [|split; by vm_compute].
  apply (Initialize_plugins_enabled_flag env_plain cfg m'
           (initialize_plugins env_plain (new_manager cfg) []).2).
  - done.
  - by vm_compute.
Defined.

(** ** The load meter *)

(** X16: the load meter reads the load only when more than
    [update_interval] passed since the last reading. Until then
    [process_frame] reads the time once, leaves the instance as it was
    and draws the text it has; a call exactly [update_interval] after the
    reading does not read the load yet. When it reads, the text becomes
    [CPU: n%] with [n] the reading truncated to an integer, and the time
    is read again for [last_check]. *)
Theorem Cpu_reads_the_load_once_per_interval env self w out frame d x :
  truthy (CPUPlugin.show self) = true →
  num_of (CPUPlugin.update_interval self) = Some x →
  let since := (time_time env - CPUPlugin.last_check self)%Q in
  let text usage :=
    DrawText (CPUPlugin.position self) (Literal usage) (CPUPlugin.font self)
      [0; 255; 0; 200]%Z in
  ((since <= Q_of_num x)%Q →
   CPUPlugin.process_frame env frame (Some d) (self, w) out
   = (Ok frame,
      (self, drawn d (text (CPUPlugin.cpu_usage self)) (touched ReadTime w)), out))
  ∧ ((Q_of_num x < since)%Q →
     CPUPlugin.process_frame env frame (Some d) (self, w) out
     = (Ok frame,
        (CPUPlugin.set_last_check (time_time_after env)
           (CPUPlugin.set_cpu_usage (cpu_text (cpu_percent env)) self),
         drawn d (text (cpu_text (cpu_percent env)))
           (touched ReadTime (touched ReadCpu (touched ReadTime w)))),
        out)).
Proof.
  intros Hshow Hx since text.
  unfold CPUPlugin.process_frame, bind, self_, gets, lift, touch, modify. simpl.
  rewrite Hshow. simpl. unfold py_lt. rewrite Hx. simpl. fold since.
  split; intros Hsince.
  - assert (Qle_bool since (Q_of_num x) = true) as -> by by apply Qle_bool_iff.
    simpl. by destruct w.
  - assert (Qle_bool since (Q_of_num x) = false) as ->.
    { apply not_true_is_false. intros H%Qle_bool_iff. lra. }
    simpl. by destruct w.
Qed.

Lemma Cpu_reads_the_load_once_per_interval_witness :
  CPUPlugin.process_frame env_plain 0 (Some 0%nat) (cpu_at_99, one_frame) []
  = (Ok 0%nat,
     (cpu_at_99,
      drawn 0
        (DrawText (CPUPlugin.position cpu_at_99) (Literal (CPUPlugin.cpu_usage cpu_at_99))
           (CPUPlugin.font cpu_at_99) [0; 255; 0; 200]%Z)
        (touched ReadTime one_frame)),
     []).
Proof.
  apply (proj1 (Cpu_reads_the_load_once_per_interval env_plain cpu_at_99 one_frame []
                  0%nat 0%nat (NFloat 2) eq_refl eq_refl)).
  by vm_compute.
Defined.

(** ** The size of the overlay image *)

Lemma Qeq_bool_inject_Z (a b : Z) : Qeq_bool (inject_Z a) (inject_Z b) = (a =? b)%Z.
Proof.
  destruct (Z.eqb_spec a b) as [->|Hne].
  - apply Qeq_bool_iff. reflexivity.
  - apply not_true_is_false. intros H%Qeq_bool_iff.
    apply Hne. unfold Qeq in H. simpl in H. lia.
Qed.

(** X17: the size of the image an overlay pastes, where integers
    decide it. With [fit], an image that has the output size already is
    kept as it is, whatever [resize] says; any other image is brought to
    the output size when that is positive, and refused by the imaging
    library with a [ValueError] when the output width or height is not
    positive. Without [fit], a [resize] equal to one keeps the image,
    and an integer factor multiplies its width and height exactly, with
    the same refusal of a size that is not positive. *)
Theorem Overlay_apply_resize_size env image app self :
  (∀ W H,
     truthy (OverlayPlugin.fit self) = true →
     width app = VInt W → height app = VInt H →
     (im_size image = (W, H) →
      OverlayPlugin._apply_resize env image app self = Ok image)
     ∧ (im_size image ≠ (W, H) → (0 < W)%Z → (0 < H)%Z →
        ∃ img',
          OverlayPlugin._apply_resize env image app self = Ok img'
          ∧ im_size img' = (W, H))
     ∧ (im_size image ≠ (W, H) → ¬ ((0 < W)%Z ∧ (0 < H)%Z) →
        OverlayPlugin._apply_resize env image app self = Raise ValueError))
  ∧ (truthy (OverlayPlugin.fit self) = false →
     py_eq (OverlayPlugin.resize self) (VFloat 1) = true →
     OverlayPlugin._apply_resize env image app self = Ok image)
  ∧ (∀ n,
       truthy (OverlayPlugin.fit self) = false →
       OverlayPlugin.resize self = VInt n →
       (0 < im_w image * n)%Z → (0 < im_h image * n)%Z →
       ∃ img',
         OverlayPlugin._apply_resize env image app self = Ok img'
         ∧ im_size img' = (im_w image * n, im_h image * n)%Z)
  ∧ (∀ n,
       truthy (OverlayPlugin.fit self) = false →
       OverlayPlugin.resize self = VInt n →
       n ≠ 1%Z → (im_w image * n, im_h image * n)%Z ≠ im_size image →
       ¬ ((0 < im_w image * n)%Z ∧ (0 < im_h image * n)%Z) →
       OverlayPlugin._apply_resize env image app self = Raise ValueError).
Proof.
  assert (Hsame : ∀ W H,
            py_eq (VList [VInt (im_w image); VInt (im_h image)]) (VList [VInt W; VInt H])
            = ((im_w image =? W)%Z && (im_h image =? H)%Z)%bool).
  { intros W H. unfold py_eq. simpl. by rewrite !Qeq_bool_inject_Z, andb_true_r. }
  split; [|split; [|split]].
  - intros W H Hfit Hw Hh. unfold OverlayPlugin._apply_resize.
    rewrite Hfit, Hw, Hh, Hsame. simpl.
    split; [|split].
    + intros [= -> ->]. by rewrite !Z.eqb_refl.
    + intros Hne HW HH.
      assert (((im_w image =? W)%Z && (im_h image =? H)%Z)%bool = false) as ->.
      { apply not_true_is_false. intros [Hw'%Z.eqb_eq Hh'%Z.eqb_eq]%andb_true_iff.
        apply Hne. unfold im_size. by rewrite Hw', Hh'. }
      simpl. unfold im_resize.
      assert (((0 <? W)%Z && (0 <? H)%Z)%bool = true) as ->
        by (apply andb_true_iff; split; by apply Z.ltb_lt).
      by eexists.
    + intros Hne Hpos.
      assert (((im_w image =? W)%Z && (im_h image =? H)%Z)%bool = false) as ->.
      { apply not_true_is_false. intros [Hw'%Z.eqb_eq Hh'%Z.eqb_eq]%andb_true_iff.
        apply Hne. unfold im_size. by rewrite Hw', Hh'. }
      simpl. unfold im_resize.
      assert (((0 <? W)%Z && (0 <? H)%Z)%bool = false) as ->; [|done].
      apply not_true_is_false. intros [?%Z.ltb_lt ?%Z.ltb_lt]%andb_true_iff.
      by apply Hpos.
  - intros Hfit Hone. unfold OverlayPlugin._apply_resize. by rewrite Hfit, Hone.
  - intros n Hfit Hn Hw Hh. unfold OverlayPlugin._apply_resize.
    rewrite Hfit, Hn. simpl.
    destruct (py_eq (VInt n) (VFloat 1)) eqn:Hone; simpl.
    + assert (n = 1%Z) as ->.
      { unfold py_eq in Hone. simpl in Hone. apply Qeq_bool_iff in Hone.
        unfold Qeq in Hone. simpl in Hone. lia. }
      exists image. split; [done|]. unfold im_size. by rewrite !Z.mul_1_r.
    + destruct ((im_w image * n =? im_w image)%Z && (im_h image * n =? im_h image)%Z)%bool
        eqn:Hsize; simpl.
      * apply andb_true_iff in Hsize as [Hw'%Z.eqb_eq Hh'%Z.eqb_eq].
        exists image. split; [done|]. unfold im_size. by rewrite Hw', Hh'.
      * unfold im_resize.
        assert (((0 <? im_w image * n)%Z && (0 <? im_h image * n)%Z)%bool = true) as ->
          by (apply andb_true_iff; split; by apply Z.ltb_lt).
        by eexists.
  - intros n Hfit Hn Hn1 Hsize Hpos. unfold OverlayPlugin._apply_resize.
    rewrite Hfit, Hn. simpl.
    assert (py_eq (VInt n) (VFloat 1) = false) as ->.
    { apply not_true_is_false. unfold py_eq. simpl. intros Hone%Qeq_bool_iff.
      unfold Qeq in Hone. simpl in Hone. lia. }
    simpl.
    assert (((im_w image * n =? im_w image)%Z && (im_h image * n =? im_h image)%Z)%bool
            = false) as ->.
    { apply not_true_is_false. intros [Hw%Z.eqb_eq Hh%Z.eqb_eq]%andb_true_iff.
      apply Hsize. unfold im_size. by rewrite Hw, Hh. }
    simpl. unfold im_resize.
    assert (((0 <? im_w image * n)%Z && (0 <? im_h image * n)%Z)%bool = false) as ->;
      [|done].
    apply not_true_is_false. intros [?%Z.ltb_lt ?%Z.ltb_lt]%andb_true_iff.
    by apply Hpos.
Qed.

Lemma Overlay_apply_resize_size_witness :
  let self := OverlayPlugin.set_fit (VBool true)
                (OverlayPlugin.set_resize (VFloat (1 # 2)) (OverlayPlugin.init ∅)) in
  ∃ img',
    OverlayPlugin._apply_resize env_plain camera_frame plain_config self = Ok img'
    ∧ im_size img' = (1280, 720)%Z.
Proof.
  intros self.
  apply (proj1 (proj2 (proj1 (Overlay_apply_resize_size env_plain camera_frame
                                plain_config self) 1280%Z 720%Z eq_refl eq_refl eq_refl)));
    done.
Defined.

(** ** The clock's zone *)

(** X18: how the clock resolves its zone in the cases where the zone
    matters. Without a configured zone the time is naive local time
    after one reading of the clock, unless the format has [%z] or [%Z]:
    then the local zone is attached, which takes a second reading. The
    name [local], in any case, attaches the local zone whatever the
    format. With a zone directive in the format, [UTC] in any case is
    UTC; any other name is looked up in the zone database: a name it
    does not know costs a warning and gives naive local time, and any
    other failure of the lookup is raised. *)
Theorem Clock_zone_resolution env self w out fmt :
  ClockPlugin.format_str self = VStr fmt →
  let needs_tz := (contains "%z" fmt || contains "%Z" fmt)%bool in
  (ClockPlugin.timezone self = VNone →
   ClockPlugin._get_current_time env (self, w) out
   = if needs_tz
     then (Ok AwareLocal, (self, touched ReadClock (touched ReadClock w)), out)
     else (Ok NaiveLocal, (self, touched ReadClock w), out))
  ∧ (∀ name,
       ClockPlugin.timezone self = VStr name → lower name = "local" →
       ClockPlugin._get_current_time env (self, w) out
       = (Ok AwareLocal, (self, touched ReadClock (touched ReadClock w)), out))
  ∧ (∀ name,
       ClockPlugin.timezone self = VStr name → lower name ≠ "local" →
       needs_tz = true → upper name = "UTC" →
       ClockPlugin._get_current_time env (self, w) out
       = (Ok AwareUTC, (self, touched ReadClock w), out))
  ∧ (∀ name,
       ClockPlugin.timezone self = VStr name → lower name ≠ "local" →
       needs_tz = true → upper name ≠ "UTC" →
       ClockPlugin._get_current_time env (self, w) out
       = match zoneinfo_error env name with
         | None =>
             (Ok (AwareZone name),
              (self, touched ReadClock (touched ReadZoneInfo w)), out)
         | Some KeyError =>
             (Ok NaiveLocal, (self, touched ReadClock (touched ReadZoneInfo w)),
              out ++ [WarnTimezoneUnknown name])
         | Some e => (Raise e, (self, touched ReadZoneInfo w), out)
         end).
Proof.
  intros Hfmt needs_tz.
  assert (Hrun : ∀ tz, ClockPlugin.timezone self = tz →
            ClockPlugin._get_current_time env (self, w) out
            = match tz with
              | VNone =>
                  if needs_tz
                  then (Ok AwareLocal, (self, touched ReadClock (touched ReadClock w)), out)
                  else (Ok NaiveLocal, (self, touched ReadClock w), out)
              | VStr name =>
                  if String.eqb (lower name) "local"
                  then (Ok AwareLocal, (self, touched ReadClock (touched ReadClock w)), out)
                  else if negb needs_tz
                  then (Ok NaiveLocal, (self, touched ReadClock w), out)
                  else if String.eqb (upper name) "UTC"
                  then (Ok AwareUTC, (self, touched ReadClock w), out)
                  else match zoneinfo_error env name with
                       | None =>
                           (Ok (AwareZone name),
                            (self, touched ReadClock (touched ReadZoneInfo w)), out)
                       | Some KeyError =>
                           (Ok NaiveLocal,
                            (self, touched ReadClock (touched ReadZoneInfo w)),
                            out ++ [WarnTimezoneUnknown name])
                       | Some e => (Raise e, (self, touched ReadZoneInfo w), out)
                       end
              | _ => (Raise AttributeError, (self, w), out)
              end).
  { intros tz Htz. unfold needs_tz.
    unfold ClockPlugin._get_current_time, bind, self_, gets, lift. simpl.
    rewrite Hfmt. simpl.
    destruct (contains "%z" fmt); simpl; [|destruct (contains "%Z" fmt); simpl];
      rewrite Htz;
      destruct tz as [|b|k|q|name|l|m]; try done;
      destruct (String.eqb (lower name) "local"); try done;
      destruct (String.eqb (upper name) "UTC"); try done;
      by destruct (zoneinfo_error env name) as [[]|]. }
  split; [|split; [|split]].
  - intros Htz. by rewrite (Hrun _ Htz).
  - intros name Htz Hlocal. rewrite (Hrun _ Htz), Hlocal. done.
  - intros name Htz Hlocal Hneeds Hutc. rewrite (Hrun _ Htz), Hneeds, Hutc.
    by destruct (String.eqb_spec (lower name) "local").
  - intros name Htz Hlocal Hneeds Hutc. rewrite (Hrun _ Htz), Hneeds.
    destruct (String.eqb_spec (lower name) "local"); [done|].
    by destruct (String.eqb_spec (upper name) "UTC").
Qed.

Lemma Clock_zone_resolution_witness :
  let self := ClockPlugin.set_format_str (VStr "%H:%M %Z")
                (ClockPlugin.set_timezone (VStr "Mars/Olympus") utc_clock) in
  ClockPlugin._get_current_time env_plain (self, one_frame) []
  = (Ok NaiveLocal, (self, touched ReadClock (touched ReadZoneInfo one_frame)),
     [WarnTimezoneUnknown "Mars/Olympus"]).
Proof.
  intros self.
  apply (proj2 (proj2 (proj2
           (Clock_zone_resolution env_plain self one_frame [] "%H:%M %Z" eq_refl)))
           "Mars/Olympus").
  - done.
  - by vm_compute.
  - by vm_compute.
  - by vm_compute.
Defined.

(** ** The parser of the [plugins] list *)

Lemma assoc_get_options items k :
  assoc_get (List.filter (λ kv, negb (reserved kv.1)) items) k
  = if reserved k then None else assoc_get items k.
Proof.
  induction items as [|[k' v] rest IH]; simpl.
  - by destruct (reserved k).
  - destruct (reserved k') eqn:Hk'; simpl.
    + rewrite IH. destruct (String.eqb_spec k' k) as [->|?]; [by rewrite Hk'|done].
    + rewrite IH. destruct (String.eqb_spec k' k) as [->|?]; [by rewrite Hk'|done].
Qed.

Lemma parse_plugin_defs_dicts defs warned :
  Forall (λ v, ∃ items, v = VDict items) defs →
  ∃ instances,
    parse_plugin_defs defs warned
    = (Ok instances, warned ++ List.filter (λ v, negb (has_type v)) defs)
    ∧ Forall2
        (λ def inst, ∃ items, def = VDict items
                              ∧ inst = instance_of items (default VNone (assoc_get items "type")))
        (List.filter has_type defs) instances.
Proof.
  intros Hall. revert warned.
  induction Hall as [|def rest [items ->] Hrest IH]; intros warned; simpl.
  - exists []. by rewrite app_nil_r.
  - destruct (truthy (default VNone (assoc_get items "type"))) eqn:Hty; simpl.
    + destruct (IH warned) as (instances & -> & Hall).
      eexists. split; [done|]. constructor; [by eexists|done].
    + destruct (IH (warned ++ [VDict items])) as (instances & -> & Hall).
      exists instances. by rewrite <- app_assoc.
Qed.

(** X19: what [_parse_plugin_instances] makes of the [plugins] entry
    of the configuration. Anything but a list (the legacy dict, nothing
    at all) gives no instance and no warning. For a list of dicts it
    never raises: the entries without a [type] are left out with one
    warning each, and the others give, in order, one instance each with a
    truthy type, the [name] (or the type) as id, [enabled] defaulting to
    [True], and as options the other fields of the entry: [name], [type]
    and [enabled] never reach the options of a plugin. *)
Theorem Parse_plugin_instances_strips_reserved_fields (d : list (string * value)) :
  ((∀ defs, default (VDict []) (assoc_get d "plugins") ≠ VList defs) →
   _parse_plugin_instances (VDict d) = (Ok [], []))
  ∧ (∀ defs,
       assoc_get d "plugins" = Some (VList defs) →
       Forall (λ v, ∃ items, v = VDict items) defs →
       ∃ instances,
         _parse_plugin_instances (VDict d)
         = (Ok instances, List.filter (λ v, negb (has_type v)) defs)
         ∧ Forall2
             (λ def inst,
                ∃ items ty cfg,
                  def = VDict items
                  ∧ inst = VDict [("type", ty);
                                  ("id", default ty (assoc_get items "name"));
                                  ("enabled", default (VBool true) (assoc_get items "enabled"));
                                  ("config", VDict cfg)]
                  ∧ truthy ty = true
                  ∧ assoc_get items "type" = Some ty
                  ∧ ∀ k, assoc_get cfg k
                         = if reserved k then None else assoc_get items k)
             (List.filter has_type defs) instances).
Proof.
  split.
  - intros Hnot. unfold _parse_plugin_instances. simpl.
    destruct (default (VDict []) (assoc_get d "plugins")) as [| | | | |defs|] eqn:E;
      try done.
    by destruct (Hnot defs).
  - intros defs Hd Hall. unfold _parse_plugin_instances. simpl. rewrite Hd. simpl.
    destruct (parse_plugin_defs_dicts defs [] Hall) as (instances & -> & Hinst).
    exists instances. split; [done|].
    assert (Hty : Forall (λ v, has_type v = true) (List.filter has_type defs)).
    { apply Forall_forall. intros v Hv. apply list_elem_of_In in Hv.
      by apply filter_In in Hv as [_ ?]. }
    revert Hty. induction Hinst as [|def inst defs' insts (items & -> & ->) Hrest IH];
      intros Hty; [constructor|].
    apply Forall_cons in Hty as [Hdef Hty]. constructor; [|by apply IH].
    simpl in Hdef.
    destruct (assoc_get items "type") as [ty|] eqn:Htype; [|done]. simpl in *.
    exists items, ty, (List.filter (λ kv, negb (reserved kv.1)) items).
    split; [done|]. split; [done|]. split; [done|]. split; [done|].
    intros k. apply assoc_get_options.
Qed.

Lemma Parse_plugin_instances_strips_reserved_fields_witness :
  _parse_plugin_instances parsed_example
  = (Ok [VDict [("type", VStr "overlay"); ("id", VStr "wm"); ("enabled", VBool false);
                ("config", VDict [("file", VStr "wm.png")])]],
     [VDict [("name", VStr "orphan")]]).
Proof.
  destruct (proj2 (Parse_plugin_instances_strips_reserved_fields
                     [("plugins",
                       VList [VDict [("name", VStr "wm"); ("type", VStr "overlay");
                                     ("enabled", VBool false); ("file", VStr "wm.png")];
                              VDict [("name", VStr "orphan")]])])
              [VDict [("name", VStr "wm"); ("type", VStr "overlay");
                      ("enabled", VBool false); ("file", VStr "wm.png")];
               VDict [("name", VStr "orphan")]])
    as (instances & Hrun & _).
  - done.
  - repeat constructor; by eexists.
  - by vm_compute.
Defined.

(** ** The legacy path of [initialize_plugins] *)

Lemma initialize_each_identity env cfg items out :
  Forall2 (λ kv kv', kv'.1 = kv.1
                     ∧ plugin_name kv'.2 = plugin_name kv.2
                     ∧ config (plugin_base kv'.2) = config (plugin_base kv.2))
    items (initialize_each env cfg items out).1.
Proof.
  revert out. induction items as [|[id p] rest IH]; intros out; simpl; [constructor|].
  destruct (plugin_initialize env cfg p out) as [[[b|e] p'] out1] eqn:E.
  - specialize (IH out1). destruct (initialize_each env cfg rest out1) as [rest' out2].
    simpl in *. constructor; [|done].
    apply plugin_initialize_identity in E as [Hname Hcfg]. by repeat split.
  - specialize (IH (out1 ++ [ErrInitializeLegacy id e])).
    destruct (initialize_each env cfg rest _) as [rest' out2].
    simpl in *. constructor; [|done].
    apply plugin_initialize_identity in E as [Hname Hcfg]. by repeat split.
Qed.

Lemma register_plugin_free p m out :
  plugin_name p ∉ (registry m).*1 →
  register_plugin p None m out
  = (Ok tt, set_registry (registry m ++ [(plugin_name p, p)]) m,
     out ++ [PluginRegistered (plugin_name p) (plugin_name p)]).
Proof.
  intros Hfree. unfold register_plugin, bind, gets. simpl.
  apply registered_false in Hfree. by rewrite Hfree.
Qed.

Lemma options_of_section pc k :
  Forall (λ kv, ∃ d, kv.2 = VDict d) pc →
  options_of (default (VDict []) (assoc_get pc k)) = Ok (legacy_section pc k).
Proof.
  intros Hall. unfold legacy_section.
  induction Hall as [|[k' v] rest [d Hd] Hrest IH]; simpl; [done|].
  simpl in Hd. subst v. by destruct (String.eqb k' k).
Qed.

(** X20: without descriptors, and with the sections of
    [plugins.config] being dicts, [initialize_plugins] returns [True] and
    leaves exactly three plugins, registered in this order under the ids
    [clock], [cpu] and [overlay]: a clock, a load meter and an overlay,
    each built with its section of the legacy configuration. The
    overlay's section is [frame] when that is there and not empty, and
    [overlay] otherwise. No crop plugin is registered on this path. *)
Theorem Legacy_path_registers_clock_cpu_overlay env cfg pc :
  plugin_instances cfg = [] →
  value_get (plugins cfg) "config" (VDict []) = Ok (VDict pc) →
  Forall (λ kv, ∃ d, kv.2 = VDict d) pc →
  ∃ m' out',
    initialize_plugins env (new_manager cfg) [] = (Ok true, m', out')
    ∧ (registry m').*1 = ["clock"; "cpu"; "overlay"]
    ∧ plugin_name <$> (registry m').*2 = ["clock"; "cpu"; "overlay"]
    ∧ (λ p, config (plugin_base p)) <$> (registry m').*2
      = [legacy_section pc "clock"; legacy_section pc "cpu"; legacy_overlay_section pc].
Proof.
  intros Hinst Hcfg Hall.
  unfold initialize_plugins, bind, gets. simpl. rewrite Hinst.
  unfold _initialize_legacy_plugins, bind, gets, lift. simpl. rewrite Hcfg. simpl.
  assert (Hov : options_of
                  (if truthy (default (VDict []) (assoc_get pc "frame"))
                   then default (VDict []) (assoc_get pc "frame")
                   else default (VDict []) (assoc_get pc "overlay"))
                = Ok (legacy_overlay_section pc)).
  { unfold legacy_overlay_section.
    destruct (truthy (default (VDict []) (assoc_get pc "frame")));
      by apply options_of_section. }
  destruct (truthy (default (VDict []) (assoc_get pc "frame"))); unfold ret;
    rewrite (options_of_section pc "clock" Hall);
    rewrite register_plugin_free by (simpl; apply not_elem_of_nil);
    rewrite (options_of_section pc "cpu" Hall);
    (rewrite register_plugin_free
       by (simpl; intros Hin; apply list_elem_of_singleton in Hin; discriminate Hin));
    rewrite Hov;
    (rewrite register_plugin_free
       by (simpl; intros Hin;
           repeat (apply elem_of_cons in Hin as [Hin|Hin]; [discriminate Hin|]);
           by apply elem_of_nil in Hin));
    cbv beta iota zeta;
    match goal with
    | |- context [initialize_each env ?c ?items ?o] =>
        pose proof (initialize_each_identity env c items o) as Hid;
        destruct (initialize_each env c items o) as [reg out1]
    end;
    simpl in Hid;
    apply Forall2_cons_inv_l in Hid as ([k1 p1] & reg1 & (Hk1 & Hn1 & Hc1) & Hid & ->);
    apply Forall2_cons_inv_l in Hid as ([k2 p2] & reg2 & (Hk2 & Hn2 & Hc2) & Hid & ->);
    apply Forall2_cons_inv_l in Hid as ([k3 p3] & reg3 & (Hk3 & Hn3 & Hc3) & Hid & ->);
    apply Forall2_nil_inv_l in Hid as ->;
    simpl in *; subst;
    eexists _, _; (split; [reflexivity|]); simpl;
    rewrite Hn1, Hn2, Hn3, Hc1, Hc2, Hc3; done.
Qed.

Lemma Legacy_path_registers_clock_cpu_overlay_witness :
  let cfg := config_of [] (VDict [("config", VDict legacy_sections)]) in
  ∃ m' out',
    initialize_plugins env_plain (new_manager cfg) [] = (Ok true, m', out')
    ∧ (registry m').*1 = ["clock"; "cpu"; "overlay"]
    ∧ plugin_name <$> (registry m').*2 = ["clock"; "cpu"; "overlay"]
    ∧ (λ p, config (plugin_base p)) <$> (registry m').*2
      = [legacy_section legacy_sections "clock"; legacy_section legacy_sections "cpu";
         legacy_overlay_section legacy_sections].
Proof.
  intros cfg.
  apply (Legacy_path_registers_clock_cpu_overlay env_plain cfg legacy_sections).
  - done.
  - done.
  - repeat constructor; by eexists.
Defined.

(** ** The crop step runs once, and first *)

Global Instance drawn_over_refl : Reflexive drawn_over.
Proof. intros i. split; [done|]. exists []. by rewrite app_nil_r. Qed.

Global Instance drawn_over_trans : Transitive drawn_over.
Proof.
  intros i0 i1 i2 [Hs1 (d1 & Ho1 & Hd1)] [Hs2 (d2 & Ho2 & Hd2)].
  split; [congruence|]. exists (d1 ++ d2).
  split; [by rewrite Ho2, Ho1, app_assoc|by apply Forall_app].
Qed.

Global Instance only_drawings_refl : Reflexive only_drawings.
Proof.
  intros w. unfold only_drawings. induction (images w); constructor; [reflexivity|done].
Qed.

Global Instance only_drawings_trans : Transitive only_drawings.
Proof.
  intros w0 w1 w2. unfold only_drawings.
  generalize (images w0) (images w1) (images w2). clear.
  intros l0 l1 l2 H01. revert l2.
  induction H01 as [|i0 i1 l0 l1 Hi Hl IH]; intros l2 H12.
  - by apply Forall2_nil_inv_l in H12 as ->.
  - apply Forall2_cons_inv_l in H12 as (i2 & l2' & Hi2 & Hl2 & ->).
    constructor; [by etrans|by apply IH].
Qed.














